(** * Digital Parking Management System: ticket lifecycle and settlement

    A shallow embedding of the cashier routes (check-in, check-out, receipt
    with payment recovery, shift opening), of the checkout endpoint of the
    JSON API and of the SQLite schema created by [initDatabase], followed by
    the properties of the ticket lifecycle.

    Conventions of the embedding:
    - a table is the list of its rows in rowid order ([db.get] yields the
      first matching row);
    - JavaScript numbers are exact rationals ([Q]); the text of
      [toFixed(2)] is that of the double nearest to the exact value;
    - instants are integers in milliseconds since the epoch, as [moment()]
      and [Date.now()] give them; a stored timestamp is represented by the
      instant that [moment(...)] reads back from it ([read_back]); one
      request reads its clocks at one instant;
    - a handler is a function from the request, the environment (clocks,
      session, storage errors) and the database to a response and the new
      database.  The callback pyramid of the source becomes nested matches,
      one per statement, in source order. *)

From Stdlib Require Import ZArith QArith Qround Qabs List String Bool Lia.
From Stdlib Require Import DecimalString.
Import ListNotations.
Open Scope string_scope.
Open Scope list_scope.
Open Scope Z_scope.

(** ** Schema (database/init.js, [initDatabase])

    Each record keeps the columns of its table that the lifecycle routes
    write or read; the bookkeeping columns ([created_at], [updated_at],
    [payment_date]) and the columns these routes leave at their defaults are
    not represented. *)

Module Schema.

(** [status TEXT CHECK(status IN ('vacant','occupied','reserved','out_of_service'))] *)
Inductive slot_status := vacant | occupied | reserved | out_of_service.

(** [payment_status TEXT CHECK(payment_status IN ('pending','paid','cancelled'))] *)
Inductive payment_status := pending | paid | cancelled.

(** [status TEXT CHECK(status IN ('open','closed'))] *)
Inductive shift_status := open | closed.

Definition slot_status_eqb (a b : slot_status) : bool :=
  match a, b with
  | vacant, vacant | occupied, occupied | reserved, reserved
  | out_of_service, out_of_service => true
  | _, _ => false
  end.

Definition payment_status_eqb (a b : payment_status) : bool :=
  match a, b with
  | pending, pending | paid, paid | cancelled, cancelled => true
  | _, _ => false
  end.

Definition shift_status_eqb (a b : shift_status) : bool :=
  match a, b with
  | open, open | closed, closed => true
  | _, _ => false
  end.

(** parking_slots; [hourly_rate] is nullable ([DECIMAL(10,2) DEFAULT 5.00]). *)
Record slot := {
  slot_id : Z;
  slot_number : string;
  status : slot_status;
  hourly_rate : option Q
}.

(** vehicles; [license_plate VARCHAR(20) UNIQUE NOT NULL]. *)
Record vehicle := {
  vehicle_id : Z;
  license_plate : string;
  make : string;
  model : string;
  color : string;
  year : string;
  owner_name : string;
  owner_phone : string;
  owner_email : string
}.

(** drivers; no uniqueness constraint besides the primary key. *)
Record driver := {
  driver_id : Z;
  full_name : string;
  phone : string;
  email : string;
  id_number : string;
  license_number : string;
  address : string
}.

(** parking_tickets; [ticket_number] holds the [n] of [`TKT${n}`]. *)
Record ticket := {
  ticket_id : Z;
  ticket_number : Z;
  t_slot_id : Z;
  t_vehicle_id : Z;
  t_driver_id : Z;
  t_cashier_id : Z;
  check_in_time : Z;
  check_out_time : option Z;
  duration_hours : option Q;
  total_amount : option Q;
  t_payment_status : payment_status
}.

(** payments; [receipt_number] holds the [n] of [`RCP${n}`]. *)
Record payment := {
  payment_id : Z;
  p_ticket_id : Z;
  amount : Q;
  payment_method : string;
  reference_number : string;
  p_cashier_id : Z;
  receipt_number : Z;
  p_notes : string
}.

(** shifts. *)
Record shift := {
  shift_id : Z;
  s_cashier_id : Z;
  shift_date : Z;
  open_time : Z;
  opening_amount : Q;
  s_status : shift_status;
  s_notes : string
}.

(** audit_logs (the columns the cashier routes fill in). *)
Record audit_log := {
  a_user_id : Z;
  action : string;
  table_name : string;
  record_id : Z
}.

(** The database behind the single connection that [getDatabase] returns:
    the [PRAGMA foreign_keys] setting ([initDatabase] runs
    [PRAGMA foreign_keys = ON] on it), the ids of the users table, every
    table of the lifecycle, and for each [AUTOINCREMENT] table the largest
    rowid ever used (sqlite_sequence). *)
Record db := {
  foreign_keys : bool;
  users : list Z;
  parking_slots : list slot;
  vehicles : list vehicle;
  vehicles_seq : Z;
  drivers : list driver;
  drivers_seq : Z;
  parking_tickets : list ticket;
  parking_tickets_seq : Z;
  payments : list payment;
  payments_seq : Z;
  shifts : list shift;
  shifts_seq : Z;
  audit_logs : list audit_log
}.

Definition set_parking_slots (s : db) (l : list slot) : db :=
  {| foreign_keys := foreign_keys s; users := users s; parking_slots := l;
     vehicles := vehicles s; vehicles_seq := vehicles_seq s;
     drivers := drivers s; drivers_seq := drivers_seq s;
     parking_tickets := parking_tickets s;
     parking_tickets_seq := parking_tickets_seq s;
     payments := payments s; payments_seq := payments_seq s;
     shifts := shifts s; shifts_seq := shifts_seq s;
     audit_logs := audit_logs s |}.

Definition set_vehicles (s : db) (l : list vehicle) (q : Z) : db :=
  {| foreign_keys := foreign_keys s; users := users s;
     parking_slots := parking_slots s;
     vehicles := l; vehicles_seq := q;
     drivers := drivers s; drivers_seq := drivers_seq s;
     parking_tickets := parking_tickets s;
     parking_tickets_seq := parking_tickets_seq s;
     payments := payments s; payments_seq := payments_seq s;
     shifts := shifts s; shifts_seq := shifts_seq s;
     audit_logs := audit_logs s |}.

Definition set_drivers (s : db) (l : list driver) (q : Z) : db :=
  {| foreign_keys := foreign_keys s; users := users s;
     parking_slots := parking_slots s;
     vehicles := vehicles s; vehicles_seq := vehicles_seq s;
     drivers := l; drivers_seq := q;
     parking_tickets := parking_tickets s;
     parking_tickets_seq := parking_tickets_seq s;
     payments := payments s; payments_seq := payments_seq s;
     shifts := shifts s; shifts_seq := shifts_seq s;
     audit_logs := audit_logs s |}.

Definition set_parking_tickets (s : db) (l : list ticket) (q : Z) : db :=
  {| foreign_keys := foreign_keys s; users := users s;
     parking_slots := parking_slots s;
     vehicles := vehicles s; vehicles_seq := vehicles_seq s;
     drivers := drivers s; drivers_seq := drivers_seq s;
     parking_tickets := l; parking_tickets_seq := q;
     payments := payments s; payments_seq := payments_seq s;
     shifts := shifts s; shifts_seq := shifts_seq s;
     audit_logs := audit_logs s |}.

Definition set_payments (s : db) (l : list payment) (q : Z) : db :=
  {| foreign_keys := foreign_keys s; users := users s;
     parking_slots := parking_slots s;
     vehicles := vehicles s; vehicles_seq := vehicles_seq s;
     drivers := drivers s; drivers_seq := drivers_seq s;
     parking_tickets := parking_tickets s;
     parking_tickets_seq := parking_tickets_seq s;
     payments := l; payments_seq := q;
     shifts := shifts s; shifts_seq := shifts_seq s;
     audit_logs := audit_logs s |}.

Definition set_shifts (s : db) (l : list shift) (q : Z) : db :=
  {| foreign_keys := foreign_keys s; users := users s;
     parking_slots := parking_slots s;
     vehicles := vehicles s; vehicles_seq := vehicles_seq s;
     drivers := drivers s; drivers_seq := drivers_seq s;
     parking_tickets := parking_tickets s;
     parking_tickets_seq := parking_tickets_seq s;
     payments := payments s; payments_seq := payments_seq s;
     shifts := l; shifts_seq := q;
     audit_logs := audit_logs s |}.

Definition set_audit_logs (s : db) (l : list audit_log) : db :=
  {| foreign_keys := foreign_keys s; users := users s;
     parking_slots := parking_slots s;
     vehicles := vehicles s; vehicles_seq := vehicles_seq s;
     drivers := drivers s; drivers_seq := drivers_seq s;
     parking_tickets := parking_tickets s;
     parking_tickets_seq := parking_tickets_seq s;
     payments := payments s; payments_seq := payments_seq s;
     shifts := shifts s; shifts_seq := shifts_seq s;
     audit_logs := l |}.

End Schema.

(** ** SQL statements of the cashier routes, with the schema's constraints *)

Module Sql.
Import Schema.

Inductive sqlite_error :=
| SQLITE_CONSTRAINT_UNIQUE
| SQLITE_CONSTRAINT_CHECK
| SQLITE_CONSTRAINT_FOREIGNKEY
| SQLITE_IOERR.

(** What the callback of [db.run] / [db.get] receives: [err] or the result. *)
Inductive result (A : Type) :=
| Ok (a : A)
| Err (e : sqlite_error).
Arguments Ok {A} a.
Arguments Err {A} e.

(** [INTEGER PRIMARY KEY AUTOINCREMENT]: one more than the largest rowid
    that has ever existed in the table. *)
Definition lastID {A : Type} (id : A -> Z) (seq : Z) (rows : list A) : Z :=
  Z.max seq (fold_right Z.max 0 (map id rows)) + 1.

(** A foreign key is enforced only under [PRAGMA foreign_keys = ON]. *)
Definition fk_ok (s : db) (holds : bool) : bool :=
  negb (foreign_keys s) || holds.

Definition has_user (s : db) (id : Z) : bool :=
  existsb (Z.eqb id) (users s).
Definition has_slot (s : db) (id : Z) : bool :=
  existsb (fun r => slot_id r =? id) (parking_slots s).
Definition has_vehicle (s : db) (id : Z) : bool :=
  existsb (fun r => vehicle_id r =? id) (vehicles s).
Definition has_driver (s : db) (id : Z) : bool :=
  existsb (fun r => driver_id r =? id) (drivers s).
Definition has_ticket (s : db) (id : Z) : bool :=
  existsb (fun r => ticket_id r =? id) (parking_tickets s).

(** [SELECT status FROM parking_slots WHERE id = ?] *)
Definition select_slot (s : db) (id : Z) : option slot :=
  find (fun r => slot_id r =? id) (parking_slots s).

(** [SELECT ... FROM parking_tickets WHERE id = ?] *)
Definition select_ticket (s : db) (id : Z) : option ticket :=
  find (fun r => ticket_id r =? id) (parking_tickets s).

(** [SELECT pt.*, ps.hourly_rate, ps.id as slot_id FROM parking_tickets pt
     JOIN parking_slots ps ON pt.slot_id = ps.id WHERE pt.id = ?] *)
Definition select_ticket_join_slot (s : db) (id : Z) : option (ticket * slot) :=
  match select_ticket s id with
  | Some t =>
      match select_slot s (t_slot_id t) with
      | Some ps => Some (t, ps)
      | None => None
      end
  | None => None
  end.

(** [SELECT id, amount, payment_method FROM payments WHERE ticket_id = ?] *)
Definition select_payment (s : db) (ticketId : Z) : option payment :=
  find (fun p => p_ticket_id p =? ticketId) (payments s).

Definition select_vehicle (s : db) (id : Z) : option vehicle :=
  find (fun r => vehicle_id r =? id) (vehicles s).
Definition select_driver (s : db) (id : Z) : option driver :=
  find (fun r => driver_id r =? id) (drivers s).

(** [INSERT OR REPLACE INTO vehicles (license_plate, ...) VALUES (...)]:
    the row holding the same [license_plate] (UNIQUE) is deleted, then the
    new row is inserted under a fresh rowid.  With foreign keys on, the
    statement fails when a ticket still references a deleted row
    ([FOREIGN KEY (vehicle_id) REFERENCES vehicles (id)], no ON DELETE
    action), and nothing is changed. *)
Definition insert_or_replace_vehicle (s : db)
    (plate mk mdl col yr owner ophone oemail : string) : result (db * Z) :=
  let replaced := filter (fun v => license_plate v =? plate)%string (vehicles s) in
  let kept := filter (fun v => negb (license_plate v =? plate)%string) (vehicles s) in
  let id := lastID vehicle_id (vehicles_seq s) (vehicles s) in
  let referenced :=
    existsb (fun t => existsb (fun v => vehicle_id v =? t_vehicle_id t) replaced)
            (parking_tickets s) in
  if fk_ok s (negb referenced) then
    Ok (set_vehicles s
          (kept ++ [ {| vehicle_id := id; license_plate := plate; make := mk;
                        model := mdl; color := col; year := yr;
                        owner_name := owner; owner_phone := ophone;
                        owner_email := oemail |} ])
          id, id)
  else Err SQLITE_CONSTRAINT_FOREIGNKEY.

(** [INSERT OR REPLACE INTO drivers (full_name, ...) VALUES (...)]: the
    table has no uniqueness constraint on these columns, so no row is ever
    replaced and the statement always adds a row. *)
Definition insert_or_replace_driver (s : db)
    (name ph em idn lic addr : string) : result (db * Z) :=
  let id := lastID driver_id (drivers_seq s) (drivers s) in
  Ok (set_drivers s
        (drivers s ++ [ {| driver_id := id; full_name := name; phone := ph;
                           email := em; id_number := idn;
                           license_number := lic; address := addr |} ])
        id, id).

(** [INSERT INTO parking_tickets (ticket_number, slot_id, vehicle_id,
     driver_id, cashier_id, check_in_time) VALUES (?,?,?,?,?,CURRENT_TIMESTAMP)];
    [ticket_number] is UNIQUE, the four references are foreign keys, the
    remaining columns take their defaults (NULL, ['pending']). *)
Definition insert_ticket (s : db)
    (number slotId vehicleId driverId cashierId ts : Z) : result (db * Z) :=
  if existsb (fun t => ticket_number t =? number) (parking_tickets s) then
    Err SQLITE_CONSTRAINT_UNIQUE
  else if fk_ok s (has_slot s slotId && has_vehicle s vehicleId
                   && has_driver s driverId && has_user s cashierId) then
    let id := lastID ticket_id (parking_tickets_seq s) (parking_tickets s) in
    Ok (set_parking_tickets s
          (parking_tickets s ++
           [ {| ticket_id := id; ticket_number := number; t_slot_id := slotId;
                t_vehicle_id := vehicleId; t_driver_id := driverId;
                t_cashier_id := cashierId; check_in_time := ts;
                check_out_time := None; duration_hours := None;
                total_amount := None; t_payment_status := pending |} ])
          id, id)
  else Err SQLITE_CONSTRAINT_FOREIGNKEY.

(** [UPDATE parking_slots SET status = ? WHERE id = ?] *)
Definition update_slot_status (s : db) (id : Z) (st : slot_status) : result db :=
  Ok (set_parking_slots s
        (map (fun r =>
                if slot_id r =? id then
                  {| slot_id := slot_id r; slot_number := slot_number r;
                     status := st; hourly_rate := hourly_rate r |}
                else r)
             (parking_slots s))).

(** [UPDATE parking_tickets SET check_out_time = CURRENT_TIMESTAMP,
     duration_hours = ?, total_amount = ?, payment_status = 'paid'
     WHERE id = ?] *)
Definition update_ticket_paid (s : db) (id ts : Z) (dur total : Q) : result db :=
  Ok (set_parking_tickets s
        (map (fun t =>
                if ticket_id t =? id then
                  {| ticket_id := ticket_id t; ticket_number := ticket_number t;
                     t_slot_id := t_slot_id t; t_vehicle_id := t_vehicle_id t;
                     t_driver_id := t_driver_id t; t_cashier_id := t_cashier_id t;
                     check_in_time := check_in_time t;
                     check_out_time := Some ts; duration_hours := Some dur;
                     total_amount := Some total; t_payment_status := paid |}
                else t)
             (parking_tickets s))
        (parking_tickets_seq s)).

(** [payment_method TEXT CHECK(payment_method IN ('cash','mfs','card')) NOT NULL] *)
Definition payment_method_check (m : string) : bool :=
  (m =? "cash")%string || (m =? "mfs")%string || (m =? "card")%string.

(** [INSERT INTO payments (ticket_id, amount, payment_method,
     reference_number, cashier_id, receipt_number, notes) VALUES (...)];
    CHECK on the method, UNIQUE receipt number, two foreign keys.  There is
    no uniqueness constraint on [ticket_id]. *)
Definition insert_payment (s : db) (ticketId : Z) (amt : Q)
    (method ref : string) (cashierId receipt : Z) (notes : string)
    : result (db * Z) :=
  if negb (payment_method_check method) then Err SQLITE_CONSTRAINT_CHECK
  else if existsb (fun p => receipt_number p =? receipt) (payments s) then
    Err SQLITE_CONSTRAINT_UNIQUE
  else if fk_ok s (has_ticket s ticketId && has_user s cashierId) then
    let id := lastID payment_id (payments_seq s) (payments s) in
    Ok (set_payments s
          (payments s ++
           [ {| payment_id := id; p_ticket_id := ticketId; amount := amt;
                payment_method := method; reference_number := ref;
                p_cashier_id := cashierId; receipt_number := receipt;
                p_notes := notes |} ])
          id, id)
  else Err SQLITE_CONSTRAINT_FOREIGNKEY.

(** [INSERT INTO shifts (cashier_id, shift_date, open_time, opening_amount,
     notes) VALUES (?, DATE('now'), CURRENT_TIMESTAMP, ?, ?)]; status takes
    its default ['open'].  The table has no uniqueness constraint on
    (cashier_id, shift_date); the index on these columns is not unique. *)
Definition insert_shift (s : db) (cashierId today ts : Z) (opening : Q)
    (notes : string) : result (db * Z) :=
  if fk_ok s (has_user s cashierId) then
    let id := lastID shift_id (shifts_seq s) (shifts s) in
    Ok (set_shifts s
          (shifts s ++
           [ {| shift_id := id; s_cashier_id := cashierId; shift_date := today;
                open_time := ts; opening_amount := opening; s_status := open;
                s_notes := notes |} ])
          id, id)
  else Err SQLITE_CONSTRAINT_FOREIGNKEY.

(** [SELECT * FROM shifts WHERE cashier_id = ? AND shift_date = DATE('now')
     AND status = 'open'] *)
Definition open_shifts (s : db) (cashierId today : Z) : list shift :=
  filter (fun h => (s_cashier_id h =? cashierId) && (shift_date h =? today)
                   && shift_status_eqb (s_status h) open)
         (shifts s).

(** [INSERT INTO audit_logs (user_id, action, table_name, record_id, ...)] *)
Definition insert_audit_log (s : db) (userId : Z) (act tbl : string)
    (recordId : Z) : result db :=
  if fk_ok s (has_user s userId) then
    Ok (set_audit_logs s
          (audit_logs s ++
           [ {| a_user_id := userId; action := act; table_name := tbl;
                record_id := recordId |} ]))
  else Err SQLITE_CONSTRAINT_FOREIGNKEY.

End Sql.

(** ** Billing arithmetic *)

Module Billing.

(** [moment(b).diff(moment(a), "hours", true)] and
    [(b - a) / (1000 * 60 * 60)]: the fractional number of hours. *)
Definition diff_hours (later earlier : Z) : Q := (later - earlier) # 3600000.

(** [Math.ceil] *)
Definition Math_ceil (x : Q) : Q := inject_Z (Qceiling x).

(** A nullable numeric column in an arithmetic expression: [null] is [0]. *)
Definition to_number (o : option Q) : Q :=
  match o with
  | Some q => q
  | None => 0%Q
  end.

(** [Math.ceil(durationHours) * ticket.hourly_rate] *)
Definition totalCost (durationHours : Q) (rate : option Q) : Q :=
  (Math_ceil durationHours * to_number rate)%Q.

(** [!paymentAmount || paymentAmount === 0] *)
Definition amount_missing (a : option Q) : bool :=
  match a with
  | Some q => Qeq_bool q 0
  | None => true
  end.

(** Rounding to the nearest integer, ties to the even one. *)
Definition round_half_even (x : Q) : Z :=
  let f := Qfloor x in
  match Qcompare (x - inject_Z f) (1 # 2) with
  | Lt => f
  | Gt => f + 1
  | Eq => if Z.even f then f else f + 1
  end.

(** The double that holds a quotient: the binary64 number nearest to the
    exact value [x], ties to even (53 significant bits; the exponent range
    of the normal doubles is not modelled).  [durationHours] is such a
    quotient of two integers that doubles hold exactly. *)
Definition binary64 (x : Q) : Q :=
  match Qnum x with
  | Z0 => 0%Q
  | _ =>
      let a := Qabs x in
      let k := Z.log2 (Z.abs (Qnum x)) - Z.log2 (Zpos (Qden x)) in
      let k := if Qle_bool (Qpower 2 k) a then k else k - 1 in
      let e := k - 52 in
      let m := inject_Z (round_half_even (a / Qpower 2 e)) in
      if Qle_bool 0 x then (m * Qpower 2 e)%Q else (- (m * Qpower 2 e))%Q
  end.

(** The decimal numeral of a natural number. *)
Definition numeral (n : Z) : string :=
  NilZero.string_of_uint (N.to_uint (Z.to_N n)).

Fixpoint zeros (k : nat) : string :=
  match k with
  | O => ""
  | S k' => String.append "0" (zeros k')
  end.

(** [x.toFixed(fractionDigits)], for a magnitude below 10^21: the sign, then
    the integer [n] for which [n / 10^fractionDigits] is nearest to the
    absolute value of [x] (the larger one of two), written with
    [fractionDigits] digits after the point. *)
Definition toFixed (x : Q) (fractionDigits : nat) : string :=
  let scale := 10 ^ Z.of_nat fractionDigits in
  let n := Qfloor (Qabs x * inject_Z scale + (1 # 2)) in
  let sign := if Qle_bool 0 x then "" else "-" in
  match fractionDigits with
  | O => String.append sign (numeral n)
  | _ =>
      let fraction := numeral (n mod scale) in
      String.concat ""
        [sign; numeral (n / scale); ".";
         zeros (fractionDigits - String.length fraction); fraction]
  end.

End Billing.

(** ** Requests, environment and responses *)

Module Http.
Import Schema Sql.

(** What a handler reads besides the request and the database. *)
Record env := {
  moment_now : Z;          (* [moment()], milliseconds *)
  date_now : Z;            (* [Date.now()] of the generated numbers *)
  current_timestamp : Z;   (* CURRENT_TIMESTAMP, as [moment] reads it back *)
  date_today : Z;          (* DATE('now') *)
  session_user : Z;        (* [req.session.user.id] *)
  io_err : nat -> bool     (* storage error at the n-th statement of the handler *)
}.

(** The clocks of a request served at the instant [now] (milliseconds since
    the epoch) on a server whose local time is [utc_offset] milliseconds
    ahead of UTC.  [moment()] and [Date.now()] are the instant itself.
    CURRENT_TIMESTAMP is the UTC wall clock as a text of whole seconds
    (YYYY-MM-DD HH:MM:SS); [moment(text)] and [new Date(text)] read a text
    without zone as local time, so the instant they read back from a stored
    timestamp is the instant of the write cut to the second, less the
    offset (a fixed offset: a change of daylight saving time between the
    write and the read is not modelled). *)
Definition read_back (utc_offset now : Z) : Z := 1000 * (now / 1000) - utc_offset.

Definition server (utc_offset user : Z) (err : nat -> bool) (now : Z) : env :=
  {| moment_now := now; date_now := now;
     current_timestamp := read_back utc_offset now;
     date_today := now / 86400000; session_user := user; io_err := err |}.

Inductive location :=
| cashier_check_in
| cashier_ticket (id : Z)
| cashier_check_out (id : Z)
| cashier_dashboard
| cashier_receipt (id : Z)
| cashier_shift_open.

(** The data handed to the views; [durationHours] is the text of
    [durationHours.toFixed(2)]. *)
Inductive page :=
| page_ticket (row : ticket * slot * vehicle * driver)
              (durationHours : string) (cost : Q)
| page_check_out_ticket (row : ticket * slot * vehicle * driver)
                        (durationHours : string) (cost : Q)
| page_receipt (row : ticket * slot * vehicle * driver * payment).

(** [no_response]: the handler returns without answering the request. *)
Inductive response :=
| redirect (to : location) (query : string)
| render_error (code : Z) (title message : string)
| render (view : string) (data : page)
| json_error (code : Z) (error : string)
| json_ticket (row : ticket * slot * vehicle * driver)
              (duration_hours : string) (total_cost : Q)
| no_response.

(** [db.run]: a storage error or the statement's own outcome. *)
Definition run {A : Type} (e : env) (n : nat) (r : result A) : result A :=
  if io_err e n then Err SQLITE_IOERR else r.

(** [db.get]: a storage error or the first row, if any. *)
Definition get {A : Type} (e : env) (n : nat) (row : option A)
    : result (option A) :=
  if io_err e n then Err SQLITE_IOERR else Ok row.

(** Body of POST /cashier/check-in. *)
Record check_in_body := {
  slot_id_field : option Z;
  license_plate_field : string;
  make_field : string;
  model_field : string;
  color_field : string;
  year_field : string;
  owner_name_field : string;
  owner_phone_field : string;
  owner_email_field : string;
  driver_name_field : string;
  driver_phone_field : string;
  driver_email_field : string;
  id_number_field : string;
  license_number_field : string;
  address_field : string
}.

(** Body of POST /cashier/check-out/:id. *)
Record check_out_body := {
  payment_method_field : string;
  reference_number_field : string;
  notes_field : string
}.

(** Body of POST /cashier/shift/open. *)
Record shift_open_body := {
  opening_amount_field : option Q;
  shift_notes_field : string
}.

Definition falsy (x : string) : bool := (x =? "")%string.

End Http.

(** ** Cashier routes (routes/cashier.js) *)

Module Cashier.
Import Schema Sql Billing Http.

(** The four-table join of the ticket pages:
    [FROM parking_tickets pt JOIN parking_slots ps ON pt.slot_id = ps.id
     JOIN vehicles v ON pt.vehicle_id = v.id
     JOIN drivers d ON pt.driver_id = d.id WHERE pt.id = ?] *)
Definition select_ticket_details (s : db) (id : Z)
    : option (ticket * slot * vehicle * driver) :=
  match select_ticket s id with
  | Some pt =>
      match select_slot s (t_slot_id pt),
            select_vehicle s (t_vehicle_id pt),
            select_driver s (t_driver_id pt) with
      | Some ps, Some v, Some d => Some (pt, ps, v, d)
      | _, _, _ => None
      end
  | None => None
  end.

(** The receipt join: the ticket details joined with
    [JOIN payments p ON pt.id = p.ticket_id JOIN users u ON pt.cashier_id = u.id]. *)
Definition select_receipt (s : db) (id : Z)
    : option (ticket * slot * vehicle * driver * payment) :=
  match select_ticket_details s id with
  | Some (pt, ps, v, d) =>
      match select_payment s id with
      | Some p =>
          if has_user s (t_cashier_id pt) then Some (pt, ps, v, d, p) else None
      | None => None
      end
  | None => None
  end.

(** [await logAudit(...)] followed by the final redirect.  When the audit
    insert fails the promise rejects inside the callback and no response is
    sent. *)
Definition audit_then (e : env) (n : nat) (act : string) (recordId : Z)
    (r : response) (s : db) : response * db :=
  match run e n (insert_audit_log s (session_user e) act "parking_tickets" recordId) with
  | Ok s' => (r, s')
  | Err _ => (no_response, s)
  end.

(** POST /cashier/check-in *)
Definition post_check_in (e : env) (b : check_in_body) (s : db) : response * db :=
  match slot_id_field b with
  | None => (redirect cashier_check_in "error=Required fields are missing", s)
  | Some slot_id =>
    if falsy (license_plate_field b) || falsy (driver_name_field b) then
      (redirect cashier_check_in "error=Required fields are missing", s)
    else
      let unavailable :=
        (redirect cashier_check_in "error=Selected slot is no longer available", s) in
      match get e 0 (select_slot s slot_id) with
      | Err _ => unavailable
      | Ok None => unavailable
      | Ok (Some sl) =>
        if negb (slot_status_eqb (status sl) vacant) then unavailable
        else
          match run e 1 (insert_or_replace_vehicle s (license_plate_field b)
                           (make_field b) (model_field b) (color_field b)
                           (year_field b) (owner_name_field b)
                           (owner_phone_field b) (owner_email_field b)) with
          | Err _ => (redirect cashier_check_in "error=Failed to register vehicle", s)
          | Ok (s1, vehicleId) =>
            match run e 2 (insert_or_replace_driver s1 (driver_name_field b)
                             (driver_phone_field b) (driver_email_field b)
                             (id_number_field b) (license_number_field b)
                             (address_field b)) with
            | Err _ => (redirect cashier_check_in "error=Failed to register driver", s1)
            | Ok (s2, driverId) =>
              let ticketNumber := date_now e in
              match run e 3 (insert_ticket s2 ticketNumber slot_id vehicleId
                               driverId (session_user e) (current_timestamp e)) with
              | Err _ =>
                  (redirect cashier_check_in "error=Failed to create parking ticket", s2)
              | Ok (s3, ticketId) =>
                let s4 :=
                  match run e 4 (update_slot_status s3 slot_id occupied) with
                  | Ok s4 => s4
                  | Err _ => s3   (* logged only *)
                  end in
                audit_then e 5 "CHECK_IN" ticketId
                  (redirect (cashier_ticket ticketId)
                            "success=Vehicle checked in successfully") s4
              end
            end
          end
      end
  end.

(** GET /cashier/ticket/:id *)
Definition get_ticket (e : env) (id : Z) (s : db) : response :=
  match get e 0 (select_ticket_details s id) with
  | Err _ => render_error 500 "Error" "Failed to load ticket details"
  | Ok None =>
      render_error 404 "Ticket Not Found"
                   "The requested parking ticket does not exist."
  | Ok (Some (pt, ps, v, d)) =>
      let durationHours := diff_hours (moment_now e) (check_in_time pt) in
      let estimatedCost := totalCost durationHours (hourly_rate ps) in
      render "cashier/ticket"
             (page_ticket (pt, ps, v, d) (toFixed (binary64 durationHours) 2)
                          estimatedCost)
  end.

(** GET /cashier/check-out/:id *)
Definition get_check_out (e : env) (id : Z) (s : db) : response :=
  match get e 0 (select_ticket_details s id) with
  | Err _ => render_error 500 "Error" "Failed to load check-out page"
  | Ok None =>
      render_error 404 "Ticket Not Found"
                   "The requested parking ticket does not exist."
  | Ok (Some (pt, ps, v, d)) =>
      if payment_status_eqb (t_payment_status pt) paid then
        redirect cashier_dashboard "error=Ticket is already paid"
      else
        let durationHours := diff_hours (moment_now e) (check_in_time pt) in
        let totalCost := totalCost durationHours (hourly_rate ps) in
        render "cashier/check-out-ticket"
               (page_check_out_ticket (pt, ps, v, d)
                  (toFixed (binary64 durationHours) 2) totalCost)
  end.

(** POST /cashier/check-out/:id *)
Definition post_check_out (e : env) (ticketId : Z) (b : check_out_body) (s : db)
    : response * db :=
  if falsy (payment_method_field b) then
    (redirect (cashier_check_out ticketId) "error=Payment method is required", s)
  else
    match get e 0 (select_ticket_join_slot s ticketId) with
    | Err _ => (redirect (cashier_check_out ticketId) "error=System error occurred", s)
    | Ok None => (redirect cashier_dashboard "error=Ticket not found", s)
    | Ok (Some (ticket, ps)) =>
      let durationHours := diff_hours (moment_now e) (check_in_time ticket) in
      let totalCost := totalCost durationHours (hourly_rate ps) in
      match run e 1 (update_ticket_paid s ticketId (current_timestamp e)
                       durationHours totalCost) with
      | Err _ => (no_response, s)   (* transactionFailed = true; return *)
      | Ok s1 =>
        let receiptNumber := date_now e in
        match run e 2 (insert_payment s1 ticketId totalCost
                         (payment_method_field b) (reference_number_field b)
                         (session_user e) receiptNumber (notes_field b)) with
        | Err _ =>
            (redirect (cashier_check_out ticketId)
                      "error=Failed to create payment record", s1)
        | Ok (s2, _) =>
          let s3 :=
            match run e 3 (update_slot_status s2 (slot_id ps) vacant) with
            | Ok s3 => s3
            | Err _ => s2   (* "Don't fail the transaction for slot status update" *)
            end in
          audit_then e 4 "CHECK_OUT" ticketId
            (redirect (cashier_receipt ticketId)
                      "success=Vehicle checked out successfully") s3
        end
      end
    end.

Definition contact_administrator : response :=
  render_error 404 "Payment Record Missing"
    "Payment record not found and could not be recovered. Please contact system administrator.".

(** The amount of the recovery payment: the stored [total_amount], or, when
    it is zero or absent, the amount recomputed from the slot's rate and the
    two timestamps, or else the default amount 5. *)
Definition recovery_amount (e : env) (ticketId : Z) (ticket : ticket) (s : db)
    : result Q :=
  if amount_missing (total_amount ticket) then
    match get e 2 (select_ticket_join_slot s ticketId) with
    | Err x => Err x
    | Ok slotInfo =>
        match slotInfo, check_out_time ticket with
        | Some (_, ps), Some checkOutTime =>
            let durationHours := diff_hours checkOutTime (check_in_time ticket) in
            Ok (totalCost durationHours (hourly_rate ps))
        | _, _ => Ok 5%Q   (* "Default amount if calculation fails" *)
        end
    end
  else Ok (to_number (total_amount ticket)).

(** The end of GET /cashier/receipt/:id: the receipt join and the page. *)
Definition render_receipt (e : env) (ticketId : Z) (s : db) : response * db :=
  match get e 4 (select_receipt s ticketId) with
  | Err _ => (render_error 500 "Error" "Failed to load receipt", s)
  | Ok None =>
      (render_error 404 "Receipt Not Found"
         "The requested receipt does not exist. Payment record may be missing.", s)
  | Ok (Some row) => (render "cashier/receipt" (page_receipt row), s)
  end.

(** GET /cashier/receipt/:id, with the recovery of a missing payment row. *)
Definition get_receipt (e : env) (ticketId : Z) (s : db) : response * db :=
  match get e 0 (select_ticket s ticketId) with
  | Err _ => (render_error 500 "Error" "Failed to load receipt", s)
  | Ok None =>
      (render_error 404 "Ticket Not Found"
         "The requested parking ticket does not exist.", s)
  | Ok (Some ticket) =>
    if negb (payment_status_eqb (t_payment_status ticket) paid) then
      (render_error 400 "Payment Required"
         "This ticket has not been paid yet. Please process payment first.", s)
    else
      match get e 1 (select_payment s ticketId) with
      | Err _ => (render_error 500 "Error" "Failed to load receipt", s)
      | Ok (Some _) => render_receipt e ticketId s
      | Ok None =>
        let recoveryReceiptNumber := date_now e in
        match recovery_amount e ticketId ticket s with
        | Err _ => (contact_administrator, s)
        | Ok paymentAmount =>
          match run e 3 (insert_payment s ticketId paymentAmount "cash" "RECOVERY"
                           (session_user e) recoveryReceiptNumber
                           "Payment record recovered automatically") with
          | Err _ => (contact_administrator, s)
          | Ok (s1, _) => render_receipt e ticketId s1
          end
        end
      end
  end.

(** POST /cashier/shift/open *)
Definition post_shift_open (e : env) (b : shift_open_body) (s : db)
    : response * db :=
  match run e 0 (insert_shift s (session_user e) (date_today e)
                   (current_timestamp e) (to_number (opening_amount_field b))
                   (shift_notes_field b)) with
  | Err _ => (redirect cashier_shift_open "error=Failed to open shift", s)
  | Ok (s1, lastID) =>
      match run e 1 (insert_audit_log s1 (session_user e) "OPEN_SHIFT" "shifts" lastID) with
      | Ok s2 => (redirect cashier_dashboard "success=Shift opened successfully", s2)
      | Err _ => (no_response, s1)
      end
  end.

End Cashier.

(** ** JSON API (routes/api.js) *)

Module Api.
Import Schema Sql Billing Http.

(** GET /api/tickets/:id/checkout *)
Definition get_tickets_checkout (e : env) (id : Z) (s : db) : response :=
  match get e 0 (Cashier.select_ticket_details s id) with
  | Err _ => json_error 500 "Failed to fetch ticket details"
  | Ok None => json_error 404 "Ticket not found"
  | Ok (Some (pt, ps, v, d)) =>
      let durationHours := diff_hours (date_now e) (check_in_time pt) in
      let totalCost := totalCost durationHours (hourly_rate ps) in
      json_ticket (pt, ps, v, d) (toFixed (binary64 durationHours) 2) totalCost
  end.

End Api.

(** ** Vocabulary of the lifecycle properties and sample data *)

Module Lifecycle.
Import Schema Sql Billing Http Cashier.

(** The Payment rows of a ticket. *)
Definition payments_of (s : db) (ticketId : Z) : list payment :=
  filter (fun p => p_ticket_id p =? ticketId) (payments s).


(** The tickets that reference a slot with [check_out_time] NULL. *)
Definition open_tickets (s : db) (slotId : Z) : list ticket :=
  filter (fun t => (t_slot_id t =? slotId)
                   && match check_out_time t with None => true | Some _ => false end)
         (parking_tickets s).

(** A slot is occupied if and only if exactly one open ticket references it. *)
Definition slot_invariantb (s : db) : bool :=
  forallb (fun sl =>
             Bool.eqb (slot_status_eqb (status sl) occupied)
                      (Nat.eqb (List.length (open_tickets s (slot_id sl))) 1))
          (parking_slots s).

Definition slot_invariant (s : db) : Prop :=
  forall sl, In sl (parking_slots s) ->
             (status sl = occupied <-> List.length (open_tickets s (slot_id sl)) = 1%nat).

(** The outcomes of the routes. *)
Definition checked_in (ticketId : Z) : response :=
  redirect (cashier_ticket ticketId) "success=Vehicle checked in successfully".
Definition checked_out (ticketId : Z) : response :=
  redirect (cashier_receipt ticketId) "success=Vehicle checked out successfully".
Definition slot_unavailable : response :=
  redirect cashier_check_in "error=Selected slot is no longer available".
Definition validation_error : response :=
  redirect cashier_check_in "error=Required fields are missing".
Definition vehicle_rejected : response :=
  redirect cashier_check_in "error=Failed to register vehicle".
Definition payment_failed (ticketId : Z) : response :=
  redirect (cashier_check_out ticketId) "error=Failed to create payment record".
Definition shift_opened : response :=
  redirect cashier_dashboard "success=Shift opened successfully".

Definition is_receipt (r : response) : Prop :=
  exists row, r = render "cashier/receipt" (page_receipt row).

Definition required_fields_missing (b : check_in_body) : bool :=
  match slot_id_field b with
  | None => true
  | Some _ => falsy (license_plate_field b) || falsy (driver_name_field b)
  end.

(** Sample data: the database as [initDatabase] leaves it (foreign keys on,
    one cashier with id 2, slot A01 at the default rate 5.00). *)
Definition slot_A01 (st : slot_status) : slot :=
  {| slot_id := 1; slot_number := "A01"; status := st; hourly_rate := Some 5%Q |}.

Definition fresh_db : db :=
  {| foreign_keys := true; users := [1; 2];
     parking_slots := [slot_A01 vacant];
     vehicles := []; vehicles_seq := 0;
     drivers := []; drivers_seq := 0;
     parking_tickets := []; parking_tickets_seq := 0;
     payments := []; payments_seq := 0;
     shifts := []; shifts_seq := 0;
     audit_logs := [] |}.

(** A request of cashier 2 at the instant [t] on a server in UTC, without
    storage errors. *)
Definition at_time (t : Z) : env := server 0 2 (fun _ => false) t.

(** The same with a storage error at statement [n]. *)
Definition failing_at (n : nat) (t : Z) : env := server 0 2 (Nat.eqb n) t.

Definition arrival (plate : string) : check_in_body :=
  {| slot_id_field := Some 1; license_plate_field := plate;
     make_field := "Toyota"; model_field := "Corolla"; color_field := "white";
     year_field := "2020"; owner_name_field := "A. Owner";
     owner_phone_field := "555"; owner_email_field := "";
     driver_name_field := "D. Driver"; driver_phone_field := "555";
     driver_email_field := ""; id_number_field := "ID1";
     license_number_field := "L1"; address_field := "" |}.

Definition pay (method : string) : check_out_body :=
  {| payment_method_field := method; reference_number_field := "";
     notes_field := "" |}.

(** The database after one check-in into A01 at time 1000. *)
Definition parked_db : db := snd (post_check_in (at_time 1000) (arrival "ABC123") fresh_db).

(** The row written by the check-out UPDATE. *)
Definition paid_row (t : ticket) (ts : Z) (dur total : Q) : ticket :=
  {| ticket_id := ticket_id t; ticket_number := ticket_number t;
     t_slot_id := t_slot_id t; t_vehicle_id := t_vehicle_id t;
     t_driver_id := t_driver_id t; t_cashier_id := t_cashier_id t;
     check_in_time := check_in_time t;
     check_out_time := Some ts; duration_hours := Some dur;
     total_amount := Some total; t_payment_status := paid |}.

(** The requests of the lifecycle, each with the environment it runs in. *)
Inductive request :=
| CheckIn (e : env) (b : check_in_body)
| CheckOut (e : env) (ticketId : Z) (b : check_out_body)
| Receipt (e : env) (ticketId : Z)
| ShiftOpen (e : env) (b : shift_open_body).

Definition step (q : request) (s : db) : response * db :=
  match q with
  | CheckIn e b => post_check_in e b s
  | CheckOut e id b => post_check_out e id b s
  | Receipt e id => get_receipt e id s
  | ShiftOpen e b => post_shift_open e b s
  end.

(** The requests run one after the other: the responses and the final
    database. *)
Fixpoint exec (qs : list request) (s : db) : list response * db :=
  match qs with
  | [] => ([], s)
  | q :: qs' =>
      let '(r, s1) := step q s in
      let '(rs, s2) := exec qs' s1 in
      (r :: rs, s2)
  end.

(** The database after the parked vehicle of [parked_db] has checked out
    and paid cash, 1 h 12 min after its arrival. *)
Definition settled_db : db :=
  snd (post_check_out (at_time 4321000) 1 (pay "cash") parked_db).

(** A vehicle leaves, another one takes the slot, and the check-out form of
    the first ticket is submitted a second time. *)
Definition resubmitted_check_out : list request :=
  [ CheckIn (at_time 1000) (arrival "ABC123");
    CheckOut (at_time 4321000) 1 (pay "cash");
    CheckIn (at_time 5000000) (arrival "XYZ789");
    CheckOut (at_time 6000000) 1 (pay "cash") ].

(** The shift is opened twice on the same day. *)
Definition opening : shift_open_body :=
  {| opening_amount_field := Some 100%Q; shift_notes_field := "" |}.

Definition shift_opened_twice : list request :=
  [ ShiftOpen (at_time 1000) opening; ShiftOpen (at_time 2000) opening ].

(** A check-out whose Payment insert was rejected: ticket 1 is paid and has
    no Payment row. *)
Definition unpaid_db : db :=
  snd (post_check_out (at_time 4321000) 1 (pay "bitcoin") parked_db).

(** A paid ticket without Payment row, stored amount and check-out time. *)
Definition orphan_db : db :=
  set_parking_tickets parked_db
    [ {| ticket_id := 1; ticket_number := 1000; t_slot_id := 1;
         t_vehicle_id := 1; t_driver_id := 1; t_cashier_id := 2;
         check_in_time := 1000; check_out_time := None;
         duration_hours := None; total_amount := None;
         t_payment_status := paid |} ]
    1.

(** The Payment row written by the recovery path. *)
Definition recovery_payment (e : env) (pid ticketId : Z) (amt : Q) : payment :=
  {| payment_id := pid; p_ticket_id := ticketId; amount := amt;
     payment_method := "cash"; reference_number := "RECOVERY";
     p_cashier_id := session_user e; receipt_number := date_now e;
     p_notes := "Payment record recovered automatically" |}.

(** The same database on a connection without [PRAGMA foreign_keys = ON]. *)
Definition without_foreign_keys (s : db) : db :=
  {| foreign_keys := false; users := users s;
     parking_slots := parking_slots s;
     vehicles := vehicles s; vehicles_seq := vehicles_seq s;
     drivers := drivers s; drivers_seq := drivers_seq s;
     parking_tickets := parking_tickets s;
     parking_tickets_seq := parking_tickets_seq s;
     payments := payments s; payments_seq := payments_seq s;
     shifts := shifts s; shifts_seq := shifts_seq s;
     audit_logs := audit_logs s |}.

(** The vehicle row a check-in writes. *)
Definition vehicle_row (id : Z) (b : check_in_body) : vehicle :=
  {| vehicle_id := id; license_plate := license_plate_field b;
     make := make_field b; model := model_field b; color := color_field b;
     year := year_field b; owner_name := owner_name_field b;
     owner_phone := owner_phone_field b; owner_email := owner_email_field b |}.

(** The inductive form of the occupancy invariant: an occupied slot has
    exactly one open ticket, any other slot has none. *)
Definition occupancy (s : db) : Prop :=
  forall sl, In sl (parking_slots s) ->
    (status sl = occupied /\ List.length (open_tickets s (slot_id sl)) = 1%nat)
    \/ (status sl <> occupied /\ List.length (open_tickets s (slot_id sl)) = 0%nat).

(** [id INTEGER PRIMARY KEY] of parking_tickets. *)
Definition unique_ticket_ids (s : db) : Prop :=
  NoDup (map ticket_id (parking_tickets s)).

(** A request of an orderly run: a check-in or a check-out that goes
    through with its slot update, the check-out being that of a ticket
    still open; receipts and shift openings are unrestricted. *)
Definition orderly (q : request) (s : db) : Prop :=
  match q with
  | CheckIn e b =>
      io_err e 4 = false /\ exists tid, fst (post_check_in e b s) = checked_in tid
  | CheckOut e id b =>
      io_err e 3 = false
      /\ fst (post_check_out e id b s) = checked_out id
      /\ exists t, select_ticket s id = Some t /\ check_out_time t = None
  | Receipt _ _ => True
  | ShiftOpen _ _ => True
  end.

Fixpoint orderly_run (qs : list request) (s : db) : Prop :=
  match qs with
  | [] => True
  | q :: qs' => orderly q s /\ orderly_run qs' (snd (step q s))
  end.

End Lifecycle.

(** ** Slot status override of the JSON API (routes/api.js) *)

Module ApiSlots.
Import Schema Sql Http.

(** The JSON answers of PUT /api/slots/:id/status. *)
Inductive api_response :=
| api_error (code : Z) (error : string)
| api_success (message : string)
| api_no_response.

(** [["vacant", "occupied", "reserved", "out_of_service"].includes(status)] *)
Definition slot_status_of_string (x : string) : option slot_status :=
  if (x =? "vacant")%string then Some vacant
  else if (x =? "occupied")%string then Some occupied
  else if (x =? "reserved")%string then Some reserved
  else if (x =? "out_of_service")%string then Some out_of_service
  else None.

(** PUT /api/slots/:id/status *)
Definition put_slot_status (e : env) (slotId : Z) (status_field : string) (s : db)
    : api_response * db :=
  match slot_status_of_string status_field with
  | None => (api_error 400 "Invalid status", s)
  | Some st =>
    match get e 0 (select_slot s slotId) with
    | Err _ => (api_error 500 "Failed to update slot status", s)
    | Ok None => (api_error 404 "Slot not found", s)
    | Ok (Some oldSlot) =>
      match run e 1 (update_slot_status s slotId st) with
      | Err _ => (api_error 500 "Failed to update slot status", s)
      | Ok s1 =>
        match run e 2 (insert_audit_log s1 (session_user e) "UPDATE_SLOT_STATUS"
                         "parking_slots" slotId) with
        | Ok s2 => (api_success "Slot status updated successfully", s2)
        | Err _ => (api_no_response, s1)
        end
      end
    end
  end.

End ApiSlots.

(** ** Shift-open page (routes/cashier.js) *)

Module ShiftPage.
Import Schema Sql Http.

(** What GET /cashier/shift/open renders: the page with [currentShift], or
    the error page when the query fails. *)
Inductive shift_page :=
| shift_open_page (currentShift : option shift)
| shift_page_error.

(** GET /cashier/shift/open: [db.get] of the open shifts of the cashier for
    today. *)
Definition get_shift_open (e : env) (s : db) : shift_page :=
  match get e 0 (hd_error (open_shifts s (session_user e) (date_today e))) with
  | Err _ => shift_page_error
  | Ok currentShift => shift_open_page currentShift
  end.

End ShiftPage.

(** ** Vocabulary of the further properties *)

Module Coverage.
Import Schema Sql Billing Http Cashier Lifecycle ApiSlots.

(** [l'] is [l] with rows added at its end. *)
Definition extends {A : Type} (l l' : list A) : Prop :=
  exists added, l' = l ++ added.

(** The audit record a cashier route writes. *)
Definition audit_record (e : env) (act tbl : string) (recordId : Z) : audit_log :=
  {| a_user_id := session_user e; action := act; table_name := tbl;
     record_id := recordId |}.

(** The ticket row a check-in writes. *)
Definition ticket_row (e : env) (tid slotId vid did : Z) : ticket :=
  {| ticket_id := tid; ticket_number := date_now e; t_slot_id := slotId;
     t_vehicle_id := vid; t_driver_id := did; t_cashier_id := session_user e;
     check_in_time := current_timestamp e; check_out_time := None;
     duration_hours := None; total_amount := None;
     t_payment_status := pending |}.

(** The driver row a check-in writes. *)
Definition driver_row (id : Z) (b : check_in_body) : driver :=
  {| driver_id := id; full_name := driver_name_field b;
     phone := driver_phone_field b; email := driver_email_field b;
     id_number := id_number_field b; license_number := license_number_field b;
     address := address_field b |}.

(** The Payment row a check-out writes. *)
Definition payment_row (e : env) (pid ticketId : Z) (amt : Q) (b : check_out_body)
    : payment :=
  {| payment_id := pid; p_ticket_id := ticketId; amount := amt;
     payment_method := payment_method_field b;
     reference_number := reference_number_field b;
     p_cashier_id := session_user e; receipt_number := date_now e;
     p_notes := notes_field b |}.

(** The shift row an opening writes. *)
Definition shift_row (e : env) (id : Z) (b : shift_open_body) : shift :=
  {| shift_id := id; s_cashier_id := session_user e; shift_date := date_today e;
     open_time := current_timestamp e;
     opening_amount := to_number (opening_amount_field b);
     s_status := open; s_notes := shift_notes_field b |}.

(** A slot row with another status. *)
Definition with_status (r : slot) (st : slot_status) : slot :=
  {| slot_id := slot_id r; slot_number := slot_number r; status := st;
     hourly_rate := hourly_rate r |}.

(** Every reference of a ticket or a payment resolves: the rows the foreign
    keys of parking_tickets and payments point to exist. *)
Definition references_ok (s : db) : Prop :=
  (forall t, In t (parking_tickets s) ->
     has_slot s (t_slot_id t) = true /\ has_vehicle s (t_vehicle_id t) = true
     /\ has_driver s (t_driver_id t) = true /\ has_user s (t_cashier_id t) = true)
  /\ (forall p, In p (payments s) ->
        has_ticket s (p_ticket_id p) = true /\ has_user s (p_cashier_id p) = true).

(** The columns of a ticket that are written once, at its check-in. *)
Definition ticket_identity (t : ticket) : Z * Z * Z * Z * Z * Z * Z :=
  (ticket_id t, ticket_number t, t_slot_id t, t_vehicle_id t, t_driver_id t,
   t_cashier_id t, check_in_time t).

(** The columns of a slot other than its status. *)
Definition slot_identity (r : slot) : Z * string * option Q :=
  (slot_id r, slot_number r, hourly_rate r).

(** [s'] holds everything [s] recorded: payments, drivers, shifts and audit
    records are kept as they are, possibly followed by new ones; tickets
    keep their check-in columns; slots keep everything but their status;
    the users and the foreign-key setting are the same. *)
Definition grows (s s' : db) : Prop :=
  extends (payments s) (payments s')
  /\ extends (map ticket_identity (parking_tickets s))
             (map ticket_identity (parking_tickets s'))
  /\ map slot_identity (parking_slots s') = map slot_identity (parking_slots s)
  /\ extends (drivers s) (drivers s')
  /\ extends (shifts s) (shifts s')
  /\ extends (audit_logs s) (audit_logs s')
  /\ users s' = users s
  /\ foreign_keys s' = foreign_keys s.

(** The name of a status in the requests of the JSON API. *)
Definition slot_status_name (st : slot_status) : string :=
  match st with
  | vacant => "vacant"
  | occupied => "occupied"
  | reserved => "reserved"
  | out_of_service => "out_of_service"
  end.

(** The ticket of [parked_db]. *)
Definition parked_ticket : ticket :=
  {| ticket_id := 1; ticket_number := 1000; t_slot_id := 1;
     t_vehicle_id := 1; t_driver_id := 1; t_cashier_id := 2;
     check_in_time := 1000; check_out_time := None;
     duration_hours := None; total_amount := None;
     t_payment_status := pending |}.

(** A paid ticket whose stored amount is zero and whose Payment row is
    missing: the immediate check-out of [parked_db] with its Payment rows
    removed. *)
Definition zero_amount_db : db :=
  set_payments (snd (post_check_out (at_time 1000) 1 (pay "cash") parked_db)) [] 1.

(** Slot A01 after an edit of the slot that left its hourly rate empty
    (the slot form of the administration writes [hourly_rate = ?] with the
    field as submitted). *)
Definition unrated_db : db :=
  set_parking_slots fresh_db
    [ {| slot_id := 1; slot_number := "A01"; status := vacant;
         hourly_rate := None |} ].

(** A vehicle parks on the slot without rate and its check-out names a
    payment method the payments table rejects. *)
Definition unrated_stay : list request :=
  [ CheckIn (at_time 1000) (arrival "ABC123");
    CheckOut (at_time 4321000) 1 (pay "bitcoin") ].

(** The offset of a server five hours west of UTC. *)
Definition new_york : Z := -18000000.

(** The database after one check-in into A01 at the instant 1000 on such a
    server. *)
Definition parked_in_new_york : db :=
  snd (post_check_in (server new_york 2 (fun _ => false) 1000)
         (arrival "ABC123") fresh_db).

End Coverage.

(** ** Effects of the statements on each table *)

Module Frames.
Import Schema Sql Billing Http Cashier Lifecycle.

(** A branch in which the handler answers at once: the pair it returns
    fixes the response and the database. *)
Ltac answered :=
  let H := fresh "H" in intros H; inversion H; subst; clear H; auto.

Lemma find_map_same {A : Type} (p : A -> bool) (f : A -> A) (l : list A) :
  (forall x, p (f x) = p x) ->
  find p (map f l) = option_map f (find p l).
Proof.
  intros Hp. induction l as [|a l IH]; simpl; [reflexivity|].
  rewrite Hp. destruct (p a); [reflexivity | exact IH].
Qed.

Lemma find_app_some {A : Type} (p : A -> bool) (l l' : list A) (x : A) :
  find p l = Some x -> find p (l ++ l') = Some x.
Proof.
  induction l as [|a l IH]; simpl; [discriminate|].
  destruct (p a); [trivial | exact IH].
Qed.

Lemma find_app_none {A : Type} (p : A -> bool) (l l' : list A) :
  find p l = None -> find p (l ++ l') = find p l'.
Proof.
  induction l as [|a l IH]; simpl; [reflexivity|].
  destruct (p a); [discriminate | exact IH].
Qed.

Lemma update_ticket_paid_tickets s id ts dur total s1 :
  update_ticket_paid s id ts dur total = Ok s1 ->
  parking_tickets s1
  = map (fun t => if ticket_id t =? id then paid_row t ts dur total else t)
        (parking_tickets s)
  /\ payments s1 = payments s /\ parking_slots s1 = parking_slots s
  /\ users s1 = users s /\ foreign_keys s1 = foreign_keys s
  /\ payments_seq s1 = payments_seq s /\ audit_logs s1 = audit_logs s.
Proof.
  unfold update_ticket_paid. intros H. inversion H; subst; clear H.
  simpl. repeat split; reflexivity.
Qed.

Lemma select_ticket_paid s id ts dur total s1 t :
  update_ticket_paid s id ts dur total = Ok s1 ->
  select_ticket s id = Some t ->
  select_ticket s1 id = Some (paid_row t ts dur total).
Proof.
  intros H Ht. apply update_ticket_paid_tickets in H as [H _].
  unfold select_ticket in *. rewrite H.
  rewrite find_map_same.
  - rewrite Ht. simpl.
    apply find_some in Ht as [_ Hid]. rewrite Hid. reflexivity.
  - intros x. destruct (ticket_id x =? id) eqn:E; simpl; rewrite ?E; reflexivity.
Qed.

Lemma insert_payment_rows s id amt m ref c rn notes s2 pid :
  insert_payment s id amt m ref c rn notes = Ok (s2, pid) ->
  payments s2
  = payments s ++ [ {| payment_id := pid; p_ticket_id := id; amount := amt;
                       payment_method := m; reference_number := ref;
                       p_cashier_id := c; receipt_number := rn;
                       p_notes := notes |} ]
  /\ parking_tickets s2 = parking_tickets s
  /\ parking_slots s2 = parking_slots s
  /\ payment_method_check m = true.
Proof.
  unfold insert_payment.
  destruct (payment_method_check m); simpl; [|discriminate].
  destruct (existsb _ (payments s)); [discriminate|].
  destruct (fk_ok s _); [|discriminate].
  intros H. inversion H; subst; clear H. simpl. repeat split; reflexivity.
Qed.

Lemma update_slot_status_rows s id st s3 :
  update_slot_status s id st = Ok s3 ->
  parking_tickets s3 = parking_tickets s /\ payments s3 = payments s
  /\ vehicles s3 = vehicles s
  /\ parking_slots s3
     = map (fun r => if slot_id r =? id then
                       {| slot_id := slot_id r; slot_number := slot_number r;
                          status := st; hourly_rate := hourly_rate r |}
                     else r) (parking_slots s).
Proof.
  unfold update_slot_status. intros H. inversion H; subst; clear H.
  simpl. repeat split; reflexivity.
Qed.

Lemma insert_audit_log_rows s u a tb rid s' :
  insert_audit_log s u a tb rid = Ok s' ->
  parking_tickets s' = parking_tickets s /\ payments s' = payments s
  /\ parking_slots s' = parking_slots s /\ vehicles s' = vehicles s
  /\ shifts s' = shifts s.
Proof.
  unfold insert_audit_log. destruct (fk_ok s _); [|discriminate].
  intros H. inversion H; subst; clear H. simpl. repeat split; reflexivity.
Qed.

Lemma audit_then_rows e n a rid r0 s r s' :
  audit_then e n a rid r0 s = (r, s') ->
  parking_tickets s' = parking_tickets s /\ payments s' = payments s
  /\ parking_slots s' = parking_slots s /\ vehicles s' = vehicles s
  /\ (r = r0 \/ r = no_response).
Proof.
  unfold audit_then, run.
  destruct (io_err e n).
  - intros H; inversion H; subst. repeat split; auto.
  - destruct (insert_audit_log _ _ _ _ _) as [s4|x] eqn:E.
    + intros H; inversion H; subst.
      apply insert_audit_log_rows in E as (H1 & H2 & H3 & H4 & _).
      repeat split; auto.
    + intros H; inversion H; subst. repeat split; auto.
Qed.


End Frames.

(** ** Check-out: settlement and billing *)

Module Settlement.
Import Schema Sql Billing Http Cashier Lifecycle Frames.

(** The statements a check-out has run when it answers with the receipt
    redirect. *)
Lemma post_check_out_success e id b s t ps s' :
  select_ticket_join_slot s id = Some (t, ps) ->
  post_check_out e id b s = (checked_out id, s') ->
  exists s1 s2 pid s3,
    update_ticket_paid s id (current_timestamp e)
      (diff_hours (moment_now e) (check_in_time t))
      (totalCost (diff_hours (moment_now e) (check_in_time t)) (hourly_rate ps))
    = Ok s1
    /\ insert_payment s1 id
         (totalCost (diff_hours (moment_now e) (check_in_time t)) (hourly_rate ps))
         (payment_method_field b) (reference_number_field b)
         (session_user e) (date_now e) (notes_field b) = Ok (s2, pid)
    /\ ((io_err e 3 = true /\ s3 = s2)
        \/ (io_err e 3 = false
            /\ update_slot_status s2 (slot_id ps) vacant = Ok s3))
    /\ audit_then e 4 "CHECK_OUT" id (checked_out id) s3 = (checked_out id, s').
Proof.
  intros Hsel. unfold post_check_out, get, run, checked_out.
  destruct (falsy (payment_method_field b)); [discriminate|].
  destruct (io_err e 0); [discriminate|].
  rewrite Hsel.
  destruct (io_err e 1); [discriminate|].
  destruct (update_ticket_paid _ _ _ _ _) as [s1|x] eqn:E1; [|discriminate].
  destruct (io_err e 2); [discriminate|].
  destruct (insert_payment _ _ _ _ _ _ _ _) as [[s2 pid]|x] eqn:E2; [|discriminate].
  intros H.
  destruct (io_err e 3) eqn:E3.
  - exists s1, s2, pid, s2. repeat split; auto.
  - destruct (update_slot_status s2 (slot_id ps) vacant) as [s3|x] eqn:E4.
    + exists s1, s2, pid, s3. repeat split; auto.
    + discriminate E4.
Qed.

(** What a successful check-out leaves in the tickets and payments tables. *)
Lemma post_check_out_written e id b s t ps s' :
  select_ticket_join_slot s id = Some (t, ps) ->
  post_check_out e id b s = (checked_out id, s') ->
  select_ticket s' id
  = Some (paid_row t (current_timestamp e)
            (diff_hours (moment_now e) (check_in_time t))
            (totalCost (diff_hours (moment_now e) (check_in_time t)) (hourly_rate ps)))
  /\ exists pid,
      payments s'
      = payments s ++
        [ {| payment_id := pid; p_ticket_id := id;
             amount := totalCost (diff_hours (moment_now e) (check_in_time t))
                                 (hourly_rate ps);
             payment_method := payment_method_field b;
             reference_number := reference_number_field b;
             p_cashier_id := session_user e; receipt_number := date_now e;
             p_notes := notes_field b |} ].
Proof.
  intros Hsel Hrun.
  destruct (post_check_out_success _ _ _ _ _ _ _ Hsel Hrun)
    as (s1 & s2 & pid & s3 & H1 & H2 & H3 & H4).
  assert (Ht : select_ticket s id = Some t).
  { unfold select_ticket_join_slot in Hsel.
    destruct (select_ticket s id) as [t0|]; [|discriminate].
    destruct (select_slot s (t_slot_id t0)); [|discriminate].
    inversion Hsel; reflexivity. }
  pose proof (select_ticket_paid _ _ _ _ _ _ _ H1 Ht) as Ht1.
  apply update_ticket_paid_tickets in H1 as (_ & Hp1 & _).
  apply insert_payment_rows in H2 as (Hp2 & Ht2 & _).
  apply audit_then_rows in H4 as (Ht4 & Hp4 & _).
  assert (Ht3 : parking_tickets s3 = parking_tickets s2
                /\ payments s3 = payments s2).
  { destruct H3 as [[_ ->]|[_ H3]]; [split; reflexivity|].
    apply update_slot_status_rows in H3 as (A & B & _). split; assumption. }
  destruct Ht3 as [Ht3 Hp3].
  split.
  - unfold select_ticket in *. rewrite Ht4, Ht3, Ht2. exact Ht1.
  - exists pid. rewrite Hp4, Hp3, Hp2, Hp1. reflexivity.
Qed.

(** C3 (counterexample). A vehicle parked at 5.00 per hour checks out at the
    very instant of its check-in, a whole second on a server in UTC: the
    check-out goes through and bills 0, not one hour's rate. *)
Lemma immediate_check_out_is_free :
  let e := at_time 1000 in
  let '(r, s') := post_check_out e 1 (pay "cash") parked_db in
  option_map (fun t => diff_hours (moment_now e) (check_in_time t))
             (select_ticket parked_db 1) = Some (0 # 3600000)
  /\ option_map hourly_rate (select_slot parked_db 1) = Some (Some 5%Q)
  /\ r = checked_out 1
  /\ option_map total_amount (select_ticket s' 1) = Some (Some 0%Q)
  /\ map amount (payments s') = [0%Q]
  /\ ~ (0 == 1 * 5)%Q.
Proof.
  vm_compute. repeat split; discriminate.
Qed.

Lemma join_slot_parts s id t ps :
  select_ticket_join_slot s id = Some (t, ps) ->
  select_ticket s id = Some t /\ select_slot s (slot_id ps) = Some ps.
Proof.
  unfold select_ticket_join_slot. intros H.
  destruct (select_ticket s id) as [t0|]; [|discriminate].
  destruct (select_slot s (t_slot_id t0)) as [ps0|] eqn:E; [|discriminate].
  inversion H; subst. split; [reflexivity|].
  pose proof E as E'. apply find_some in E' as [_ Hid].
  apply Z.eqb_eq in Hid. rewrite Hid. exact E.
Qed.





(** C4 (the code at the failing input). The check-out of a ticket that is
    already paid is not refused: it goes through a second time and inserts a
    second Payment row for the ticket, whereas the check-out page of the
    same ticket answers that the ticket is already paid. *)
Theorem check_out_of_paid_ticket_goes_through :
  option_map t_payment_status (select_ticket settled_db 1) = Some paid
  /\ List.length (payments_of settled_db 1) = 1%nat
  /\ get_check_out (at_time 9000000) 1 settled_db
     = redirect cashier_dashboard "error=Ticket is already paid"
  /\ fst (post_check_out (at_time 9000000) 1 (pay "cash") settled_db)
     = checked_out 1
  /\ List.length
       (payments_of (snd (post_check_out (at_time 9000000) 1 (pay "cash") settled_db)) 1)
     = 2%nat.
Proof.
  vm_compute. repeat split.
Qed.

Lemma payment_method_not_falsy (m : string) :
  payment_method_check m = true -> falsy m = false.
Proof.
  unfold falsy. destruct (m =? "")%string eqn:E; [|reflexivity].
  apply String.eqb_eq in E. subst m. discriminate.
Qed.

Lemma has_ticket_selected s id t :
  select_ticket s id = Some t -> has_ticket s id = true.
Proof.
  unfold select_ticket, has_ticket. intros H. apply find_some in H as [Hin Hid].
  apply existsb_exists. exists t. split; assumption.
Qed.

Lemma existsb_map_same {A : Type} (p : A -> bool) (f : A -> A) (l : list A) :
  (forall x, p (f x) = p x) -> existsb p (map f l) = existsb p l.
Proof.
  intros H. induction l as [|a l IH]; simpl; [reflexivity|].
  rewrite H, IH. reflexivity.
Qed.

(** The conditions under which a check-out goes through: the ticket is
    found with its slot, no statement meets a storage error, the payment
    method is one the payments table accepts, the receipt number of this
    millisecond is not in use and, under foreign keys, the cashier is a known
    user. *)
Lemma post_check_out_goes_through e id b s t ps :
  (forall n, io_err e n = false) ->
  select_ticket_join_slot s id = Some (t, ps) ->
  payment_method_check (payment_method_field b) = true ->
  existsb (fun p => receipt_number p =? date_now e) (payments s) = false ->
  fk_ok s (has_user s (session_user e)) = true ->
  exists s', post_check_out e id b s = (checked_out id, s').
Proof.
  intros Hio Hsel Hpm Hrn Hfk.
  destruct (join_slot_parts _ _ _ _ Hsel) as [Ht _].
  apply has_ticket_selected in Ht.
  unfold post_check_out, get, run.
  rewrite (payment_method_not_falsy _ Hpm), !Hio, Hsel.
  unfold update_ticket_paid, insert_payment. rewrite Hpm. simpl negb. cbv iota.
  simpl payments. rewrite Hrn.
  match goal with
  | |- context [fk_ok ?s1 ?c] =>
      assert (F : fk_ok s1 c = true)
  end.
  { unfold fk_ok, has_ticket, has_user in *. simpl.
    destruct (foreign_keys s); [|reflexivity]. simpl in *.
    rewrite Hfk, andb_true_r.
    rewrite existsb_map_same; [exact Ht|].
    intros x. destruct (ticket_id x =? id) eqn:E; simpl; rewrite ?E; reflexivity. }
  rewrite F. unfold update_slot_status, audit_then, run. rewrite Hio.
  unfold insert_audit_log.
  match goal with
  | |- context [fk_ok ?s3 ?c] =>
      assert (G : fk_ok s3 c = true) by exact Hfk
  end.
  rewrite G. eexists. reflexivity.
Qed.

End Settlement.

(** ** Receipt and recovery of a missing Payment row *)

Module Recovery.
Import Schema Sql Billing Http Cashier Lifecycle Coverage Frames.

Lemma render_receipt_db e id s r s' :
  render_receipt e id s = (r, s') -> s' = s.
Proof.
  unfold render_receipt, get. destruct (io_err e 4).
  - intros H; inversion H; reflexivity.
  - destruct (select_receipt s id); intros H; inversion H; reflexivity.
Qed.

Lemma render_receipt_not_contact e id s r s' :
  render_receipt e id s = (r, s') -> r <> contact_administrator.
Proof.
  unfold render_receipt, get, contact_administrator. destruct (io_err e 4).
  - intros H; inversion H; discriminate.
  - destruct (select_receipt s id); intros H; inversion H; discriminate.
Qed.

Lemma render_receipt_payment e id s r s' :
  render_receipt e id s = (r, s') -> is_receipt r -> select_payment s id <> None.
Proof.
  unfold render_receipt, get, is_receipt. destruct (io_err e 4).
  - intros H [row Hr]; inversion H; subst; discriminate.
  - destruct (select_receipt s id) as [row0|] eqn:E.
    + intros _ _. unfold select_receipt in E.
      destruct (select_ticket_details s id) as [[[[pt ps] v] d]|]; [|discriminate].
      destruct (select_payment s id); [discriminate | discriminate E].
    + intros H [row Hr]; inversion H; subst; discriminate.
Qed.

(** The only write of the receipt route: one recovery row, and only when
    the existence check found no Payment row for the ticket. *)
Lemma get_receipt_effect e id s r s' :
  get_receipt e id s = (r, s') ->
  s' = s
  \/ (select_payment s id = None
      /\ exists pid amt,
          payments s' = payments s ++ [recovery_payment e pid id amt]).
Proof.
  unfold get_receipt, get, run.
  destruct (io_err e 0); [answered|].
  destruct (select_ticket s id) as [t|]; [|answered].
  destruct (negb _); [answered|].
  destruct (io_err e 1); [answered|].
  destruct (select_payment s id) as [p|] eqn:Ep.
  - intros H. left. eapply render_receipt_db; eauto.
  - destruct (recovery_amount e id t s) as [amt|x]; [|answered].
    destruct (io_err e 3); [answered|].
    destruct (insert_payment _ _ _ _ _ _ _ _) as [[s1 pid]|x] eqn:Ei;
      [|answered].
    intros H. apply render_receipt_db in H. subst s'.
    apply insert_payment_rows in Ei as (Hp & _).
    right. split; [reflexivity|]. exists pid, amt. exact Hp.
Qed.

Lemma get_receipt_rendered e id s r s' :
  get_receipt e id s = (r, s') -> is_receipt r -> select_payment s' id <> None.
Proof.
  unfold get_receipt, get, run, is_receipt, contact_administrator.
  destruct (io_err e 0); [intros H [row Hr]; inversion H; subst; discriminate|].
  destruct (select_ticket s id) as [t|];
    [|intros H [row Hr]; inversion H; subst; discriminate].
  destruct (negb _); [intros H [row Hr]; inversion H; subst; discriminate|].
  destruct (io_err e 1); [intros H [row Hr]; inversion H; subst; discriminate|].
  destruct (select_payment s id) as [p|] eqn:Ep.
  - intros H Hr. pose proof (render_receipt_db _ _ _ _ _ H) as ->.
    eapply render_receipt_payment; eauto.
  - destruct (recovery_amount e id t s) as [amt|x];
      [|intros H [row Hr]; inversion H; subst; discriminate].
    destruct (io_err e 3); [intros H [row Hr]; inversion H; subst; discriminate|].
    destruct (insert_payment _ _ _ _ _ _ _ _) as [[s1 pid]|x] eqn:Ei;
      [|intros H [row Hr]; inversion H; subst; discriminate].
    intros H Hr. pose proof (render_receipt_db _ _ _ _ _ H) as ->.
    eapply render_receipt_payment; eauto.
Qed.

Lemma select_payment_none s id :
  select_payment s id = None <-> payments_of s id = [].
Proof.
  unfold select_payment, payments_of.
  induction (payments s) as [|p l IH]; simpl; [tauto|].
  destruct (p_ticket_id p =? id); [split; discriminate | exact IH].
Qed.

Lemma payments_of_recovered s s' e pid id amt :
  payments s' = payments s ++ [recovery_payment e pid id amt] ->
  payments_of s' id = payments_of s id ++ [recovery_payment e pid id amt].
Proof.
  intros H. unfold payments_of. rewrite H, filter_app. simpl.
  rewrite Z.eqb_refl. reflexivity.
Qed.

(** The amount the recovery settles on, case by case. *)
Lemma recovery_amount_cases e id t s :
  io_err e 2 = false \/ amount_missing (total_amount t) = false ->
  exists amt,
    recovery_amount e id t s = Ok amt
    /\ (amount_missing (total_amount t) = true ->
        (select_ticket_join_slot s id = None \/ check_out_time t = None ->
         amt = 5%Q)
        /\ (forall t0 ps co,
              select_ticket_join_slot s id = Some (t0, ps) ->
              check_out_time t = Some co ->
              amt = (inject_Z (Qceiling ((co - check_in_time t) # 3600000))
                     * to_number (hourly_rate ps))%Q)).
Proof.
  intros Hio. unfold recovery_amount, get.
  destruct (amount_missing (total_amount t)) eqn:Em.
  - destruct Hio as [Hio|Hio]; [|discriminate]. rewrite Hio.
    destruct (select_ticket_join_slot s id) as [[t0 ps]|] eqn:Ej.
    + destruct (check_out_time t) as [co|] eqn:Ec.
      * eexists. split; [reflexivity|]. intros _. split.
        -- intros [H|H]; discriminate.
        -- intros t1 ps1 co1 H1 H2. inversion H1; inversion H2; subst. reflexivity.
      * eexists. split; [reflexivity|]. intros _. split; [reflexivity|].
        intros t1 ps1 co1 _ H2. discriminate.
    + destruct (check_out_time t); eexists; (split; [reflexivity|]);
        intros _; (split; [reflexivity|]); intros t1 ps1 co1 H1; discriminate.
  - eexists. split; [reflexivity|]. discriminate.
Qed.

(** The conditions under which the recovery inserts its row: the lookups and
    the insert meet no storage error, the receipt number of this millisecond
    is not in use and, under foreign keys, the cashier is a known user. *)
Lemma recovery_inserts e id s t amt :
  select_ticket s id = Some t -> t_payment_status t = paid ->
  select_payment s id = None ->
  io_err e 0 = false -> io_err e 1 = false -> io_err e 3 = false ->
  recovery_amount e id t s = Ok amt ->
  existsb (fun p => receipt_number p =? date_now e) (payments s) = false ->
  fk_ok s (has_user s (session_user e)) = true ->
  get_receipt e id s
  = render_receipt e id
      (set_payments s
         (payments s ++
          [recovery_payment e (lastID payment_id (payments_seq s) (payments s)) id amt])
         (lastID payment_id (payments_seq s) (payments s))).
Proof.
  intros Ht Hpaid Hnone H0 H1 H3 Hamt Hrn Hfk.
  unfold get_receipt, get, run. rewrite H0, Ht, Hpaid, H1, Hnone, Hamt, H3. simpl.
  unfold insert_payment. simpl. rewrite Hrn.
  assert (F : fk_ok s (has_ticket s id && has_user s (session_user e)) = true).
  { unfold fk_ok in *. destruct (foreign_keys s); [|reflexivity]. simpl in *.
    rewrite Hfk, (Settlement.has_ticket_selected _ _ _ Ht). reflexivity. }
  rewrite F. reflexivity.
Qed.

(** When the lookup of the slot or the insert fails, the recovery answers
    with the error and writes nothing. *)
Lemma recovery_fails e id s t :
  select_ticket s id = Some t -> t_payment_status t = paid ->
  select_payment s id = None ->
  io_err e 0 = false -> io_err e 1 = false ->
  (amount_missing (total_amount t) = true /\ io_err e 2 = true)
  \/ io_err e 3 = true
  \/ existsb (fun p => receipt_number p =? date_now e) (payments s) = true
  \/ fk_ok s (has_user s (session_user e)) = false ->
  get_receipt e id s = (contact_administrator, s).
Proof.
  intros Ht Hpaid Hnone H0 H1 Hwhy.
  unfold get_receipt, get, run. rewrite H0, Ht, Hpaid, H1, Hnone. simpl.
  destruct (recovery_amount e id t s) as [amt|x] eqn:Ea; [|reflexivity].
  destruct Hwhy as [[Hm H2]|[H3|[Hrn|Hfk]]].
  - unfold recovery_amount, get in Ea. rewrite Hm, H2 in Ea. discriminate.
  - rewrite H3. reflexivity.
  - destruct (io_err e 3); [reflexivity|].
    unfold insert_payment. simpl. rewrite Hrn. reflexivity.
  - destruct (io_err e 3); [reflexivity|].
    unfold insert_payment. simpl.
    destruct (existsb _ (payments s)); [reflexivity|].
    unfold fk_ok in *. destruct (foreign_keys s); [|discriminate]. simpl in *.
    rewrite Hfk, andb_false_r. reflexivity.
Qed.

Lemma select_details_payments s l q id :
  select_ticket_details (set_payments s l q) id = select_ticket_details s id.
Proof. reflexivity. Qed.

(** C6 (counterexample). Two receipts of a paid ticket without Payment row
    whose amount cannot be reconstructed.  On a slot without hourly rate, a
    check-in and a check-out whose payment is rejected leave the ticket paid
    with the stored amount 0: the recovery does not fail, it inserts a
    Payment row of amount 0 and shows the receipt.  For a paid ticket
    without stored amount and check-out time the recovery inserts a Payment
    row of the default amount 5 and shows the receipt. *)
Lemma recovery_settles_an_amount_it_cannot_reconstruct :
  (let '(rs, s) := exec unrated_stay unrated_db in
   let '(r, s') := get_receipt (at_time 5000000) 1 s in
   rs = [checked_in 1; payment_failed 1]
   /\ option_map t_payment_status (select_ticket s 1) = Some paid
   /\ option_map total_amount (select_ticket s 1) = Some (Some 0%Q)
   /\ option_map hourly_rate (select_slot s 1) = Some None
   /\ payments s = []
   /\ is_receipt r
   /\ r <> contact_administrator
   /\ payments s' = [recovery_payment (at_time 5000000) 1 1 0])
  /\
  (let '(r, s') := get_receipt (at_time 5000000) 1 orphan_db in
   option_map t_payment_status (select_ticket orphan_db 1) = Some paid
   /\ option_map total_amount (select_ticket orphan_db 1) = Some None
   /\ option_map check_out_time (select_ticket orphan_db 1) = Some None
   /\ payments orphan_db = []
   /\ is_receipt r
   /\ r <> contact_administrator
   /\ payments s' = [recovery_payment (at_time 5000000) 1 1 5]).
Proof.
  vm_compute. repeat split; try discriminate; eexists; reflexivity.
Qed.

(** C6 (amended). The recovery path on a paid ticket without Payment row
    whose stored amount is zero or absent.  When the lookup of the slot and
    the insert meet no storage error, the receipt number is not in use and
    the cashier is a known user, the recovery inserts a Payment row (cash,
    reference RECOVERY) and goes on to the receipt lookup: the amount is the
    default 5 when the slot row or the check-out time is missing, and 0 when
    both exist and the slot has no hourly rate; the answer is never the
    "contact administrator" error, and it is the receipt with the new row
    when the ticket's slot, vehicle, driver and cashier are found.  The
    "contact administrator" error is answered when the lookup of the slot or
    the insert fails, and then nothing is written. *)
Theorem recovery_without_amount e id s t :
  select_ticket s id = Some t ->
  t_payment_status t = paid ->
  select_payment s id = None ->
  amount_missing (total_amount t) = true ->
  io_err e 0 = false -> io_err e 1 = false ->
  (io_err e 2 = false -> io_err e 3 = false ->
   existsb (fun p => receipt_number p =? date_now e) (payments s) = false ->
   fk_ok s (has_user s (session_user e)) = true ->
   exists amt s',
     s' = set_payments s
            (payments s ++
             [recovery_payment e (lastID payment_id (payments_seq s) (payments s))
                id amt])
            (lastID payment_id (payments_seq s) (payments s))
     /\ get_receipt e id s = render_receipt e id s'
     /\ fst (get_receipt e id s) <> contact_administrator
     /\ (select_ticket_join_slot s id = None \/ check_out_time t = None ->
         amt = 5%Q)
     /\ (forall t0 ps co,
           select_ticket_join_slot s id = Some (t0, ps) ->
           check_out_time t = Some co -> hourly_rate ps = None -> amt == 0)
     /\ (forall row,
           select_ticket_details s id = Some row ->
           has_user s (t_cashier_id t) = true -> io_err e 4 = false ->
           get_receipt e id s
           = (render "cashier/receipt"
                (page_receipt
                   (row, recovery_payment e
                           (lastID payment_id (payments_seq s) (payments s)) id amt)),
              s')))
  /\ (io_err e 2 = true \/ io_err e 3 = true
      \/ existsb (fun p => receipt_number p =? date_now e) (payments s) = true
      \/ fk_ok s (has_user s (session_user e)) = false ->
      get_receipt e id s = (contact_administrator, s)).
Proof.
  intros Ht Hpaid Hnone Hmiss H0 H1. split.
  - intros H2 H3 Hrn Hfk.
    destruct (recovery_amount_cases e id t s (or_introl H2))
      as (amt & Hamt & Hcases).
    destruct (Hcases Hmiss) as [Hdef Hcalc].
    pose proof (recovery_inserts _ _ _ _ _ Ht Hpaid Hnone H0 H1 H3 Hamt Hrn Hfk)
      as Hrun.
    eexists amt, _. split; [reflexivity|]. split; [exact Hrun|].
    split; [|split; [exact Hdef|split]].
    + rewrite Hrun.
      destruct (render_receipt e id _) as [r s'] eqn:Er.
      exact (render_receipt_not_contact _ _ _ _ _ Er).
    + intros t0 ps co Hj Hco Hrate.
      rewrite (Hcalc t0 ps co Hj Hco), Hrate. simpl to_number. ring.
    + intros [[[pt ps] v] d] Hdet Huser H4. rewrite Hrun.
      unfold render_receipt, get, select_receipt. rewrite H4, select_details_payments, Hdet.
      assert (Hpt : pt = t).
      { unfold select_ticket_details in Hdet. rewrite Ht in Hdet.
        destruct (select_slot s (t_slot_id t)); [|discriminate].
        destruct (select_vehicle s (t_vehicle_id t)); [|discriminate].
        destruct (select_driver s (t_driver_id t)); [|discriminate].
        inversion Hdet. reflexivity. }
      subst pt.
      unfold select_payment in *. simpl payments.
      rewrite (find_app_none _ _ _ Hnone). simpl. rewrite Z.eqb_refl.
      unfold has_user in *. simpl users. rewrite Huser. reflexivity.
  - intros Hwhy. apply (recovery_fails _ _ _ _ Ht Hpaid Hnone H0 H1).
    destruct Hwhy as [H|[H|[H|H]]]; auto.
Qed.

Lemma recovery_without_amount_witness :
  let s := snd (exec unrated_stay unrated_db) in
  exists amt s',
    get_receipt (at_time 5000000) 1 s = render_receipt (at_time 5000000) 1 s'
    /\ payments s' = payments s ++ [recovery_payment (at_time 5000000) 1 1 amt]
    /\ fst (get_receipt (at_time 5000000) 1 s) <> contact_administrator
    /\ amt == 0.
Proof.
  destruct (recovery_without_amount (at_time 5000000) 1
              (snd (exec unrated_stay unrated_db))
              (paid_row (ticket_row (at_time 1000) 1 1 1 1) 4321000
                 (diff_hours 4321000 1000) (totalCost (diff_hours 4321000 1000) None)))
    as [H _].
  - vm_compute. reflexivity.
  - reflexivity.
  - vm_compute. reflexivity.
  - reflexivity.
  - reflexivity.
  - reflexivity.
  - destruct H as (amt & s' & Hs' & Hrun & Hne & _ & Hzero & _);
      try reflexivity.
    exists amt, s'. split; [exact Hrun|]. split; [rewrite Hs'; reflexivity|].
    split; [exact Hne|].
    apply (Hzero (paid_row (ticket_row (at_time 1000) 1 1 1 1) 4321000
                    (diff_hours 4321000 1000)
                    (totalCost (diff_hours 4321000 1000) None))
                 {| slot_id := 1; slot_number := "A01"; status := occupied;
                    hourly_rate := None |} 4321000); reflexivity.
Defined.

(** C7. The recovery path run twice in sequence.  A ticket that has Payment
    rows gets none added.  A ticket without Payment row ends with at most
    one, and the second run writes nothing after a first run that inserted.
    For a paid ticket without Payment row, when the first run meets no
    storage error, its receipt number is not in use and its cashier is a
    known user, the first run inserts the recovery row, the second run
    writes nothing, and the ticket ends with exactly that one Payment row;
    when the first run wrote nothing and the second run meets these
    conditions, the second run inserts the one row. *)
Theorem recovery_is_idempotent e1 e2 id s r1 s1 r2 s2 :
  get_receipt e1 id s = (r1, s1) ->
  get_receipt e2 id s1 = (r2, s2) ->
  (payments_of s id <> [] -> s1 = s /\ s2 = s)
  /\ (payments_of s id = [] ->
      (List.length (payments_of s2 id) <= 1)%nat
      /\ (payments_of s1 id <> [] -> s2 = s1))
  /\ (forall t,
        select_ticket s id = Some t -> t_payment_status t = paid ->
        payments_of s id = [] ->
        io_err e1 0 = false -> io_err e1 1 = false -> io_err e1 2 = false ->
        io_err e1 3 = false ->
        existsb (fun p => receipt_number p =? date_now e1) (payments s) = false ->
        fk_ok s (has_user s (session_user e1)) = true ->
        exists pid amt,
          payments s1 = payments s ++ [recovery_payment e1 pid id amt]
          /\ s2 = s1
          /\ payments_of s2 id = [recovery_payment e1 pid id amt])
  /\ (forall t,
        select_ticket s id = Some t -> t_payment_status t = paid ->
        payments_of s id = [] ->
        s1 = s ->
        io_err e2 0 = false -> io_err e2 1 = false -> io_err e2 2 = false ->
        io_err e2 3 = false ->
        existsb (fun p => receipt_number p =? date_now e2) (payments s) = false ->
        fk_ok s (has_user s (session_user e2)) = true ->
        exists pid amt,
          payments s2 = payments s ++ [recovery_payment e2 pid id amt]
          /\ payments_of s2 id = [recovery_payment e2 pid id amt]).
Proof.
  intros G1 G2.
  pose proof (get_receipt_effect _ _ _ _ _ G1) as E1.
  pose proof (get_receipt_effect _ _ _ _ _ G2) as E2.
  split; [|split; [|split]]; cycle 3.
  { (* the first run wrote nothing, the second one inserts *)
    intros t Ht Hpaid Hnil Hs1 H0 H1 H2 H3 Hrn Hfk. subst s1.
    pose proof Hnil as Hnone. apply select_payment_none in Hnone.
    destruct (recovery_amount_cases e2 id t s (or_introl H2)) as (amt & Hamt & _).
    pose proof (recovery_inserts _ _ _ _ _ Ht Hpaid Hnone H0 H1 H3 Hamt Hrn Hfk)
      as Hrun.
    rewrite G2 in Hrun. symmetry in Hrun. apply render_receipt_db in Hrun.
    assert (Hp2 : payments s2
                  = payments s ++
                    [recovery_payment e2
                       (lastID payment_id (payments_seq s) (payments s)) id amt]).
    { rewrite Hrun. reflexivity. }
    pose proof (payments_of_recovered _ _ _ _ _ _ Hp2) as Hof.
    rewrite Hnil in Hof. simpl in Hof.
    eexists _, amt. split; [exact Hp2 | exact Hof]. }
  - intros Hne.
    assert (s1 = s) as ->.
    { destruct E1 as [E1|[E1 _]]; [exact E1|].
      apply select_payment_none in E1. contradiction. }
    split; [reflexivity|].
    destruct E2 as [E2|[E2 _]]; [exact E2|].
    apply select_payment_none in E2. contradiction.
  - intros Hnil.
    destruct E1 as [->|[_ (pid & amt & Hp1)]].
    + destruct E2 as [->|[_ (pid & amt & Hp2)]].
      * rewrite Hnil. simpl. split; [lia | reflexivity].
      * apply payments_of_recovered in Hp2. rewrite Hp2, Hnil. simpl.
        split; [lia | contradiction].
    + apply payments_of_recovered in Hp1.
      assert (s2 = s1) as ->.
      { destruct E2 as [E2|[E2 _]]; [exact E2|].
        apply select_payment_none in E2. rewrite Hp1, Hnil in E2. discriminate. }
      rewrite Hp1, Hnil. simpl. split; [lia | reflexivity].
  - intros t Ht Hpaid Hnil H0 H1 H2 H3 Hrn Hfk.
    pose proof Hnil as Hnone. apply select_payment_none in Hnone.
    destruct (recovery_amount_cases e1 id t s (or_introl H2)) as (amt & Hamt & _).
    pose proof (recovery_inserts _ _ _ _ _ Ht Hpaid Hnone H0 H1 H3 Hamt Hrn Hfk)
      as Hrun.
    rewrite G1 in Hrun. symmetry in Hrun. apply render_receipt_db in Hrun.
    assert (Hp1 : payments s1
                  = payments s ++
                    [recovery_payment e1
                       (lastID payment_id (payments_seq s) (payments s)) id amt]).
    { rewrite Hrun. reflexivity. }
    pose proof (payments_of_recovered _ _ _ _ _ _ Hp1) as Hof.
    rewrite Hnil in Hof. simpl in Hof.
    assert (s2 = s1) as ->.
    { destruct E2 as [E2|[E2 _]]; [exact E2|].
      apply select_payment_none in E2. rewrite Hof in E2. discriminate. }
    eexists _, amt. split; [exact Hp1|]. split; [reflexivity | exact Hof].
Qed.

Lemma recovery_is_idempotent_witness :
  exists pid amt,
    payments (snd (get_receipt (at_time 5000000) 1 unpaid_db))
    = payments unpaid_db ++ [recovery_payment (at_time 5000000) pid 1 amt]
    /\ snd (get_receipt (at_time 6000000) 1
              (snd (get_receipt (at_time 5000000) 1 unpaid_db)))
       = snd (get_receipt (at_time 5000000) 1 unpaid_db)
    /\ payments_of
         (snd (get_receipt (at_time 6000000) 1
                 (snd (get_receipt (at_time 5000000) 1 unpaid_db)))) 1
       = [recovery_payment (at_time 5000000) pid 1 amt].
Proof.
  destruct (recovery_is_idempotent (at_time 5000000) (at_time 6000000) 1 unpaid_db
              (fst (get_receipt (at_time 5000000) 1 unpaid_db))
              (snd (get_receipt (at_time 5000000) 1 unpaid_db))
              (fst (get_receipt (at_time 6000000) 1
                      (snd (get_receipt (at_time 5000000) 1 unpaid_db))))
              (snd (get_receipt (at_time 6000000) 1
                      (snd (get_receipt (at_time 5000000) 1 unpaid_db)))))
    as (_ & _ & H & _).
  - apply surjective_pairing.
  - apply surjective_pairing.
  - apply (H (paid_row parked_ticket 4321000 (diff_hours 4321000 1000)
                (totalCost (diff_hours 4321000 1000) (Some 5%Q))));
      vm_compute; reflexivity.
Defined.

(** The recovery at work: the rejected check-out of [unpaid_db] is repaired
    by the first receipt request, with the stored amount 10, and the second
    request changes nothing. *)
Example recovery_twice_on_unpaid_db :
  let '(r1, s1) := get_receipt (at_time 5000000) 1 unpaid_db in
  let '(r2, s2) := get_receipt (at_time 6000000) 1 s1 in
  payments_of unpaid_db 1 = []
  /\ is_receipt r1 /\ is_receipt r2
  /\ payments_of s1 1 = [recovery_payment (at_time 5000000) 1 1 10]
  /\ s2 = s1.
Proof.
  vm_compute. repeat split; eexists; reflexivity.
Qed.


End Recovery.

(** ** Check-in *)

Module CheckIn.
Import Schema Sql Billing Http Cashier Lifecycle Frames.

Lemma fold_max_ge (l : list Z) (x : Z) : In x l -> x <= fold_right Z.max 0 l.
Proof.
  induction l as [|a l IH]; simpl; [tauto|].
  intros [->|H]; [lia|]. specialize (IH H). lia.
Qed.

(** An AUTOINCREMENT id is larger than every id of the table. *)
Lemma lastID_fresh {A : Type} (id : A -> Z) (seq : Z) (rows : list A) (x : A) :
  In x rows -> id x < lastID id seq rows.
Proof.
  intros H. unfold lastID.
  assert (id x <= fold_right Z.max 0 (map id rows)).
  { apply fold_max_ge. apply in_map. exact H. }
  lia.
Qed.

Lemma find_filter_keep {A : Type} (p q : A -> bool) (l : list A) :
  (forall x, In x l -> p x = true -> q x = true) ->
  find p (filter q l) = find p l.
Proof.
  induction l as [|a l IH]; simpl; [reflexivity|].
  intros H. destruct (q a) eqn:Eq; simpl.
  - destruct (p a); [reflexivity|]. apply IH. intros x Hx. apply H. auto.
  - destruct (p a) eqn:Ep.
    + rewrite (H a (or_introl eq_refl) Ep) in Eq. discriminate.
    + apply IH. intros x Hx. apply H. auto.
Qed.

Lemma find_fresh_last {A : Type} (p : A -> bool) (l : list A) (x : A) :
  (forall y, In y l -> p y = false) -> p x = true ->
  find p (l ++ [x]) = Some x.
Proof.
  intros Hl Hx.
  assert (Hn : find p l = None).
  { induction l as [|a l IH]; simpl; [reflexivity|].
    rewrite (Hl a (or_introl eq_refl)). apply IH.
    intros y Hy. apply Hl. right. exact Hy. }
  rewrite (find_app_none p l [x] Hn). simpl. rewrite Hx. reflexivity.
Qed.

(** What INSERT OR REPLACE INTO vehicles does when it succeeds. *)
Lemma insert_or_replace_vehicle_rows s plate mk mdl col yr owner ophone oemail s1 vid :
  insert_or_replace_vehicle s plate mk mdl col yr owner ophone oemail = Ok (s1, vid) ->
  vid = lastID vehicle_id (vehicles_seq s) (vehicles s)
  /\ vehicles s1
     = filter (fun v => negb (license_plate v =? plate)%string) (vehicles s)
       ++ [ {| vehicle_id := vid; license_plate := plate; make := mk;
               model := mdl; color := col; year := yr; owner_name := owner;
               owner_phone := ophone; owner_email := oemail |} ]
  /\ parking_tickets s1 = parking_tickets s
  /\ parking_tickets_seq s1 = parking_tickets_seq s
  /\ (foreign_keys s = true ->
      forall t v, In t (parking_tickets s) -> In v (vehicles s) ->
                  license_plate v = plate -> vehicle_id v <> t_vehicle_id t).
Proof.
  unfold insert_or_replace_vehicle, fk_ok.
  destruct (negb (foreign_keys s) || _) eqn:E; [|discriminate].
  intros H. inversion H; subst; clear H. simpl.
  repeat split; try reflexivity.
  intros Hfk t v Ht Hv Hplate Hid.
  rewrite Hfk in E. simpl in E. apply negb_true_iff in E.
  assert (X : existsb
                (fun t0 => existsb (fun v0 => vehicle_id v0 =? t_vehicle_id t0)
                   (filter (fun v0 => (license_plate v0 =? plate)%string)
                           (vehicles s)))
                (parking_tickets s) = true).
  { apply existsb_exists. exists t. split; [exact Ht|].
    apply existsb_exists. exists v. split; [|apply Z.eqb_eq; exact Hid].
    apply filter_In. split; [exact Hv | apply String.eqb_eq; exact Hplate]. }
  rewrite X in E. discriminate.
Qed.

Lemma insert_or_replace_driver_rows s name ph em idn lic addr s2 did :
  insert_or_replace_driver s name ph em idn lic addr = Ok (s2, did) ->
  vehicles s2 = vehicles s /\ parking_tickets s2 = parking_tickets s
  /\ parking_tickets_seq s2 = parking_tickets_seq s.
Proof.
  unfold insert_or_replace_driver. intros H. inversion H; subst; clear H.
  simpl. repeat split; reflexivity.
Qed.

Lemma insert_ticket_rows s number slotId vid did cid ts s3 tid :
  insert_ticket s number slotId vid did cid ts = Ok (s3, tid) ->
  vehicles s3 = vehicles s
  /\ exists t, parking_tickets s3 = parking_tickets s ++ [t]
               /\ ticket_id t = tid /\ t_vehicle_id t = vid
               /\ t_slot_id t = slotId /\ check_out_time t = None
               /\ select_ticket s3 tid = Some t.
Proof.
  unfold insert_ticket.
  destruct (existsb _ (parking_tickets s)); [discriminate|].
  destruct (fk_ok s _); [|discriminate].
  intros H. inversion H; subst; clear H. simpl.
  split; [reflexivity|]. eexists. split; [reflexivity|].
  simpl. repeat split; try reflexivity.
  unfold select_ticket. simpl. apply find_fresh_last.
  - intros y Hy. apply Z.eqb_neq.
    pose proof (lastID_fresh ticket_id (parking_tickets_seq s) _ _ Hy). lia.
  - simpl. apply Z.eqb_refl.
Qed.

(** The statements a check-in has run when it answers with the ticket
    redirect. *)
Lemma post_check_in_success e b s tid s' :
  post_check_in e b s = (checked_in tid, s') ->
  exists slotId sl s1 vid s2 did s3 s4,
    slot_id_field b = Some slotId
    /\ select_slot s slotId = Some sl /\ status sl = vacant
    /\ insert_or_replace_vehicle s (license_plate_field b) (make_field b)
         (model_field b) (color_field b) (year_field b) (owner_name_field b)
         (owner_phone_field b) (owner_email_field b) = Ok (s1, vid)
    /\ insert_or_replace_driver s1 (driver_name_field b) (driver_phone_field b)
         (driver_email_field b) (id_number_field b) (license_number_field b)
         (address_field b) = Ok (s2, did)
    /\ insert_ticket s2 (date_now e) slotId vid did (session_user e)
         (current_timestamp e) = Ok (s3, tid)
    /\ ((io_err e 4 = true /\ s4 = s3)
        \/ (io_err e 4 = false /\ update_slot_status s3 slotId occupied = Ok s4))
    /\ audit_then e 5 "CHECK_IN" tid (checked_in tid) s4 = (checked_in tid, s').
Proof.
  unfold post_check_in, get, run, checked_in.
  destruct (slot_id_field b) as [slotId|]; [|discriminate].
  destruct (falsy _ || falsy _); [discriminate|].
  destruct (io_err e 0); [discriminate|].
  destruct (select_slot s slotId) as [sl|] eqn:Es; [|discriminate].
  destruct (status sl) eqn:Est; simpl; try discriminate.
  destruct (io_err e 1); [discriminate|].
  destruct (insert_or_replace_vehicle _ _ _ _ _ _ _ _ _) as [[s1 vid]|x] eqn:E1;
    [|discriminate].
  destruct (io_err e 2); [discriminate|].
  destruct (insert_or_replace_driver _ _ _ _ _ _ _) as [[s2 did]|x] eqn:E2;
    [|discriminate].
  destruct (io_err e 3); [discriminate|].
  destruct (insert_ticket _ _ _ _ _ _ _) as [[s3 tid']|x] eqn:E3; [|discriminate].
  intros H.
  assert (tid' = tid) as ->.
  { unfold audit_then, run in H.
    destruct (io_err e 5); [discriminate|].
    destruct (insert_audit_log _ _ _ _ _); [|discriminate].
    inversion H. reflexivity. }
  destruct (io_err e 4) eqn:E4.
  - exists slotId, sl, s1, vid, s2, did, s3, s3. repeat split; auto.
  - destruct (update_slot_status s3 slotId occupied) as [s4|x] eqn:E5.
    + exists slotId, sl, s1, vid, s2, did, s3, s4. repeat split; auto.
    + discriminate E5.
Qed.

Lemma insert_or_replace_vehicle_refused s plate mk mdl col yr owner ophone oemail v t :
  foreign_keys s = true ->
  In v (vehicles s) -> license_plate v = plate ->
  In t (parking_tickets s) -> t_vehicle_id t = vehicle_id v ->
  insert_or_replace_vehicle s plate mk mdl col yr owner ophone oemail
  = Err SQLITE_CONSTRAINT_FOREIGNKEY.
Proof.
  intros Hfk Hv Hplate Ht Hid.
  destruct (insert_or_replace_vehicle s plate mk mdl col yr owner ophone oemail)
    as [[s1 vid]|x] eqn:E.
  - apply insert_or_replace_vehicle_rows in E as (_ & _ & _ & _ & H).
    exfalso. apply (H Hfk t v Ht Hv Hplate). symmetry. exact Hid.
  - unfold insert_or_replace_vehicle in E.
    destruct (fk_ok s _); [discriminate|]. symmetry. exact E.
Qed.

(** The vehicles table after a check-in, whatever its outcome: untouched,
    or as the vehicle statement left it. *)
Lemma post_check_in_vehicles e b s r s' :
  post_check_in e b s = (r, s') ->
  vehicles s' = vehicles s
  \/ exists s1 vid,
       insert_or_replace_vehicle s (license_plate_field b) (make_field b)
         (model_field b) (color_field b) (year_field b) (owner_name_field b)
         (owner_phone_field b) (owner_email_field b) = Ok (s1, vid)
       /\ vehicles s' = vehicles s1.
Proof.
  unfold post_check_in, get, run.
  destruct (slot_id_field b) as [slotId|]; [|answered].
  destruct (falsy _ || falsy _); [answered|].
  destruct (io_err e 0); [answered|].
  destruct (select_slot s slotId) as [sl|]; [|answered].
  destruct (negb _); [answered|].
  destruct (io_err e 1); [answered|].
  destruct (insert_or_replace_vehicle _ _ _ _ _ _ _ _ _) as [[s1 vid]|x] eqn:E1;
    [|answered].
  intros H. right. exists s1, vid. split; [reflexivity|].
  destruct (io_err e 2); [inversion H; reflexivity|].
  destruct (insert_or_replace_driver _ _ _ _ _ _ _) as [[s2 did]|x] eqn:E2;
    [|inversion H; reflexivity].
  apply insert_or_replace_driver_rows in E2 as (V2 & _).
  destruct (io_err e 3); [inversion H; subst; exact V2|].
  destruct (insert_ticket _ _ _ _ _ _ _) as [[s3 tid]|x] eqn:E3;
    [|inversion H; subst; exact V2].
  apply insert_ticket_rows in E3 as (V3 & _).
  apply audit_then_rows in H as (_ & _ & _ & V5 & _).
  rewrite V5.
  destruct (io_err e 4); [congruence|].
  destruct (update_slot_status s3 slotId occupied) as [s4|x] eqn:E4; [|congruence].
  apply update_slot_status_rows in E4 as (_ & _ & V4 & _). congruence.
Qed.

(** The drivers table after a check-in, whatever its outcome: untouched,
    or with one row added at the end. *)
Lemma post_check_in_drivers e b s r s' :
  post_check_in e b s = (r, s') ->
  drivers s' = drivers s \/ exists d, drivers s' = drivers s ++ [d].
Proof.
  unfold post_check_in, get, run.
  destruct (slot_id_field b) as [slotId|]; [|answered].
  destruct (falsy _ || falsy _); [answered|].
  destruct (io_err e 0); [answered|].
  destruct (select_slot s slotId) as [sl|]; [|answered].
  destruct (negb _); [answered|].
  destruct (io_err e 1); [answered|].
  destruct (insert_or_replace_vehicle _ _ _ _ _ _ _ _ _) as [[s1 vid]|x] eqn:E1;
    [|answered].
  assert (D1 : drivers s1 = drivers s).
  { unfold insert_or_replace_vehicle in E1.
    destruct (fk_ok s _); [|discriminate]. inversion E1. reflexivity. }
  destruct (io_err e 2); [intros H; inversion H; subst; auto|].
  unfold insert_or_replace_driver.
  match goal with
  | |- context [set_drivers s1 (drivers s1 ++ [?d]) ?q] =>
      set (row := d); set (s2 := set_drivers s1 (drivers s1 ++ [row]) q)
  end.
  assert (D2 : drivers s2 = drivers s ++ [row]).
  { unfold s2. simpl. rewrite D1. reflexivity. }
  clearbody s2.
  destruct (io_err e 3); [intros H; inversion H; subst; eauto|].
  destruct (insert_ticket _ _ _ _ _ _ _) as [[s3 tid]|x] eqn:E3;
    [|intros H; inversion H; subst; eauto].
  assert (D3 : drivers s3 = drivers s2).
  { unfold insert_ticket in E3.
    destruct (existsb _ (parking_tickets s2)); [discriminate|].
    destruct (fk_ok s2 _); [|discriminate]. inversion E3. reflexivity. }
  intros H. right. exists row.
  assert (D5 : forall s4, drivers s4 = drivers s3 ->
                 audit_then e 5 "CHECK_IN" tid
                   (redirect (cashier_ticket tid)
                             "success=Vehicle checked in successfully") s4
                 = (r, s') -> drivers s' = drivers s ++ [row]).
  { intros s4 D4. unfold audit_then, run.
    destruct (io_err e 5); [intros X; inversion X; subst; congruence|].
    unfold insert_audit_log. destruct (fk_ok s4 _);
      intros X; inversion X; subst; simpl; congruence. }
  destruct (io_err e 4); [apply (D5 s3 eq_refl H)|].
  unfold update_slot_status in H. eapply D5; [|exact H]. reflexivity.
Qed.

(** C10 (the code at the failing input). The vehicle of the settled ticket 1
    comes back: its plate has a vehicle row, slot A01 is vacant, and the
    check-in sets out to insert or update the vehicle.  With the foreign
    keys that [initDatabase] turns on, the replacement of the row that
    ticket 1 references is rejected: the check-in is refused at the vehicle
    statement and changes nothing; the row is not replaced under a new id
    and no ticket is created. *)
Theorem returning_vehicle_is_refused :
  let '(r, s') := post_check_in (at_time 9000000) (arrival "ABC123") settled_db in
  foreign_keys settled_db = true
  /\ option_map status (select_slot settled_db 1) = Some vacant
  /\ map license_plate (vehicles settled_db) = ["ABC123"]
  /\ r = vehicle_rejected
  /\ s' = settled_db
  /\ map ticket_id (parking_tickets s') = [1]
  /\ option_map (fun row => vehicle_id (snd (fst row))) (select_ticket_details s' 1)
     = Some 1.
Proof.
  vm_compute. repeat split.
Qed.

(** On a connection without the foreign-key pragma the same request would
    replace the row and orphan ticket 1. *)
Example returning_vehicle_without_foreign_keys :
  let '(r, s') := post_check_in (at_time 9000000) (arrival "ABC123")
                    (without_foreign_keys settled_db) in
  r = checked_in 2
  /\ map vehicle_id (vehicles s') = [2]
  /\ option_map t_vehicle_id (select_ticket s' 1) = Some 1
  /\ select_ticket_details s' 1 = None.
Proof.
  vm_compute. repeat split.
Qed.

(** The vehicle and driver rows around a check-in, with foreign keys
    enforced.  No check-in removes the vehicle row of an existing ticket.  A
    check-in for a plate whose vehicle row is referenced by a ticket is
    refused at the vehicle statement and writes nothing, whatever the
    database: no vehicle that has a ticket can check in again.  A check-in
    that goes through leaves exactly one row for its plate, a new row under
    an id that no row had before, and the new ticket references that id.
    Driver rows are never replaced: the drivers table has no natural key. *)
Lemma check_in_vehicle_rows e b s r s' :
  foreign_keys s = true ->
  post_check_in e b s = (r, s') ->
  (forall t v, In t (parking_tickets s) ->
               select_vehicle s (t_vehicle_id t) = Some v ->
               select_vehicle s' (t_vehicle_id t) = Some v)
  /\ (forall slotId sl v t,
        slot_id_field b = Some slotId ->
        required_fields_missing b = false ->
        io_err e 0 = false ->
        select_slot s slotId = Some sl -> status sl = vacant ->
        In v (vehicles s) -> license_plate v = license_plate_field b ->
        In t (parking_tickets s) -> t_vehicle_id t = vehicle_id v ->
        r = vehicle_rejected /\ s' = s)
  /\ (forall tid, r = checked_in tid ->
        exists vid t',
          select_ticket s' tid = Some t'
          /\ t_vehicle_id t' = vid
          /\ In (vehicle_row vid b) (vehicles s')
          /\ ~ In vid (map vehicle_id (vehicles s))
          /\ (forall v, In v (vehicles s') ->
                        license_plate v = license_plate_field b ->
                        v = vehicle_row vid b))
  /\ (forall d, In d (drivers s) -> In d (drivers s')).
Proof.
  intros Hfk Hrun. split; [|split; [|split]]; cycle 3.
  { (* no driver row is ever replaced *)
    intros d Hd.
    destruct (post_check_in_drivers _ _ _ _ _ Hrun) as [->|[d' ->]];
      [exact Hd | apply in_or_app; left; exact Hd]. }
  - (* earlier tickets keep their vehicle *)
    intros t v Ht Hv.
    destruct (post_check_in_vehicles _ _ _ _ _ Hrun) as [V|(s1 & vid & E1 & V)];
      unfold select_vehicle in *; rewrite V; [exact Hv|].
    apply insert_or_replace_vehicle_rows in E1 as (_ & V1 & _ & _ & Href).
    rewrite V1. apply find_app_some.
    rewrite find_filter_keep; [exact Hv|].
    intros x Hx Hidx. apply Z.eqb_eq in Hidx. apply negb_true_iff.
    apply String.eqb_neq. intros Hplate.
    apply (Href Hfk t x Ht Hx Hplate Hidx).
  - (* a referenced plate is refused *)
    intros slotId sl v t Hid Hreq Hio Hsl Hvac Hv Hplate Ht Href.
    revert Hrun. unfold post_check_in, get, run.
    unfold required_fields_missing in Hreq. rewrite Hid in Hreq |- *.
    rewrite Hreq, Hio, Hsl, Hvac. simpl.
    rewrite (insert_or_replace_vehicle_refused s _ (make_field b) (model_field b)
               (color_field b) (year_field b) (owner_name_field b)
               (owner_phone_field b) (owner_email_field b)
               v t Hfk Hv Hplate Ht Href).
    destruct (io_err e 1); intros H; inversion H; split; reflexivity.
  - (* a check-in that goes through *)
    intros tid ->.
    destruct (post_check_in_success _ _ _ _ _ Hrun)
      as (slotId & sl & s1 & vid & s2 & did & s3 & s4
          & _ & _ & _ & E1 & E2 & E3 & E4 & E5).
    apply insert_or_replace_vehicle_rows in E1 as (Hvid & V1 & _).
    apply insert_or_replace_driver_rows in E2 as (V2 & _).
    apply insert_ticket_rows in E3 as (V3 & t' & T3 & _ & Tv & _ & _ & S3).
    apply audit_then_rows in E5 as (T5 & _ & _ & V5 & _).
    assert (X4 : parking_tickets s4 = parking_tickets s3
                 /\ vehicles s4 = vehicles s3).
    { destruct E4 as [[_ ->]|[_ E4]]; [split; reflexivity|].
      apply update_slot_status_rows in E4 as (A & _ & B & _). split; assumption. }
    destruct X4 as [T4 V4].
    assert (V : vehicles s'
                = filter (fun v => negb (license_plate v =? license_plate_field b)%string)
                         (vehicles s) ++ [vehicle_row vid b]).
    { rewrite V5, V4, V3, V2, V1. reflexivity. }
    exists vid, t'. split; [|split; [|split; [|split]]].
    + unfold select_ticket in *. rewrite T5, T4. exact S3.
    + exact Tv.
    + rewrite V. apply in_or_app. right. left. reflexivity.
    + intros Hin. apply in_map_iff in Hin as (x & Hx & Hin).
      pose proof (lastID_fresh vehicle_id (vehicles_seq s) _ _ Hin). lia.
    + intros v Hv Hplate. rewrite V in Hv. apply in_app_or in Hv as [Hv|Hv].
      * apply filter_In in Hv as [_ Hv]. apply negb_true_iff in Hv.
        apply String.eqb_neq in Hv. contradiction.
      * destruct Hv as [<-|[]]. reflexivity.
Qed.

(** A check-in for a plate whose vehicle row no ticket references: the row
    is replaced under a new id. *)
Example unreferenced_vehicle_is_replaced :
  let s := set_parking_tickets settled_db [] 1 in
  let '(r, s') := post_check_in (at_time 9000000) (arrival "ABC123") s in
  map vehicle_id (vehicles s) = [1]
  /\ r = checked_in 2
  /\ map vehicle_id (vehicles s') = [2]
  /\ option_map t_vehicle_id (select_ticket s' 2) = Some 2.
Proof.
  vm_compute. repeat split.
Qed.

(** C9. A check-in that targets a slot which does not exist or is not
    vacant writes nothing: no vehicle, driver or ticket row, and the slot as
    it was; the request is answered with the slot-unavailable error (a
    request without its required fields is turned down before, with the
    validation error). *)
Theorem check_in_unavailable_slot e b s slotId :
  slot_id_field b = Some slotId ->
  (forall sl, select_slot s slotId = Some sl -> status sl <> vacant) ->
  snd (post_check_in e b s) = s
  /\ (required_fields_missing b = false ->
      fst (post_check_in e b s) = slot_unavailable)
  /\ (required_fields_missing b = true ->
      fst (post_check_in e b s) = validation_error).
Proof.
  intros Hid Hslot. unfold post_check_in, required_fields_missing, get.
  rewrite Hid.
  destruct (falsy (license_plate_field b) || falsy (driver_name_field b)).
  { repeat split; intros; try reflexivity; discriminate. }
  destruct (io_err e 0).
  { repeat split; intros; try reflexivity; discriminate. }
  destruct (select_slot s slotId) as [sl|] eqn:E.
  - specialize (Hslot sl eq_refl).
    destruct (status sl); simpl; try congruence;
      repeat split; intros; try reflexivity; discriminate.
  - repeat split; intros; try reflexivity; discriminate.
Qed.

Lemma check_in_unavailable_slot_witness :
  snd (post_check_in (at_time 2000) (arrival "XYZ789") parked_db) = parked_db
  /\ (required_fields_missing (arrival "XYZ789") = false ->
      fst (post_check_in (at_time 2000) (arrival "XYZ789") parked_db)
      = slot_unavailable)
  /\ (required_fields_missing (arrival "XYZ789") = true ->
      fst (post_check_in (at_time 2000) (arrival "XYZ789") parked_db)
      = validation_error).
Proof.
  apply (check_in_unavailable_slot (at_time 2000) (arrival "XYZ789") parked_db 1).
  - reflexivity.
  - intros sl H. vm_compute in H. inversion H; subst. simpl. discriminate.
Defined.

End CheckIn.

(** ** Shifts *)

Module Shifts.
Import Schema Sql Billing Http Cashier Lifecycle.

(** C5 (the code at the failing input). A cashier with an open shift opens
    a shift again on the same day: the second request is not refused, it
    succeeds like the first and leaves two open shifts for the same cashier
    and date. *)
Theorem second_shift_open_goes_through :
  let '(r1, s1) := post_shift_open (at_time 1000) opening fresh_db in
  let '(r2, s2) := post_shift_open (at_time 2000) opening s1 in
  date_today (at_time 1000) = date_today (at_time 2000)
  /\ r1 = shift_opened
  /\ map shift_id (open_shifts s1 2 0) = [1]
  /\ r2 = shift_opened
  /\ map shift_id (open_shifts s2 2 0) = [1; 2]
  /\ exec shift_opened_twice fresh_db = ([r1; r2], s2).
Proof.
  vm_compute. repeat split.
Qed.

End Shifts.

(** ** Slot occupancy *)

Module Occupancy.
Import Schema Sql Billing Http Cashier Lifecycle Frames.

Lemma slot_status_eqb_spec (a b : slot_status) :
  slot_status_eqb a b = true <-> a = b.
Proof.
  destruct a, b; simpl; split; intros H; try reflexivity; discriminate.
Qed.

(** The executable invariant decides the stated one. *)
Lemma slot_invariantb_spec (s : db) :
  slot_invariantb s = true <-> slot_invariant s.
Proof.
  unfold slot_invariantb, slot_invariant. rewrite forallb_forall.
  split; intros H sl Hin; specialize (H sl Hin).
  - apply Bool.eqb_prop in H.
    rewrite <- slot_status_eqb_spec, <- Nat.eqb_eq, H. tauto.
  - destruct (slot_status_eqb (status sl) occupied) eqn:E1;
      destruct (Nat.eqb (List.length (open_tickets s (slot_id sl))) 1) eqn:E2;
      try reflexivity; exfalso.
    + apply slot_status_eqb_spec in E1. apply H in E1.
      apply Nat.eqb_eq in E1. congruence.
    + apply Nat.eqb_eq in E2. apply H in E2.
      apply slot_status_eqb_spec in E2. congruence.
Qed.

(** Closing the one ticket of a given id removes it from the open tickets
    of its slot and leaves the other slots' counts as they were. *)
Lemma close_ticket_count (l : list ticket) (id ts : Z) (d c : Q) (t : ticket) (x : Z) :
  NoDup (map ticket_id l) -> In t l -> ticket_id t = id ->
  check_out_time t = None ->
  List.length
    (filter (fun t0 => (t_slot_id t0 =? x)
                       && match check_out_time t0 with None => true | Some _ => false end) l)
  = Nat.add
      (List.length
         (filter (fun t0 => (t_slot_id t0 =? x)
                            && match check_out_time t0 with None => true | Some _ => false end)
                 (map (fun t0 => if ticket_id t0 =? id then paid_row t0 ts d c else t0) l)))
      (if t_slot_id t =? x then 1%nat else 0%nat).
Proof.
  intros Hnd Hin Hid Hopen.
  induction l as [|a l IH]; [destruct Hin|].
  simpl in Hnd. inversion Hnd as [|? ? Hnot Hnd']; subst.
  destruct Hin as [->|Hin].
  - (* the ticket itself: it is closed, and no other row carries its id *)
    assert (Hsame : map (fun t0 => if ticket_id t0 =? ticket_id t
                                   then paid_row t0 ts d c else t0) l = l).
    { rewrite <- (map_id l) at 2. apply map_ext_in. intros y Hy.
      destruct (ticket_id y =? ticket_id t) eqn:E; [|reflexivity].
      apply Z.eqb_eq in E. exfalso. apply Hnot. rewrite <- E.
      apply in_map. exact Hy. }
    simpl. rewrite Z.eqb_refl, Hsame. simpl. rewrite Hopen.
    rewrite andb_false_r, andb_true_r.
    destruct (t_slot_id t =? x); simpl; lia.
  - (* another row: it keeps its state *)
    assert (Hne : (ticket_id a =? ticket_id t) = false).
    { apply Z.eqb_neq. intros E. apply Hnot. rewrite E. apply in_map. exact Hin. }
    simpl. rewrite Hne. specialize (IH Hnd' Hin).
    destruct ((t_slot_id a =? x) && _); simpl; lia.
Qed.

Lemma occupancy_slot_invariant (s : db) : occupancy s -> slot_invariant s.
Proof.
  intros H sl Hin. destruct (H sl Hin) as [[A B]|[A B]]; rewrite B; split;
    intros X; try assumption; try reflexivity; try contradiction; discriminate.
Qed.

Lemma insert_or_replace_vehicle_slots s plate mk mdl col yr owner ophone oemail s1 vid :
  insert_or_replace_vehicle s plate mk mdl col yr owner ophone oemail = Ok (s1, vid) ->
  parking_slots s1 = parking_slots s.
Proof.
  unfold insert_or_replace_vehicle. destruct (fk_ok s _); [|discriminate].
  intros H. inversion H. reflexivity.
Qed.

Lemma insert_or_replace_driver_slots s name ph em idn lic addr s2 did :
  insert_or_replace_driver s name ph em idn lic addr = Ok (s2, did) ->
  parking_slots s2 = parking_slots s.
Proof.
  unfold insert_or_replace_driver. intros H. inversion H. reflexivity.
Qed.

Lemma insert_ticket_slots s number slotId vid did cid ts s3 tid :
  insert_ticket s number slotId vid did cid ts = Ok (s3, tid) ->
  parking_slots s3 = parking_slots s
  /\ tid = lastID ticket_id (parking_tickets_seq s) (parking_tickets s).
Proof.
  unfold insert_ticket.
  destruct (existsb _ (parking_tickets s)); [discriminate|].
  destruct (fk_ok s _); [|discriminate].
  intros H. inversion H. split; reflexivity.
Qed.

(** The tickets and slots after a check-in that went through with its slot
    update. *)
Lemma post_check_in_effect e b s tid s' :
  post_check_in e b s = (checked_in tid, s') ->
  io_err e 4 = false ->
  exists slotId sl t,
    select_slot s slotId = Some sl /\ status sl = vacant
    /\ parking_tickets s' = parking_tickets s ++ [t]
    /\ ticket_id t = tid /\ t_slot_id t = slotId /\ check_out_time t = None
    /\ ~ In tid (map ticket_id (parking_tickets s))
    /\ parking_slots s'
       = map (fun r => if slot_id r =? slotId then
                         {| slot_id := slot_id r; slot_number := slot_number r;
                            status := occupied; hourly_rate := hourly_rate r |}
                       else r) (parking_slots s).
Proof.
  intros Hrun Hio.
  destruct (CheckIn.post_check_in_success _ _ _ _ _ Hrun)
    as (slotId & sl & s1 & vid & s2 & did & s3 & s4
        & _ & Hsl & Hvac & E1 & E2 & E3 & E4 & E5).
  pose proof (insert_or_replace_vehicle_slots _ _ _ _ _ _ _ _ _ _ _ E1) as L1.
  pose proof (insert_or_replace_driver_slots _ _ _ _ _ _ _ _ _ E2) as L2.
  pose proof (insert_ticket_slots _ _ _ _ _ _ _ _ _ E3) as [L3 Htid].
  apply CheckIn.insert_or_replace_vehicle_rows in E1 as (_ & _ & T1 & Q1 & _).
  apply CheckIn.insert_or_replace_driver_rows in E2 as (_ & T2 & Q2).
  apply CheckIn.insert_ticket_rows in E3 as (_ & t & T3 & Ht & _ & Hslot & Hopen & _).
  apply audit_then_rows in E5 as (T5 & _ & L5 & _).
  destruct E4 as [[E4 _]|[_ E4]]; [congruence|].
  apply update_slot_status_rows in E4 as (T4 & _ & _ & L4).
  exists slotId, sl, t. repeat split; try assumption.
  - rewrite T5, T4, T3, T2, T1. reflexivity.
  - intros Hin. apply in_map_iff in Hin as (y & Hy & Hin).
    rewrite <- T1, <- T2 in Hin.
    pose proof (CheckIn.lastID_fresh ticket_id (parking_tickets_seq s2) _ _ Hin).
    lia.
  - rewrite L5, L4, L3, L2, L1. reflexivity.
Qed.

Lemma check_in_keeps_occupancy e b s tid s' :
  occupancy s ->
  post_check_in e b s = (checked_in tid, s') ->
  io_err e 4 = false ->
  occupancy s'.
Proof.
  intros Hocc Hrun Hio.
  destruct (post_check_in_effect _ _ _ _ _ Hrun Hio)
    as (slotId & sl0 & t & Hsl & Hvac & HT & _ & Hslot & Hopen & _ & HL).
  assert (Hfree : List.length (open_tickets s slotId) = 0%nat).
  { pose proof Hsl as Hsl'. apply find_some in Hsl' as [Hin Hid].
    apply Z.eqb_eq in Hid.
    destruct (Hocc sl0 Hin) as [[A _]|[_ B]]; [congruence|].
    rewrite Hid in B. exact B. }
  assert (Hcount : forall x,
             List.length (open_tickets s' x)
             = Nat.add (List.length (open_tickets s x))
                       (if slotId =? x then 1%nat else 0%nat)).
  { intros x. unfold open_tickets. rewrite HT, filter_app, length_app.
    simpl. rewrite Hslot, Hopen, andb_true_r.
    destruct (slotId =? x); reflexivity. }
  intros sl' Hin'. rewrite HL in Hin'.
  apply in_map_iff in Hin' as (sl & <- & Hin).
  destruct (slot_id sl =? slotId) eqn:E.
  - left. simpl. split; [reflexivity|].
    apply Z.eqb_eq in E. rewrite Hcount, E, Z.eqb_refl, Hfree. reflexivity.
  - rewrite Hcount. rewrite Z.eqb_sym, E, Nat.add_0_r. apply Hocc. exact Hin.
Qed.

Lemma check_in_keeps_unique_ids e b s tid s' :
  unique_ticket_ids s ->
  post_check_in e b s = (checked_in tid, s') ->
  io_err e 4 = false ->
  unique_ticket_ids s'.
Proof.
  intros Hu Hrun Hio.
  destruct (post_check_in_effect _ _ _ _ _ Hrun Hio)
    as (slotId & sl0 & t & _ & _ & HT & Hid & _ & _ & Hfresh & _).
  unfold unique_ticket_ids in *. rewrite HT, map_app. simpl.
  apply NoDup_app; [exact Hu | constructor; [intros [] | constructor] |].
  intros a Ha [<-|[]]. rewrite Hid in Ha. contradiction.
Qed.

(** The tickets and slots after a check-out that went through with its slot
    update. *)
Lemma post_check_out_effect e id b s t ps s' :
  select_ticket_join_slot s id = Some (t, ps) ->
  post_check_out e id b s = (checked_out id, s') ->
  io_err e 3 = false ->
  parking_tickets s'
  = map (fun t0 => if ticket_id t0 =? id then
                     paid_row t0 (current_timestamp e)
                       (diff_hours (moment_now e) (check_in_time t))
                       (totalCost (diff_hours (moment_now e) (check_in_time t))
                                  (hourly_rate ps))
                   else t0) (parking_tickets s)
  /\ parking_slots s'
     = map (fun r => if slot_id r =? slot_id ps then
                       {| slot_id := slot_id r; slot_number := slot_number r;
                          status := vacant; hourly_rate := hourly_rate r |}
                     else r) (parking_slots s).
Proof.
  intros Hsel Hrun Hio.
  destruct (Settlement.post_check_out_success _ _ _ _ _ _ _ Hsel Hrun)
    as (s1 & s2 & pid & s3 & H1 & H2 & H3 & H4).
  apply update_ticket_paid_tickets in H1 as (T1 & _ & L1 & _).
  apply insert_payment_rows in H2 as (_ & T2 & L2 & _).
  apply audit_then_rows in H4 as (T4 & _ & L4 & _).
  destruct H3 as [[H3 _]|[_ H3]]; [congruence|].
  apply update_slot_status_rows in H3 as (T3 & _ & _ & L3).
  split.
  - rewrite T4, T3, T2, T1. reflexivity.
  - rewrite L4, L3, L2, L1. reflexivity.
Qed.

Lemma check_out_keeps_occupancy e id b s t s' :
  occupancy s -> unique_ticket_ids s ->
  select_ticket s id = Some t -> check_out_time t = None ->
  post_check_out e id b s = (checked_out id, s') ->
  io_err e 3 = false ->
  occupancy s' /\ unique_ticket_ids s'.
Proof.
  intros Hocc Hu Ht Hopen Hrun Hio.
  assert (Hjoin : exists ps, select_ticket_join_slot s id = Some (t, ps)).
  { revert Hrun. unfold post_check_out, get, select_ticket_join_slot, checked_out.
    rewrite Ht.
    destruct (falsy _); [discriminate|]. destruct (io_err e 0); [discriminate|].
    destruct (select_slot s (t_slot_id t)) as [ps|]; [|discriminate].
    intros _. exists ps. reflexivity. }
  destruct Hjoin as [ps Hsel].
  destruct (post_check_out_effect _ _ _ _ _ _ _ Hsel Hrun Hio) as [HT HL].
  assert (Hps : t_slot_id t = slot_id ps).
  { unfold select_ticket_join_slot in Hsel. rewrite Ht in Hsel.
    destruct (select_slot s (t_slot_id t)) as [ps0|] eqn:E; [|discriminate].
    inversion Hsel; subst. apply find_some in E as [_ E].
    apply Z.eqb_eq in E. symmetry. exact E. }
  pose proof Ht as Ht'. apply find_some in Ht' as [Hin Hid]. apply Z.eqb_eq in Hid.
  assert (Hcount : forall x,
             List.length (open_tickets s x)
             = Nat.add (List.length (open_tickets s' x))
                       (if t_slot_id t =? x then 1%nat else 0%nat)).
  { intros x. unfold open_tickets. rewrite HT.
    apply close_ticket_count; assumption. }
  split.
  - intros sl' Hin'. rewrite HL in Hin'.
    apply in_map_iff in Hin' as (sl & <- & Hsl).
    specialize (Hcount (slot_id sl)). rewrite Hps in Hcount.
    destruct (slot_id sl =? slot_id ps) eqn:E.
    + right. simpl. split; [discriminate|].
      rewrite Z.eqb_sym, E in Hcount.
      destruct (Hocc sl Hsl) as [[_ B]|[_ B]]; lia.
    + rewrite Z.eqb_sym, E, Nat.add_0_r in Hcount. rewrite <- Hcount.
      apply Hocc. exact Hsl.
  - unfold unique_ticket_ids in *. rewrite HT, map_map.
    erewrite map_ext; [exact Hu|].
    intros a. simpl. destruct (ticket_id a =? id); reflexivity.
Qed.

Lemma get_receipt_frame e id s r s' :
  get_receipt e id s = (r, s') ->
  parking_tickets s' = parking_tickets s /\ parking_slots s' = parking_slots s.
Proof.
  unfold get_receipt, get, run.
  destruct (io_err e 0); [answered|].
  destruct (select_ticket s id) as [t|]; [|answered].
  destruct (negb _); [answered|].
  destruct (io_err e 1); [answered|].
  destruct (select_payment s id) as [p|] eqn:Ep.
  - intros H. apply Recovery.render_receipt_db in H. subst. auto.
  - destruct (recovery_amount e id t s) as [amt|x]; [|answered].
    destruct (io_err e 3); [answered|].
    destruct (insert_payment _ _ _ _ _ _ _ _) as [[s1 pid]|x] eqn:Ei; [|answered].
    intros H. apply Recovery.render_receipt_db in H. subst s'.
    apply insert_payment_rows in Ei as (_ & A & B & _). auto.
Qed.

Lemma post_shift_open_frame e b s r s' :
  post_shift_open e b s = (r, s') ->
  parking_tickets s' = parking_tickets s /\ parking_slots s' = parking_slots s.
Proof.
  unfold post_shift_open, run, insert_shift, insert_audit_log.
  destruct (io_err e 0); [answered|].
  destruct (fk_ok s _); [|answered].
  destruct (io_err e 1); [answered|].
  match goal with |- context [fk_ok ?x ?y] => destruct (fk_ok x y) end; answered.
Qed.

Lemma frame_keeps_occupancy s s' :
  parking_tickets s' = parking_tickets s -> parking_slots s' = parking_slots s ->
  occupancy s /\ unique_ticket_ids s -> occupancy s' /\ unique_ticket_ids s'.
Proof.
  unfold occupancy, unique_ticket_ids, open_tickets.
  intros -> ->. tauto.
Qed.

(** Along an orderly run the occupancy invariant is kept: it is the
    check-out of a ticket that is no longer open, or a check-out cut short
    after its ticket update, that breaks it. *)
Lemma orderly_run_keeps_occupancy qs s :
  occupancy s -> unique_ticket_ids s -> orderly_run qs s ->
  slot_invariant (snd (exec qs s)).
Proof.
  revert s. induction qs as [|q qs IH]; intros s Hocc Hu Hrun.
  - simpl. apply occupancy_slot_invariant. exact Hocc.
  - simpl in Hrun. destruct Hrun as [Hq Hrun]. simpl.
    destruct (step q s) as [r s1] eqn:Es. simpl in Hrun.
    destruct (exec qs s1) as [rs s2] eqn:Ex. simpl.
    assert (Hs1 : occupancy s1 /\ unique_ticket_ids s1).
    { destruct q as [e b|e id b|e id|e b]; simpl in Es, Hq.
      - destruct Hq as [Hio [tid Hr]]. rewrite Es in Hr. simpl in Hr. subst r.
        split; [eapply check_in_keeps_occupancy | eapply check_in_keeps_unique_ids];
          eauto.
      - destruct Hq as (Hio & Hr & t & Ht & Hopen). rewrite Es in Hr.
        simpl in Hr. subst r. eapply check_out_keeps_occupancy; eauto.
      - apply get_receipt_frame in Es as [A B].
        apply (frame_keeps_occupancy s s1 A B). split; assumption.
      - apply post_shift_open_frame in Es as [A B].
        apply (frame_keeps_occupancy s s1 A B). split; assumption. }
    destruct Hs1 as [Hocc1 Hu1].
    specialize (IH s1 Hocc1 Hu1 Hrun). rewrite Ex in IH. exact IH.
Qed.

Example orderly_prefix :
  occupancy fresh_db /\ unique_ticket_ids fresh_db
  /\ orderly_run (firstn 3 resubmitted_check_out) fresh_db
  /\ ~ orderly_run resubmitted_check_out fresh_db.
Proof.
  split; [|split; [|split]].
  - intros sl [<-|[]]. right. simpl. split; [discriminate | reflexivity].
  - constructor.
  - vm_compute. repeat split; eexists; try reflexivity. split; reflexivity.
  - vm_compute. intros (_ & _ & _ & (_ & _ & t & Ht & Hopen) & _).
    inversion Ht; subst. discriminate.
Qed.

(** C8 (the code at the failing input). From the initial database, where
    the invariant holds: a vehicle checks in and out of A01, a second
    vehicle checks in, and the check-out of the first, already settled,
    ticket is submitted again.  Every request succeeds; the invariant holds
    after the first three and fails after the fourth, which frees the slot
    while the second ticket is still open on it. *)
Theorem resubmitted_check_out_frees_occupied_slot :
  slot_invariant fresh_db
  /\ fst (exec resubmitted_check_out fresh_db)
     = [checked_in 1; checked_out 1; checked_in 2; checked_out 1]
  /\ slot_invariantb (snd (exec (firstn 1 resubmitted_check_out) fresh_db)) = true
  /\ slot_invariantb (snd (exec (firstn 2 resubmitted_check_out) fresh_db)) = true
  /\ slot_invariantb (snd (exec (firstn 3 resubmitted_check_out) fresh_db)) = true
  /\ option_map status (select_slot (snd (exec resubmitted_check_out fresh_db)) 1)
     = Some vacant
  /\ map ticket_id (open_tickets (snd (exec resubmitted_check_out fresh_db)) 1) = [2]
  /\ ~ slot_invariant (snd (exec resubmitted_check_out fresh_db)).
Proof.
  split.
  { apply slot_invariantb_spec. vm_compute. reflexivity. }
  repeat split; try (vm_compute; reflexivity).
  intros H. apply slot_invariantb_spec in H. vm_compute in H. discriminate.
Qed.

(** The rejected Payment insert breaks the invariant from the other side:
    the slot stays occupied without an open ticket. *)
Example rejected_payment_strands_slot :
  slot_invariantb parked_db = true
  /\ option_map status (select_slot unpaid_db 1) = Some occupied
  /\ open_tickets unpaid_db 1 = []
  /\ slot_invariantb unpaid_db = false.
Proof.
  vm_compute. repeat split.
Qed.

End Occupancy.

(** * Further properties of the routes *)

From Stdlib Require Import Lqa.
Open Scope string_scope.
Open Scope list_scope.
Open Scope Z_scope.

Module BillingLaws.
Import Schema Sql Billing Http Cashier Lifecycle Frames Coverage.

Lemma Math_ceil_bounds (d : Q) : (d <= Math_ceil d /\ Math_ceil d < d + 1)%Q.
Proof.
  unfold Math_ceil. split; [apply Qle_ceiling|].
  pose proof (Qceiling_lt d) as H.
  replace (Qceiling d - 1)%Z with (Qceiling d + -1)%Z in H by lia.
  rewrite inject_Z_plus in H. change (inject_Z (-1)) with (-1 # 1)%Q in H. lra.
Qed.

Lemma Math_ceil_le (d1 d2 : Q) : (d1 <= d2)%Q -> (Math_ceil d1 <= Math_ceil d2)%Q.
Proof.
  intros H. unfold Math_ceil. rewrite <- Zle_Qle. apply Qceiling_resp_le. exact H.
Qed.

Lemma Math_ceil_whole (n : Z) : Math_ceil (inject_Z n) = inject_Z n.
Proof. unfold Math_ceil. rewrite Qceiling_Z. reflexivity. Qed.

(** X1. For a positive hourly rate the amount charged, [ceil(d) * rate], is
    never below the time-proportional cost [d * rate] and exceeds it by less
    than one hour's rate. *)
Theorem charge_within_one_hour_of_time (d r : Q) :
  (0 < r)%Q ->
  (d * r <= totalCost d (Some r))%Q /\ (totalCost d (Some r) < d * r + r)%Q.
Proof.
  intros Hr. unfold totalCost, to_number.
  destruct (Math_ceil_bounds d) as [H1 H2]. split; nra.
Qed.

Lemma charge_within_one_hour_of_time_witness :
  ((6 # 5) * 5 <= totalCost (6 # 5) (Some 5%Q))%Q
  /\ (totalCost (6 # 5) (Some 5%Q) < (6 # 5) * 5 + 5)%Q.
Proof.
  apply (charge_within_one_hour_of_time (6 # 5) 5). reflexivity.
Defined.

(** X2. For a non-negative hourly rate the amount charged never decreases
    when the stay gets longer; a stay of exactly [n] hours is charged [n]
    hours, and any stay longer than [n] hours and of at most [n + 1] hours
    is charged [n + 1] hours. *)
Theorem charge_grows_with_duration (d1 d2 r : Q) (n : Z) :
  (0 <= r)%Q ->
  ((d1 <= d2)%Q -> (totalCost d1 (Some r) <= totalCost d2 (Some r))%Q)
  /\ (d1 == inject_Z n -> totalCost d1 (Some r) == inject_Z n * r)
  /\ ((inject_Z n < d1)%Q -> (d1 <= inject_Z (n + 1))%Q ->
      totalCost d1 (Some r) == inject_Z (n + 1) * r).
Proof.
  intros Hr. unfold totalCost, to_number. split; [|split].
  - intros H. apply Math_ceil_le in H. nra.
  - intros H. unfold Math_ceil. rewrite H, Qceiling_Z. reflexivity.
  - intros H1 H2.
    assert (E : Qceiling d1 = (n + 1)%Z).
    { pose proof (Qle_ceiling d1) as A. pose proof (Qceiling_lt d1) as B.
      apply Qceiling_resp_le in H2. rewrite Qceiling_Z in H2.
      assert (inject_Z n < inject_Z (Qceiling d1))%Q by lra.
      rewrite <- Zlt_Qlt in H. lia. }
    unfold Math_ceil. rewrite E. reflexivity.
Qed.

Lemma charge_grows_with_duration_witness :
  (((1 # 2) <= (6 # 5))%Q ->
   (totalCost (1 # 2) (Some 5%Q) <= totalCost (6 # 5) (Some 5%Q))%Q)
  /\ ((1 # 2) == inject_Z 0 -> totalCost (1 # 2) (Some 5%Q) == inject_Z 0 * 5)
  /\ ((inject_Z 0 < (1 # 2))%Q -> ((1 # 2) <= inject_Z (0 + 1))%Q ->
      totalCost (1 # 2) (Some 5%Q) == inject_Z (0 + 1) * 5).
Proof.
  apply (charge_grows_with_duration (1 # 2) (6 # 5) 5 0). discriminate.
Defined.

End BillingLaws.

Module CheckOutPaths.
Import Schema Sql Billing Http Cashier Lifecycle Frames Coverage.

Lemma details_join_slot s id pt ps v d :
  select_ticket_details s id = Some (pt, ps, v, d) ->
  select_ticket_join_slot s id = Some (pt, ps).
Proof.
  unfold select_ticket_details, select_ticket_join_slot.
  destruct (select_ticket s id) as [t|]; [|discriminate].
  destruct (select_slot s (t_slot_id t)) as [sl|]; [|discriminate].
  destruct (select_vehicle s (t_vehicle_id t)); [|discriminate].
  destruct (select_driver s (t_driver_id t)); [|discriminate].
  intros H. inversion H. reflexivity.
Qed.

(** X3. A check-out whose clock is not past the stored check-in time, as
    the server reads it back, is not refused.  With the ticket found, a
    payment method the payments table accepts, a receipt number not in use,
    a known cashier and no storage error it goes through and writes a
    Payment row whose amount is zero or negative, strictly negative once the
    clock is an hour or more behind the check-in time (positive rate).  On a
    server west of UTC this is every stay shorter than the offset. *)
Theorem check_out_before_check_in_time e id b s t ps rate :
  select_ticket_join_slot s id = Some (t, ps) ->
  hourly_rate ps = Some rate -> (0 < rate)%Q ->
  moment_now e <= check_in_time t ->
  (forall n, io_err e n = false) ->
  payment_method_check (payment_method_field b) = true ->
  existsb (fun p => receipt_number p =? date_now e) (payments s) = false ->
  fk_ok s (has_user s (session_user e)) = true ->
  exists s' p,
    post_check_out e id b s = (checked_out id, s')
    /\ payments s' = payments s ++ [p] /\ p_ticket_id p = id
    /\ (amount p <= 0)%Q
    /\ (moment_now e + 3600000 <= check_in_time t -> (amount p < 0)%Q).
Proof.
  intros Hsel Hrate Hpos Hnow Hio Hpm Hrn Hfk.
  destruct (Settlement.post_check_out_goes_through _ _ _ _ _ _ Hio Hsel Hpm Hrn Hfk)
    as [s' Hrun].
  destruct (Settlement.post_check_out_written _ _ _ _ _ _ _ Hsel Hrun)
    as [_ [pid Hp]].
  exists s'. eexists. split; [exact Hrun|]. split; [exact Hp|].
  split; [reflexivity|]. simpl.
  unfold totalCost, Math_ceil. rewrite Hrate. simpl to_number.
  set (d := diff_hours (moment_now e) (check_in_time t)).
  assert (H0 : (Qceiling d <= 0)%Z).
  { assert (Hd : (d <= inject_Z 0)%Q).
    { unfold d, diff_hours, Qle. simpl. lia. }
    apply Qceiling_resp_le in Hd. rewrite Qceiling_Z in Hd. exact Hd. }
  split.
  - assert (inject_Z (Qceiling d) <= 0)%Q.
    { change 0%Q with (inject_Z 0). rewrite <- Zle_Qle. exact H0. }
    nra.
  - intros Hhour.
    assert (H1 : (Qceiling d <= -1)%Z).
    { assert (Hd : (d <= inject_Z (-1))%Q).
      { unfold d, diff_hours, Qle. simpl. lia. }
      apply Qceiling_resp_le in Hd. rewrite Qceiling_Z in Hd. exact Hd. }
    assert (inject_Z (Qceiling d) <= -1)%Q.
    { change (-1)%Q with (inject_Z (-1)). rewrite <- Zle_Qle. exact H1. }
    nra.
Qed.

Lemma check_out_before_check_in_time_witness :
  exists s' p,
    post_check_out (server new_york 2 (fun _ => false) 4321000) 1 (pay "cash")
      parked_in_new_york
    = (checked_out 1, s')
    /\ payments s' = payments parked_in_new_york ++ [p]
    /\ p_ticket_id p = 1
    /\ (amount p < 0)%Q.
Proof.
  destruct (check_out_before_check_in_time
              (server new_york 2 (fun _ => false) 4321000) 1 (pay "cash")
              parked_in_new_york
              {| ticket_id := 1; ticket_number := 1000; t_slot_id := 1;
                 t_vehicle_id := 1; t_driver_id := 1; t_cashier_id := 2;
                 check_in_time := 18001000; check_out_time := None;
                 duration_hours := None; total_amount := None;
                 t_payment_status := pending |}
              (slot_A01 occupied) 5)
    as (s' & p & H1 & H2 & H3 & _ & H5).
  - vm_compute. reflexivity.
  - reflexivity.
  - reflexivity.
  - vm_compute. discriminate.
  - reflexivity.
  - reflexivity.
  - reflexivity.
  - reflexivity.
  - exists s', p. repeat split; try assumption. apply H5. vm_compute. discriminate.
Defined.

(** X4. At one and the same clock, the ticket page, the check-out page and
    the JSON check-out endpoint all quote, for an unpaid ticket, the amount
    that the check-out then writes on the Payment row; the duration they
    show beside it is the text of [durationHours.toFixed(2)]. *)
Theorem quotes_match_charge e id b s pt ps v d s' :
  io_err e 0 = false ->
  date_now e = moment_now e ->
  select_ticket_details s id = Some (pt, ps, v, d) ->
  t_payment_status pt <> paid ->
  get_ticket e id s
  = render "cashier/ticket"
      (page_ticket (pt, ps, v, d)
         (toFixed (binary64 (diff_hours (moment_now e) (check_in_time pt))) 2)
         (totalCost (diff_hours (moment_now e) (check_in_time pt)) (hourly_rate ps)))
  /\ get_check_out e id s
     = render "cashier/check-out-ticket"
         (page_check_out_ticket (pt, ps, v, d)
            (toFixed (binary64 (diff_hours (moment_now e) (check_in_time pt))) 2)
            (totalCost (diff_hours (moment_now e) (check_in_time pt)) (hourly_rate ps)))
  /\ Api.get_tickets_checkout e id s
     = json_ticket (pt, ps, v, d)
         (toFixed (binary64 (diff_hours (moment_now e) (check_in_time pt))) 2)
         (totalCost (diff_hours (moment_now e) (check_in_time pt)) (hourly_rate ps))
  /\ (post_check_out e id b s = (checked_out id, s') ->
      exists pid,
        payments s'
        = payments s ++
          [payment_row e pid id
             (totalCost (diff_hours (moment_now e) (check_in_time pt)) (hourly_rate ps))
             b]).
Proof.
  intros Hio Hclock Hsel Hpend. split; [|split; [|split]].
  - unfold get_ticket, get. rewrite Hio, Hsel. reflexivity.
  - unfold get_check_out, get. rewrite Hio, Hsel.
    destruct (t_payment_status pt); try reflexivity. congruence.
  - unfold Api.get_tickets_checkout, get. rewrite Hio, Hsel, Hclock. reflexivity.
  - intros Hrun. apply details_join_slot in Hsel.
    destruct (Settlement.post_check_out_written _ _ _ _ _ _ _ Hsel Hrun)
      as [_ [pid Hp]].
    exists pid. exact Hp.
Qed.

Lemma quotes_match_charge_witness :
  get_check_out (at_time 55000) 1 parked_db
  = render "cashier/check-out-ticket"
      (page_check_out_ticket
         (parked_ticket, slot_A01 occupied, vehicle_row 1 (arrival "ABC123"),
          driver_row 1 (arrival "ABC123"))
         "0.01" 5)
  /\ Api.get_tickets_checkout (at_time 5001000) 1 parked_db
     = json_ticket
         (parked_ticket, slot_A01 occupied, vehicle_row 1 (arrival "ABC123"),
          driver_row 1 (arrival "ABC123"))
         "1.39" 10
  /\ exists pid,
       payments (snd (post_check_out (at_time 5001000) 1 (pay "cash") parked_db))
       = payments parked_db ++
         [payment_row (at_time 5001000) pid 1 10 (pay "cash")].
Proof.
  destruct (quotes_match_charge (at_time 55000) 1 (pay "cash") parked_db
              parked_ticket (slot_A01 occupied) (vehicle_row 1 (arrival "ABC123"))
              (driver_row 1 (arrival "ABC123"))
              (snd (post_check_out (at_time 55000) 1 (pay "cash") parked_db)))
    as (_ & H & _ & _).
  - reflexivity.
  - reflexivity.
  - vm_compute. reflexivity.
  - discriminate.
  - destruct (quotes_match_charge (at_time 5001000) 1 (pay "cash") parked_db
                parked_ticket (slot_A01 occupied)
                (vehicle_row 1 (arrival "ABC123"))
                (driver_row 1 (arrival "ABC123"))
                (snd (post_check_out (at_time 5001000) 1 (pay "cash") parked_db)))
      as (_ & _ & J & K).
    + reflexivity.
    + reflexivity.
    + vm_compute. reflexivity.
    + discriminate.
    + split; [exact H|]. split; [exact J|]. apply K. vm_compute. reflexivity.
Defined.

(** X5. When the Payment insert of a check-out is rejected (a payment
    method outside cash, mfs and card, a receipt number already in use, as
    for two check-outs in the same millisecond, an unknown cashier under
    foreign keys, or a storage error), the request is answered with the
    payment error while the ticket stays marked paid with its amount; no
    Payment row, slot change or audit record is written. *)
Theorem rejected_payment_leaves_ticket_paid e id b s t ps r s' :
  falsy (payment_method_field b) = false ->
  io_err e 0 = false -> io_err e 1 = false ->
  select_ticket_join_slot s id = Some (t, ps) ->
  payment_method_check (payment_method_field b) = false
  \/ existsb (fun p => receipt_number p =? date_now e) (payments s) = true
  \/ (foreign_keys s = true /\ has_user s (session_user e) = false)
  \/ io_err e 2 = true ->
  post_check_out e id b s = (r, s') ->
  r = payment_failed id
  /\ select_ticket s' id
     = Some (paid_row t (current_timestamp e)
               (diff_hours (moment_now e) (check_in_time t))
               (totalCost (diff_hours (moment_now e) (check_in_time t))
                          (hourly_rate ps)))
  /\ payments s' = payments s
  /\ parking_slots s' = parking_slots s
  /\ audit_logs s' = audit_logs s.
Proof.
  intros Hm H0 H1 Hsel Hwhy. unfold post_check_out, get, run.
  rewrite Hm, H0, Hsel, H1.
  destruct (update_ticket_paid s id (current_timestamp e)
              (diff_hours (moment_now e) (check_in_time t))
              (totalCost (diff_hours (moment_now e) (check_in_time t))
                         (hourly_rate ps))) as [s1|x] eqn:E1;
    [|discriminate E1].
  destruct (Settlement.join_slot_parts _ _ _ _ Hsel) as [Ht _].
  pose proof (select_ticket_paid _ _ _ _ _ _ _ E1 Ht) as Ht1.
  apply update_ticket_paid_tickets in E1 as (_ & P1 & L1 & U1 & F1 & _ & A1).
  assert (Hfail : io_err e 2 = true
                  \/ exists x, insert_payment s1 id
                       (totalCost (diff_hours (moment_now e) (check_in_time t))
                                  (hourly_rate ps))
                       (payment_method_field b) (reference_number_field b)
                       (session_user e) (date_now e) (notes_field b) = Err x).
  { destruct Hwhy as [Hc|[Hu|[[Hf Hu]|Hio]]]; [right|right|right|left; exact Hio];
      unfold insert_payment.
    - rewrite Hc. simpl. eexists; reflexivity.
    - destruct (payment_method_check _); simpl; [|eexists; reflexivity].
      rewrite P1, Hu. eexists; reflexivity.
    - destruct (payment_method_check _); simpl; [|eexists; reflexivity].
      destruct (existsb _ (payments s1)); [eexists; reflexivity|].
      unfold fk_ok, has_user. rewrite F1, U1, Hf.
      unfold has_user in Hu. rewrite Hu, andb_false_r. simpl.
      eexists; reflexivity. }
  intros Hrun.
  assert (Hres : (r, s') = (payment_failed id, s1)).
  { destruct Hfail as [Hio|[x Hx]].
    - rewrite Hio in Hrun. symmetry. exact Hrun.
    - rewrite Hx in Hrun. destruct (io_err e 2); symmetry; exact Hrun. }
  inversion Hres; subst. repeat split; assumption.
Qed.

Lemma rejected_payment_leaves_ticket_paid_witness :
  fst (post_check_out (at_time 4321000) 1 (pay "bitcoin") parked_db)
  = payment_failed 1
  /\ payments (snd (post_check_out (at_time 4321000) 1 (pay "bitcoin") parked_db))
     = payments parked_db.
Proof.
  destruct (rejected_payment_leaves_ticket_paid (at_time 4321000) 1
              (pay "bitcoin") parked_db parked_ticket (slot_A01 occupied)
              (fst (post_check_out (at_time 4321000) 1 (pay "bitcoin") parked_db))
              (snd (post_check_out (at_time 4321000) 1 (pay "bitcoin") parked_db)))
    as (H1 & _ & H2 & _).
  - reflexivity.
  - reflexivity.
  - reflexivity.
  - vm_compute. reflexivity.
  - left. reflexivity.
  - apply surjective_pairing.
  - split; assumption.
Defined.

(** X6. A check-out that ends without any answer although its ticket update
    did not fail (the audit insert failed) has nevertheless marked the
    ticket paid and inserted the Payment row; only the audit record is
    missing. *)
Theorem check_out_without_answer e id b s t ps s' :
  select_ticket_join_slot s id = Some (t, ps) ->
  io_err e 1 = false ->
  post_check_out e id b s = (no_response, s') ->
  select_ticket s' id
  = Some (paid_row t (current_timestamp e)
            (diff_hours (moment_now e) (check_in_time t))
            (totalCost (diff_hours (moment_now e) (check_in_time t))
                       (hourly_rate ps)))
  /\ (exists pid,
        payments s'
        = payments s ++
          [payment_row e pid id
             (totalCost (diff_hours (moment_now e) (check_in_time t))
                        (hourly_rate ps)) b])
  /\ audit_logs s' = audit_logs s.
Proof.
  intros Hsel H1. unfold post_check_out, get, run.
  destruct (falsy _); [discriminate|].
  destruct (io_err e 0); [discriminate|].
  rewrite Hsel, H1.
  destruct (update_ticket_paid s id (current_timestamp e)
              (diff_hours (moment_now e) (check_in_time t))
              (totalCost (diff_hours (moment_now e) (check_in_time t))
                         (hourly_rate ps))) as [s1|x] eqn:E1;
    [|discriminate E1].
  destruct (Settlement.join_slot_parts _ _ _ _ Hsel) as [Ht _].
  pose proof (select_ticket_paid _ _ _ _ _ _ _ E1 Ht) as Ht1.
  apply update_ticket_paid_tickets in E1 as (_ & P1 & _ & _ & _ & _ & A1).
  destruct (io_err e 2); [discriminate|].
  destruct (insert_payment _ _ _ _ _ _ _ _) as [[s2 pid]|x] eqn:E2; [|discriminate].
  assert (A2 : audit_logs s2 = audit_logs s1).
  { unfold insert_payment in E2.
    destruct (negb _); [discriminate|].
    destruct (existsb _ (payments s1)); [discriminate|].
    destruct (fk_ok s1 _); [|discriminate]. inversion E2. reflexivity. }
  apply insert_payment_rows in E2 as (P2 & T2 & _).
  set (s3 := match (if io_err e 3 then Err SQLITE_IOERR
                    else update_slot_status s2 (slot_id ps) vacant) with
             | Ok s3 => s3
             | Err _ => s2
             end).
  assert (H3 : parking_tickets s3 = parking_tickets s2
               /\ payments s3 = payments s2 /\ audit_logs s3 = audit_logs s2).
  { unfold s3. destruct (io_err e 3); [auto|]. simpl. auto. }
  destruct H3 as (T3 & P3 & A3). clearbody s3.
  unfold audit_then, run.
  destruct (io_err e 4).
  - intros H; inversion H; subst. split; [|split].
    + unfold select_ticket in *. rewrite T3, T2. exact Ht1.
    + exists pid. rewrite P3, P2, P1. reflexivity.
    + congruence.
  - destruct (insert_audit_log _ _ _ _ _) as [s4|x]; [discriminate|].
    intros H; inversion H; subst. split; [|split].
    + unfold select_ticket in *. rewrite T3, T2. exact Ht1.
    + exists pid. rewrite P3, P2, P1. reflexivity.
    + congruence.
Qed.

Lemma check_out_without_answer_witness :
  audit_logs (snd (post_check_out (failing_at 4 4321000) 1 (pay "cash") parked_db))
  = audit_logs parked_db
  /\ exists pid,
       payments (snd (post_check_out (failing_at 4 4321000) 1 (pay "cash") parked_db))
       = payments parked_db ++
         [payment_row (failing_at 4 4321000) pid 1
            (totalCost (diff_hours 4321000 1000) (Some 5%Q)) (pay "cash")].
Proof.
  destruct (check_out_without_answer (failing_at 4 4321000) 1 (pay "cash")
              parked_db parked_ticket (slot_A01 occupied)
              (snd (post_check_out (failing_at 4 4321000) 1 (pay "cash") parked_db)))
    as (_ & H1 & H2).
  - vm_compute. reflexivity.
  - reflexivity.
  - vm_compute. reflexivity.
  - split; [exact H2 | exact H1].
Defined.

End CheckOutPaths.

Module CheckInPaths.
Import Schema Sql Billing Http Cashier Lifecycle Frames Coverage.

(** The database a check-in leaves when it answers with the ticket
    redirect, table by table. *)
Lemma post_check_in_success_tables e b s tid s' :
  post_check_in e b s = (checked_in tid, s') ->
  exists slotId sl vid did,
    slot_id_field b = Some slotId
    /\ select_slot s slotId = Some sl /\ status sl = vacant
    /\ vid = lastID vehicle_id (vehicles_seq s) (vehicles s)
    /\ did = lastID driver_id (drivers_seq s) (drivers s)
    /\ tid = lastID ticket_id (parking_tickets_seq s) (parking_tickets s)
    /\ vehicles s'
       = filter (fun v => negb (license_plate v =? license_plate_field b)%string)
                (vehicles s) ++ [vehicle_row vid b]
    /\ drivers s' = drivers s ++ [driver_row did b]
    /\ parking_tickets s'
       = parking_tickets s ++ [ticket_row e tid slotId vid did]
    /\ parking_slots s'
       = (if io_err e 4 then parking_slots s
          else map (fun r => if slot_id r =? slotId then with_status r occupied
                             else r) (parking_slots s))
    /\ payments s' = payments s /\ shifts s' = shifts s
    /\ users s' = users s /\ foreign_keys s' = foreign_keys s
    /\ audit_logs s'
       = audit_logs s ++ [audit_record e "CHECK_IN" "parking_tickets" tid].
Proof.
  intros Hrun.
  destruct (CheckIn.post_check_in_success _ _ _ _ _ Hrun)
    as (slotId & sl & s1 & vid & s2 & did & s3 & s4
        & Hid & Hsl & Hvac & E1 & E2 & E3 & E4 & E5).
  exists slotId, sl, vid, did.
  unfold insert_or_replace_vehicle in E1.
  destruct (fk_ok s _); [|discriminate]. inversion E1; subst s1 vid; clear E1.
  unfold insert_or_replace_driver in E2. inversion E2; subst s2 did; clear E2.
  unfold insert_ticket in E3.
  destruct (existsb _ _); [discriminate|].
  destruct (fk_ok _ _); [|discriminate]. inversion E3; subst s3 tid; clear E3.
  unfold audit_then, run in E5.
  destruct (io_err e 5); [discriminate|].
  unfold insert_audit_log in E5. destruct (fk_ok s4 _); [|discriminate].
  inversion E5; subst s'; clear E5.
  destruct E4 as [[E4 ->]|[E4 E5]].
  - rewrite E4. simpl. repeat split; try assumption; reflexivity.
  - unfold update_slot_status in E5. inversion E5; subst s4; clear E5.
    rewrite E4. simpl. repeat split; try assumption; reflexivity.
Qed.


Lemma select_slot_after_update (l : list slot) (slotId x : Z) (st : slot_status) :
  find (fun r => slot_id r =? x)
       (map (fun r => if slot_id r =? slotId then with_status r st else r) l)
  = if x =? slotId
    then option_map (fun r => with_status r st) (find (fun r => slot_id r =? x) l)
    else find (fun r => slot_id r =? x) l.
Proof.
  induction l as [|a l IH]; simpl.
  - destruct (x =? slotId); reflexivity.
  - destruct (slot_id a =? slotId) eqn:Ea; simpl.
    + destruct (slot_id a =? x) eqn:Ex.
      * apply Z.eqb_eq in Ea, Ex. subst.
        rewrite Z.eqb_refl. reflexivity.
      * exact IH.
    + destruct (slot_id a =? x) eqn:Ex.
      * apply Z.eqb_eq in Ex. subst. rewrite Ea. reflexivity.
      * exact IH.
Qed.

(** X7. A check-in that goes through with its slot update targeted a
    vacant slot, appended one ticket under an id no ticket had, open
    (pending, no check-out time or amount), for that slot, the session's
    cashier and the current time, turned that slot to occupied, left every
    other slot as it was and wrote no Payment row. *)
Theorem check_in_opens_ticket e b s tid s' :
  post_check_in e b s = (checked_in tid, s') ->
  io_err e 4 = false ->
  exists slotId sl vid did,
    slot_id_field b = Some slotId
    /\ select_slot s slotId = Some sl /\ status sl = vacant
    /\ ~ In tid (map ticket_id (parking_tickets s))
    /\ parking_tickets s' = parking_tickets s ++ [ticket_row e tid slotId vid did]
    /\ select_ticket s' tid = Some (ticket_row e tid slotId vid did)
    /\ select_slot s' slotId = Some (with_status sl occupied)
    /\ (forall x, x <> slotId -> select_slot s' x = select_slot s x)
    /\ payments s' = payments s.
Proof.
  intros Hrun Hio.
  destruct (post_check_in_success_tables _ _ _ _ _ Hrun)
    as (slotId & sl & vid & did & Hid & Hsl & Hvac & _ & _ & Htid & _ & _
        & HT & HL & HP & _).
  rewrite Hio in HL.
  assert (Hfresh : forall y, In y (parking_tickets s) -> (ticket_id y =? tid) = false).
  { intros y Hy. apply Z.eqb_neq.
    pose proof (CheckIn.lastID_fresh ticket_id (parking_tickets_seq s) _ _ Hy).
    lia. }
  exists slotId, sl, vid, did. repeat split; try assumption.
  - intros Hin. apply in_map_iff in Hin as (y & Hy & Hin).
    apply Hfresh in Hin. apply Z.eqb_neq in Hin. contradiction.
  - unfold select_ticket. rewrite HT.
    apply CheckIn.find_fresh_last; [exact Hfresh | apply Z.eqb_refl].
  - unfold select_slot in *. rewrite HL, select_slot_after_update.
    rewrite Z.eqb_refl, Hsl. reflexivity.
  - intros x Hx. unfold select_slot. rewrite HL, select_slot_after_update.
    apply Z.eqb_neq in Hx. rewrite Hx. reflexivity.
Qed.

Lemma check_in_opens_ticket_witness :
  exists slotId sl vid did,
    slot_id_field (arrival "ABC123") = Some slotId
    /\ select_slot fresh_db slotId = Some sl /\ status sl = vacant
    /\ ~ In 1 (map ticket_id (parking_tickets fresh_db))
    /\ parking_tickets parked_db
       = parking_tickets fresh_db ++ [ticket_row (at_time 1000) 1 slotId vid did]
    /\ select_ticket parked_db 1 = Some (ticket_row (at_time 1000) 1 slotId vid did)
    /\ select_slot parked_db slotId = Some (with_status sl occupied)
    /\ (forall x, x <> slotId -> select_slot parked_db x = select_slot fresh_db x)
    /\ payments parked_db = payments fresh_db.
Proof.
  apply (check_in_opens_ticket (at_time 1000) (arrival "ABC123") fresh_db 1
           parked_db).
  - vm_compute. reflexivity.
  - reflexivity.
Defined.

(** X8. After a check-in that went through, the ticket page of the new
    ticket id shows that ticket with its slot, now occupied, the vehicle row
    and the driver row built from the request, the cost estimated from the
    slot's rate and the hours since the stored check-in time as the text of
    [durationHours.toFixed(2)]. *)
Theorem ticket_page_after_check_in e b s tid s' e2 :
  post_check_in e b s = (checked_in tid, s') ->
  io_err e 4 = false ->
  io_err e2 0 = false ->
  exists slotId sl vid did,
    select_slot s slotId = Some sl
    /\ get_ticket e2 tid s'
       = render "cashier/ticket"
           (page_ticket
              (ticket_row e tid slotId vid did, with_status sl occupied,
               vehicle_row vid b, driver_row did b)
              (toFixed (binary64 (diff_hours (moment_now e2) (current_timestamp e))) 2)
              (totalCost (diff_hours (moment_now e2) (current_timestamp e))
                         (hourly_rate sl))).
Proof.
  intros Hrun Hio Hio2.
  destruct (post_check_in_success_tables _ _ _ _ _ Hrun)
    as (slotId & sl & vid & did & Hid & Hsl & Hvac & Hvid & Hdid & Htid & HV & HD
        & HT & HL & _).
  rewrite Hio in HL.
  exists slotId, sl, vid, did. split; [exact Hsl|].
  assert (S1 : select_ticket s' tid = Some (ticket_row e tid slotId vid did)).
  { unfold select_ticket. rewrite HT. apply CheckIn.find_fresh_last.
    - intros y Hy. apply Z.eqb_neq.
      pose proof (CheckIn.lastID_fresh ticket_id (parking_tickets_seq s) _ _ Hy).
      lia.
    - apply Z.eqb_refl. }
  assert (S2 : select_slot s' slotId = Some (with_status sl occupied)).
  { unfold select_slot in *. rewrite HL, select_slot_after_update.
    rewrite Z.eqb_refl, Hsl. reflexivity. }
  assert (S3 : select_vehicle s' vid = Some (vehicle_row vid b)).
  { unfold select_vehicle. rewrite HV. apply CheckIn.find_fresh_last.
    - intros y Hy. apply filter_In in Hy as [Hy _]. apply Z.eqb_neq.
      pose proof (CheckIn.lastID_fresh vehicle_id (vehicles_seq s) _ _ Hy).
      lia.
    - apply Z.eqb_refl. }
  assert (S4 : select_driver s' did = Some (driver_row did b)).
  { unfold select_driver. rewrite HD. apply CheckIn.find_fresh_last.
    - intros y Hy. apply Z.eqb_neq.
      pose proof (CheckIn.lastID_fresh driver_id (drivers_seq s) _ _ Hy).
      lia.
    - apply Z.eqb_refl. }
  unfold get_ticket, get, select_ticket_details.
  rewrite Hio2, S1. simpl. rewrite S2, S3, S4. reflexivity.
Qed.

Lemma ticket_page_after_check_in_witness :
  exists slotId sl vid did,
    select_slot fresh_db slotId = Some sl
    /\ get_ticket (at_time 163000) 1
         (snd (post_check_in (at_time 1500) (arrival "ABC123") fresh_db))
       = render "cashier/ticket"
           (page_ticket
              (ticket_row (at_time 1500) 1 slotId vid did, with_status sl occupied,
               vehicle_row vid (arrival "ABC123"),
               driver_row did (arrival "ABC123"))
              "0.04"
              (totalCost (diff_hours 163000 1000) (hourly_rate sl))).
Proof.
  destruct (ticket_page_after_check_in (at_time 1500) (arrival "ABC123") fresh_db 1
              (snd (post_check_in (at_time 1500) (arrival "ABC123") fresh_db))
              (at_time 163000))
    as (slotId & sl & vid & did & Hsl & H).
  - vm_compute. reflexivity.
  - reflexivity.
  - reflexivity.
  - assert (E : toFixed (binary64 (diff_hours (moment_now (at_time 163000))
                                               (current_timestamp (at_time 1500)))) 2
                = "0.04") by (vm_compute; reflexivity).
    rewrite E in H. exists slotId, sl, vid, did. split; [exact Hsl | exact H].
Defined.

(** X9. When the ticket insert of a check-in fails (ticket number already in
    use, as for two check-ins in the same millisecond, unknown cashier under
    foreign keys, or a storage error), the request is answered with the
    ticket error; no ticket is created and the slot stays vacant, but the
    vehicle and driver rows written before stay in the database. *)
Theorem check_in_ticket_insert_fails e b s slotId sl s1 vid :
  slot_id_field b = Some slotId ->
  required_fields_missing b = false ->
  io_err e 0 = false -> io_err e 1 = false -> io_err e 2 = false ->
  select_slot s slotId = Some sl -> status sl = vacant ->
  insert_or_replace_vehicle s (license_plate_field b) (make_field b)
    (model_field b) (color_field b) (year_field b) (owner_name_field b)
    (owner_phone_field b) (owner_email_field b) = Ok (s1, vid) ->
  existsb (fun t => ticket_number t =? date_now e) (parking_tickets s) = true
  \/ (foreign_keys s = true /\ has_user s (session_user e) = false)
  \/ io_err e 3 = true ->
  exists s',
    post_check_in e b s
    = (redirect cashier_check_in "error=Failed to create parking ticket", s')
    /\ parking_tickets s' = parking_tickets s
    /\ parking_slots s' = parking_slots s
    /\ vehicles s' = vehicles s1
    /\ drivers s'
       = drivers s ++ [driver_row (lastID driver_id (drivers_seq s) (drivers s)) b]
    /\ audit_logs s' = audit_logs s.
Proof.
  intros Hid Hreq H0 H1 H2 Hsl Hvac E1 Hwhy.
  unfold post_check_in, get, run.
  unfold required_fields_missing in Hreq. rewrite Hid in Hreq |- *.
  rewrite Hreq, H0, Hsl, Hvac. simpl. rewrite H1, E1, H2.
  unfold insert_or_replace_vehicle in E1.
  destruct (fk_ok s _); [|discriminate]. inversion E1; subst s1 vid; clear E1.
  unfold insert_or_replace_driver.
  match goal with
  | |- context [insert_ticket ?x ?n ?a ?v ?d ?c ?t] =>
      assert (Hfail : io_err e 3 = true
                      \/ exists err, insert_ticket x n a v d c t = Err err)
  end.
  { destruct Hwhy as [Hdup|[[Hf Hu]|Hio]]; [right|right|left; exact Hio];
      unfold insert_ticket; simpl.
    - rewrite Hdup. eexists; reflexivity.
    - destruct (existsb _ (parking_tickets s)); [eexists; reflexivity|].
      unfold fk_ok, has_user in *. simpl. rewrite Hf, Hu, andb_false_r. simpl.
      eexists; reflexivity. }
  eexists.
  destruct Hfail as [Hio|[err Herr]].
  - rewrite Hio. split; [reflexivity|]. simpl. repeat split; reflexivity.
  - rewrite Herr. destruct (io_err e 3);
      (split; [reflexivity|]; simpl; repeat split; reflexivity).
Qed.

Lemma check_in_ticket_insert_fails_witness :
  exists s',
    post_check_in (at_time 1000) (arrival "XYZ789") settled_db
    = (redirect cashier_check_in "error=Failed to create parking ticket", s')
    /\ parking_tickets s' = parking_tickets settled_db
    /\ parking_slots s' = parking_slots settled_db
    /\ vehicles s'
       = vehicles (set_vehicles settled_db
                     (vehicles settled_db ++ [vehicle_row 2 (arrival "XYZ789")]) 2)
    /\ drivers s'
       = drivers settled_db ++
         [driver_row (lastID driver_id (drivers_seq settled_db) (drivers settled_db))
                     (arrival "XYZ789")]
    /\ audit_logs s' = audit_logs settled_db.
Proof.
  apply (check_in_ticket_insert_fails (at_time 1000) (arrival "XYZ789") settled_db
           1 (slot_A01 vacant)
           (set_vehicles settled_db
              (vehicles settled_db ++ [vehicle_row 2 (arrival "XYZ789")]) 2)
           2).
  - reflexivity.
  - reflexivity.
  - reflexivity.
  - reflexivity.
  - reflexivity.
  - vm_compute. reflexivity.
  - reflexivity.
  - vm_compute. reflexivity.
  - left. vm_compute. reflexivity.
Defined.

End CheckInPaths.

Module ReceiptPaths.
Import Schema Sql Billing Http Cashier Lifecycle Frames Coverage.

(** The database a check-out leaves when it answers with the receipt
    redirect, table by table. *)
Lemma post_check_out_success_tables e id b s t ps s' :
  select_ticket_join_slot s id = Some (t, ps) ->
  post_check_out e id b s = (checked_out id, s') ->
  exists pid,
    parking_tickets s'
    = map (fun t0 => if ticket_id t0 =? id then
                       paid_row t0 (current_timestamp e)
                         (diff_hours (moment_now e) (check_in_time t))
                         (totalCost (diff_hours (moment_now e) (check_in_time t))
                                    (hourly_rate ps))
                     else t0) (parking_tickets s)
    /\ payments s'
       = payments s ++
         [payment_row e pid id
            (totalCost (diff_hours (moment_now e) (check_in_time t))
                       (hourly_rate ps)) b]
    /\ parking_slots s'
       = (if io_err e 3 then parking_slots s
          else map (fun r => if slot_id r =? slot_id ps then with_status r vacant
                             else r) (parking_slots s))
    /\ vehicles s' = vehicles s /\ drivers s' = drivers s
    /\ shifts s' = shifts s /\ users s' = users s
    /\ foreign_keys s' = foreign_keys s
    /\ audit_logs s'
       = audit_logs s ++ [audit_record e "CHECK_OUT" "parking_tickets" id].
Proof.
  intros Hsel Hrun.
  destruct (Settlement.post_check_out_success _ _ _ _ _ _ _ Hsel Hrun)
    as (s1 & s2 & pid & s3 & H1 & H2 & H3 & H4).
  exists pid.
  unfold update_ticket_paid in H1. inversion H1; subst s1; clear H1.
  unfold insert_payment in H2.
  destruct (negb _); [discriminate|].
  destruct (existsb _ _); [discriminate|].
  destruct (fk_ok _ _); [|discriminate]. inversion H2; subst s2 pid; clear H2.
  unfold audit_then, run in H4.
  destruct (io_err e 4); [discriminate|].
  unfold insert_audit_log in H4. destruct (fk_ok s3 _); [|discriminate].
  inversion H4; subst s'; clear H4.
  destruct H3 as [[E3 ->]|[E3 H3]].
  - rewrite E3. simpl. repeat split; reflexivity.
  - unfold update_slot_status in H3. inversion H3; subst s3; clear H3.
    rewrite E3. simpl. repeat split; reflexivity.
Qed.

(** X10. After a check-out that went through, for a ticket without earlier
    Payment row, the receipt route shows the settled ticket together with
    the Payment row just written and writes nothing: no recovery takes
    place. *)
Theorem receipt_after_check_out e id b s pt ps v d s' e2 :
  select_ticket_details s id = Some (pt, ps, v, d) ->
  payments_of s id = [] ->
  has_user s (t_cashier_id pt) = true ->
  post_check_out e id b s = (checked_out id, s') ->
  io_err e2 0 = false -> io_err e2 1 = false -> io_err e2 4 = false ->
  exists pid,
    get_receipt e2 id s'
    = (render "cashier/receipt"
         (page_receipt
            (paid_row pt (current_timestamp e)
               (diff_hours (moment_now e) (check_in_time pt))
               (totalCost (diff_hours (moment_now e) (check_in_time pt))
                          (hourly_rate ps)),
             (if io_err e 3 then ps else with_status ps vacant), v, d,
             payment_row e pid id
               (totalCost (diff_hours (moment_now e) (check_in_time pt))
                          (hourly_rate ps)) b)),
       s').
Proof.
  intros Hdet Hnone Huser Hrun H0 H1 H4.
  pose proof (CheckOutPaths.details_join_slot _ _ _ _ _ _ Hdet) as Hsel.
  destruct (post_check_out_success_tables _ _ _ _ _ _ _ Hsel Hrun)
    as (pid & HT & HP & HL & HV & HD & _ & HU & _).
  exists pid.
  unfold select_ticket_details in Hdet.
  destruct (select_ticket s id) as [t0|] eqn:Et; [|discriminate].
  destruct (select_slot s (t_slot_id t0)) as [sl|] eqn:Es; [|discriminate].
  destruct (select_vehicle s (t_vehicle_id t0)) as [v0|] eqn:Ev; [|discriminate].
  destruct (select_driver s (t_driver_id t0)) as [d0|] eqn:Ed; [|discriminate].
  inversion Hdet; subst t0 sl v0 d0; clear Hdet.
  assert (S1 : select_ticket s' id
               = Some (paid_row pt (current_timestamp e)
                         (diff_hours (moment_now e) (check_in_time pt))
                         (totalCost (diff_hours (moment_now e) (check_in_time pt))
                                    (hourly_rate ps)))).
  { unfold select_ticket in *. rewrite HT, find_map_same.
    - rewrite Et. simpl. apply find_some in Et as [_ Et]. rewrite Et. reflexivity.
    - intros x. destruct (ticket_id x =? id) eqn:E; simpl; rewrite ?E; reflexivity. }
  assert (Hps : slot_id ps = t_slot_id pt).
  { pose proof Es as Es'. apply find_some in Es' as [_ Es'].
    apply Z.eqb_eq in Es'. exact Es'. }
  assert (S2 : select_slot s' (t_slot_id pt)
               = Some (if io_err e 3 then ps else with_status ps vacant)).
  { unfold select_slot in *. rewrite HL. destruct (io_err e 3); [exact Es|].
    rewrite CheckInPaths.select_slot_after_update.
    rewrite <- Hps, Z.eqb_refl. rewrite Hps, Es. reflexivity. }
  assert (S3 : select_payment s' id
               = Some (payment_row e pid id
                         (totalCost (diff_hours (moment_now e) (check_in_time pt))
                                    (hourly_rate ps)) b)).
  { unfold select_payment. rewrite HP. apply Recovery.select_payment_none in Hnone.
    unfold select_payment in Hnone. rewrite (find_app_none _ _ _ Hnone).
    simpl. rewrite Z.eqb_refl. reflexivity. }
  unfold get_receipt, get. rewrite H0, S1. simpl. rewrite H1, S3.
  unfold render_receipt, get, select_receipt, select_ticket_details.
  rewrite H4, S1. simpl. rewrite S2.
  unfold select_vehicle, select_driver in *. rewrite HV, HD, Ev, Ed, S3.
  unfold has_user in *. rewrite HU. simpl t_cashier_id. rewrite Huser. reflexivity.
Qed.

Lemma receipt_after_check_out_witness :
  exists pid,
    get_receipt (at_time 5000000) 1 settled_db
    = (render "cashier/receipt"
         (page_receipt
            (paid_row parked_ticket (current_timestamp (at_time 4321000))
               (diff_hours (moment_now (at_time 4321000)) (check_in_time parked_ticket))
               (totalCost (diff_hours (moment_now (at_time 4321000))
                                      (check_in_time parked_ticket))
                          (hourly_rate (slot_A01 occupied))),
             (if io_err (at_time 4321000) 3 then slot_A01 occupied
              else with_status (slot_A01 occupied) vacant),
             vehicle_row 1 (arrival "ABC123"), driver_row 1 (arrival "ABC123"),
             payment_row (at_time 4321000) pid 1
               (totalCost (diff_hours (moment_now (at_time 4321000))
                                      (check_in_time parked_ticket))
                          (hourly_rate (slot_A01 occupied))) (pay "cash"))),
       settled_db).
Proof.
  apply (receipt_after_check_out (at_time 4321000) 1 (pay "cash") parked_db
           parked_ticket (slot_A01 occupied) (vehicle_row 1 (arrival "ABC123"))
           (driver_row 1 (arrival "ABC123")) settled_db (at_time 5000000)).
  - vm_compute. reflexivity.
  - reflexivity.
  - reflexivity.
  - vm_compute. reflexivity.
  - reflexivity.
  - reflexivity.
  - reflexivity.
Defined.

(** The database after a receipt request: untouched, or with the one recovery
    row added. *)
Lemma get_receipt_state e id s r s' :
  get_receipt e id s = (r, s') ->
  s' = s
  \/ exists t pid amt,
       select_ticket s id = Some t /\ t_payment_status t = paid
       /\ payments_of s id = []
       /\ s' = set_payments s (payments s ++ [recovery_payment e pid id amt]) pid.
Proof.
  unfold get_receipt, get, run.
  destruct (io_err e 0); [answered|].
  destruct (select_ticket s id) as [t|]; [|answered].
  destruct (t_payment_status t) eqn:Est; simpl; [answered| |answered].
  destruct (io_err e 1); [answered|].
  destruct (select_payment s id) as [p|] eqn:Ep.
  - intros H. left. eapply Recovery.render_receipt_db; eauto.
  - destruct (recovery_amount e id t s) as [amt|x]; [|answered].
    destruct (io_err e 3); [answered|].
    destruct (insert_payment _ _ _ _ _ _ _ _) as [[s1 pid]|x] eqn:Ei; [|answered].
    intros H. apply Recovery.render_receipt_db in H. subst s'.
    right. exists t, pid, amt.
    split; [reflexivity|]. split; [exact Est|]. split.
    + apply Recovery.select_payment_none. exact Ep.
    + unfold insert_payment in Ei. simpl in Ei.
      destruct (existsb _ (payments s)); [discriminate|].
      destruct (fk_ok s _); [|discriminate]. inversion Ei. reflexivity.
Qed.

(** X11. The receipt route never changes tickets, slots, shifts or the audit
    log.  It leaves the payments as they are, except for a paid ticket
    without Payment row, where it may append the one recovery row; for an
    unknown or unpaid ticket it changes nothing at all. *)
Theorem receipt_writes_recovery_row_only e id s r s' :
  get_receipt e id s = (r, s') ->
  parking_tickets s' = parking_tickets s
  /\ parking_slots s' = parking_slots s
  /\ shifts s' = shifts s
  /\ audit_logs s' = audit_logs s
  /\ (payments s' = payments s
      \/ exists t pid amt,
           select_ticket s id = Some t /\ t_payment_status t = paid
           /\ payments_of s id = []
           /\ payments s' = payments s ++ [recovery_payment e pid id amt])
  /\ ((forall t, select_ticket s id = Some t -> t_payment_status t <> paid) ->
      s' = s).
Proof.
  intros H.
  destruct (get_receipt_state _ _ _ _ _ H)
    as [->|(t & pid & amt & Ht & Hpaid & Hnone & ->)].
  - repeat split; auto.
  - simpl. repeat split; try reflexivity.
    + right. exists t, pid, amt. repeat split; assumption.
    + intros Hno. exfalso. exact (Hno t Ht Hpaid).
Qed.

Lemma receipt_writes_recovery_row_only_witness :
  snd (get_receipt (at_time 5000000) 1 parked_db) = parked_db
  /\ parking_tickets (snd (get_receipt (at_time 5000000) 1 unpaid_db))
     = parking_tickets unpaid_db.
Proof.
  split.
  - destruct (receipt_writes_recovery_row_only (at_time 5000000) 1 parked_db
                (fst (get_receipt (at_time 5000000) 1 parked_db))
                (snd (get_receipt (at_time 5000000) 1 parked_db)))
      as (_ & _ & _ & _ & _ & H).
    + apply surjective_pairing.
    + apply H. intros t Ht. vm_compute in Ht. inversion Ht. simpl. discriminate.
  - destruct (receipt_writes_recovery_row_only (at_time 5000000) 1 unpaid_db
                (fst (get_receipt (at_time 5000000) 1 unpaid_db))
                (snd (get_receipt (at_time 5000000) 1 unpaid_db)))
      as (H & _).
    + apply surjective_pairing.
    + exact H.
Defined.

(** X12. When the recovery inserts its row for a paid ticket without
    Payment row, the amount is the ticket's stored amount if that is not
    zero; if the stored amount is zero or absent and the slot row and the
    check-out time exist, it is recomputed as [ceil] of the hours between
    check-in and check-out times the slot's rate. *)
Theorem recovery_uses_stored_or_recomputed_amount e id s t r s' :
  io_err e 0 = false -> io_err e 1 = false ->
  select_ticket s id = Some t -> t_payment_status t = paid ->
  select_payment s id = None ->
  get_receipt e id s = (r, s') ->
  r <> contact_administrator ->
  (forall a, total_amount t = Some a -> ~ a == 0 ->
     exists pid, payments s' = payments s ++ [recovery_payment e pid id a])
  /\ (forall t0 ps checkOutTime,
        amount_missing (total_amount t) = true ->
        select_ticket_join_slot s id = Some (t0, ps) ->
        check_out_time t = Some checkOutTime ->
        exists pid,
          payments s'
          = payments s ++
            [recovery_payment e pid id
               (totalCost (diff_hours checkOutTime (check_in_time t))
                          (hourly_rate ps))]).
Proof.
  intros H0 H1 Ht Hpaid Hnone.
  unfold get_receipt, get, run. rewrite H0, Ht, Hpaid, H1, Hnone. simpl.
  intros Hrun Hr.
  assert (Hins : forall amt,
            recovery_amount e id t s = Ok amt ->
            exists pid, payments s' = payments s ++ [recovery_payment e pid id amt]).
  { intros amt Ha. rewrite Ha in Hrun.
    destruct (io_err e 3); [inversion Hrun; subst; congruence|].
    destruct (insert_payment _ _ _ _ _ _ _ _) as [[s1 pid]|x] eqn:Ei;
      [|inversion Hrun; subst; congruence].
    apply Recovery.render_receipt_db in Hrun. subst s'.
    apply insert_payment_rows in Ei as (Hp & _). exists pid. exact Hp. }
  assert (Hok : exists amt, recovery_amount e id t s = Ok amt).
  { destruct (recovery_amount e id t s) as [amt|x]; [eauto|].
    inversion Hrun; subst; congruence. }
  split.
  - intros a Ha Hnz. apply Hins. unfold recovery_amount, amount_missing.
    rewrite Ha. destruct (Qeq_bool a 0) eqn:E.
    + apply Qeq_bool_iff in E. contradiction.
    + reflexivity.
  - intros t0 ps co Hmiss Hjoin Hco. apply Hins.
    destruct Hok as [amt Hamt]. revert Hamt.
    unfold recovery_amount, get. rewrite Hmiss, Hjoin, Hco.
    destruct (io_err e 2); [discriminate|]. intros _. reflexivity.
Qed.

Lemma recovery_uses_stored_or_recomputed_amount_witness :
  (exists pid,
     payments (snd (get_receipt (at_time 5000000) 1 unpaid_db))
     = payments unpaid_db ++ [recovery_payment (at_time 5000000) pid 1 10])
  /\ (exists pid,
        payments (snd (get_receipt (at_time 5000000) 1 zero_amount_db))
        = payments zero_amount_db ++
          [recovery_payment (at_time 5000000) pid 1
             (totalCost (diff_hours 1000 1000) (Some 5%Q))]).
Proof.
  split.
  - destruct (recovery_uses_stored_or_recomputed_amount (at_time 5000000) 1
                unpaid_db
                (paid_row parked_ticket 4321000 (diff_hours 4321000 1000) 10)
                (fst (get_receipt (at_time 5000000) 1 unpaid_db))
                (snd (get_receipt (at_time 5000000) 1 unpaid_db)))
      as [H _].
    + reflexivity.
    + reflexivity.
    + vm_compute. reflexivity.
    + reflexivity.
    + vm_compute. reflexivity.
    + apply surjective_pairing.
    + vm_compute. discriminate.
    + apply (H 10%Q); [reflexivity | discriminate].
  - destruct (recovery_uses_stored_or_recomputed_amount (at_time 5000000) 1
                zero_amount_db
                (paid_row parked_ticket 1000 (diff_hours 1000 1000) 0)
                (fst (get_receipt (at_time 5000000) 1 zero_amount_db))
                (snd (get_receipt (at_time 5000000) 1 zero_amount_db)))
      as [_ H].
    + reflexivity.
    + reflexivity.
    + vm_compute. reflexivity.
    + reflexivity.
    + vm_compute. reflexivity.
    + apply surjective_pairing.
    + vm_compute. discriminate.
    + apply (H (paid_row parked_ticket 1000 (diff_hours 1000 1000) 0)
               (slot_A01 vacant) 1000).
      * reflexivity.
      * vm_compute. reflexivity.
      * reflexivity.
Defined.

End ReceiptPaths.

Module Ledger.
Import Schema Sql Billing Http Cashier Lifecycle Frames Coverage.

Lemma extends_refl {A : Type} (l : list A) : extends l l.
Proof. exists []. symmetry. apply app_nil_r. Qed.

Lemma extends_app {A : Type} (l k : list A) : extends l (l ++ k).
Proof. exists k. reflexivity. Qed.

Lemma extends_trans {A : Type} (l1 l2 l3 : list A) :
  extends l1 l2 -> extends l2 l3 -> extends l1 l3.
Proof.
  intros [a ->] [b ->]. exists (a ++ b). symmetry. apply app_assoc.
Qed.

Lemma grows_refl (s : db) : grows s s.
Proof. unfold grows. repeat split; try apply extends_refl. Qed.

Lemma grows_trans (s1 s2 s3 : db) : grows s1 s2 -> grows s2 s3 -> grows s1 s3.
Proof.
  intros (A1 & A2 & A3 & A4 & A5 & A6 & A7 & A8)
         (B1 & B2 & B3 & B4 & B5 & B6 & B7 & B8).
  unfold grows. repeat split; try (eapply extends_trans; eassumption); congruence.
Qed.

Ltac grows_now :=
  unfold grows; simpl;
  repeat split; try apply extends_refl; try apply extends_app; try reflexivity.

Lemma insert_or_replace_vehicle_grows s plate mk mdl col yr owner ophone oemail s1 vid :
  insert_or_replace_vehicle s plate mk mdl col yr owner ophone oemail = Ok (s1, vid) ->
  grows s s1.
Proof.
  unfold insert_or_replace_vehicle. destruct (fk_ok s _); [|discriminate].
  intros H; inversion H; subst. grows_now.
Qed.

Lemma insert_or_replace_driver_grows s name ph em idn lic addr s2 did :
  insert_or_replace_driver s name ph em idn lic addr = Ok (s2, did) -> grows s s2.
Proof.
  unfold insert_or_replace_driver. intros H; inversion H; subst. grows_now.
Qed.

Lemma insert_ticket_grows s number slotId vid did cid ts s3 tid :
  insert_ticket s number slotId vid did cid ts = Ok (s3, tid) -> grows s s3.
Proof.
  unfold insert_ticket.
  destruct (existsb _ _); [discriminate|]. destruct (fk_ok s _); [|discriminate].
  intros H; inversion H; subst. grows_now.
  rewrite map_app. apply extends_app.
Qed.

Lemma update_slot_status_grows s id st s1 :
  update_slot_status s id st = Ok s1 -> grows s s1.
Proof.
  unfold update_slot_status. intros H; inversion H; subst. grows_now.
  rewrite map_map. apply map_ext. intros r.
  destruct (slot_id r =? id); reflexivity.
Qed.

Lemma update_ticket_paid_grows s id ts dur total s1 :
  update_ticket_paid s id ts dur total = Ok s1 -> grows s s1.
Proof.
  unfold update_ticket_paid. intros H; inversion H; subst. grows_now.
  rewrite map_map.
  erewrite map_ext; [apply extends_refl|].
  intros t. simpl. destruct (ticket_id t =? id); reflexivity.
Qed.

Lemma insert_payment_grows s id amt m ref c rn notes s2 pid :
  insert_payment s id amt m ref c rn notes = Ok (s2, pid) -> grows s s2.
Proof.
  unfold insert_payment.
  destruct (negb _); [discriminate|]. destruct (existsb _ _); [discriminate|].
  destruct (fk_ok s _); [|discriminate].
  intros H; inversion H; subst. grows_now.
Qed.

Lemma insert_shift_grows s c today ts opening notes s1 id :
  insert_shift s c today ts opening notes = Ok (s1, id) -> grows s s1.
Proof.
  unfold insert_shift. destruct (fk_ok s _); [|discriminate].
  intros H; inversion H; subst. grows_now.
Qed.

Lemma insert_audit_log_grows s u a tb rid s1 :
  insert_audit_log s u a tb rid = Ok s1 -> grows s s1.
Proof.
  unfold insert_audit_log. destruct (fk_ok s _); [|discriminate].
  intros H; inversion H; subst. grows_now.
Qed.

Lemma audit_then_grows e n a rid r0 s r s' :
  audit_then e n a rid r0 s = (r, s') -> grows s s'.
Proof.
  unfold audit_then, run. destruct (io_err e n).
  - intros H; inversion H; subst. apply grows_refl.
  - destruct (insert_audit_log _ _ _ _ _) as [s1|x] eqn:E;
      intros H; inversion H; subst.
    + eapply insert_audit_log_grows; eauto.
    + apply grows_refl.
Qed.

Lemma post_check_in_grows e b s : grows s (snd (post_check_in e b s)).
Proof.
  unfold post_check_in, get, run.
  destruct (slot_id_field b) as [slotId|]; [|apply grows_refl].
  destruct (falsy _ || falsy _); [apply grows_refl|].
  destruct (io_err e 0); [apply grows_refl|].
  destruct (select_slot s slotId) as [sl|]; [|apply grows_refl].
  destruct (negb _); [apply grows_refl|].
  destruct (io_err e 1); [apply grows_refl|].
  destruct (insert_or_replace_vehicle _ _ _ _ _ _ _ _ _) as [[s1 vid]|x] eqn:E1;
    [|apply grows_refl].
  apply insert_or_replace_vehicle_grows in E1.
  destruct (io_err e 2); [exact E1|].
  destruct (insert_or_replace_driver _ _ _ _ _ _ _) as [[s2 did]|x] eqn:E2;
    [|exact E1].
  apply insert_or_replace_driver_grows in E2.
  pose proof (grows_trans _ _ _ E1 E2) as G2.
  destruct (io_err e 3); [exact G2|].
  destruct (insert_ticket _ _ _ _ _ _ _) as [[s3 tid]|x] eqn:E3; [|exact G2].
  apply insert_ticket_grows in E3.
  pose proof (grows_trans _ _ _ G2 E3) as G3.
  destruct (audit_then _ _ _ _ _ _) as [r s'] eqn:E5.
  apply audit_then_grows in E5. simpl.
  apply (grows_trans _ _ _ G3).
  destruct (io_err e 4); [exact E5|].
  destruct (update_slot_status s3 slotId occupied) as [s4|x] eqn:E4; [|exact E5].
  apply update_slot_status_grows in E4. exact (grows_trans _ _ _ E4 E5).
Qed.

Lemma post_check_out_grows e id b s : grows s (snd (post_check_out e id b s)).
Proof.
  unfold post_check_out, get, run.
  destruct (falsy _); [apply grows_refl|].
  destruct (io_err e 0); [apply grows_refl|].
  destruct (select_ticket_join_slot s id) as [[t ps]|]; [|apply grows_refl].
  destruct (io_err e 1); [apply grows_refl|].
  destruct (update_ticket_paid _ _ _ _ _) as [s1|x] eqn:E1; [|apply grows_refl].
  apply update_ticket_paid_grows in E1.
  destruct (io_err e 2); [exact E1|].
  destruct (insert_payment _ _ _ _ _ _ _ _) as [[s2 pid]|x] eqn:E2; [|exact E1].
  apply insert_payment_grows in E2.
  pose proof (grows_trans _ _ _ E1 E2) as G2.
  destruct (audit_then _ _ _ _ _ _) as [r s'] eqn:E5.
  apply audit_then_grows in E5. simpl.
  apply (grows_trans _ _ _ G2).
  destruct (io_err e 3); [exact E5|].
  destruct (update_slot_status s2 (slot_id ps) vacant) as [s3|x] eqn:E4; [|exact E5].
  apply update_slot_status_grows in E4. exact (grows_trans _ _ _ E4 E5).
Qed.

Lemma get_receipt_grows e id s : grows s (snd (get_receipt e id s)).
Proof.
  destruct (get_receipt e id s) as [r s'] eqn:E. simpl.
  destruct (ReceiptPaths.get_receipt_state _ _ _ _ _ E)
    as [->|(t & pid & amt & _ & _ & _ & ->)].
  - apply grows_refl.
  - grows_now.
Qed.

Lemma post_shift_open_grows e b s : grows s (snd (post_shift_open e b s)).
Proof.
  unfold post_shift_open, run.
  destruct (io_err e 0); [apply grows_refl|].
  destruct (insert_shift _ _ _ _ _ _) as [[s1 id]|x] eqn:E1; [|apply grows_refl].
  apply insert_shift_grows in E1.
  destruct (io_err e 1); [exact E1|].
  destruct (insert_audit_log _ _ _ _ _) as [s2|x] eqn:E2; [|exact E1].
  apply insert_audit_log_grows in E2. exact (grows_trans _ _ _ E1 E2).
Qed.

Lemma step_grows (q : request) (s : db) : grows s (snd (step q s)).
Proof.
  destruct q; simpl.
  - apply post_check_in_grows.
  - apply post_check_out_grows.
  - apply get_receipt_grows.
  - apply post_shift_open_grows.
Qed.

(** X13. No sequence of check-ins, check-outs, receipt requests and shift
    openings ever deletes or rewrites a Payment row, a driver row, a shift
    row or an audit record, or deletes a ticket or changes its check-in
    columns, or changes a slot's id, number or rate; the users and the
    foreign-key setting stay the same. *)
Theorem requests_never_erase_records (qs : list request) (s : db) :
  grows s (snd (exec qs s)).
Proof.
  revert s. induction qs as [|q qs IH]; intros s; [apply grows_refl|].
  simpl. pose proof (step_grows q s) as G1.
  destruct (step q s) as [r s1] eqn:Es.
  specialize (IH s1). destruct (exec qs s1) as [rs s2]. simpl in *.
  exact (grows_trans s s1 s2 G1 IH).
Qed.

End Ledger.

(** ** The stay of a vehicle: from the stored check-in time to the bill *)

Module Stay.
Import Schema Sql Billing Http Cashier Lifecycle Frames Coverage.

(** *** Arithmetic of the stored second *)

Lemma second_floor (t : Z) : 1000 * (t / 1000) <= t < 1000 * (t / 1000) + 1000.
Proof.
  pose proof (Z.div_mod t 1000 ltac:(lia)).
  pose proof (Z.mod_pos_bound t 1000 ltac:(lia)). lia.
Qed.

Lemma second_floor_whole (t : Z) : t mod 1000 = 0 -> 1000 * (t / 1000) = t.
Proof. intros H. pose proof (Z.div_mod t 1000 ltac:(lia)). lia. Qed.

Lemma Qceiling_at_most (x : Q) (n : Z) : (x <= inject_Z n)%Q -> Qceiling x <= n.
Proof.
  intros H. apply Qceiling_resp_le in H. rewrite Qceiling_Z in H. exact H.
Qed.

Lemma Qceiling_between (x : Q) (n : Z) :
  (inject_Z (n - 1) < x)%Q -> (x <= inject_Z n)%Q -> Qceiling x = n.
Proof.
  intros Hlo Hhi. apply Qceiling_at_most in Hhi.
  pose proof (Qle_ceiling x) as A.
  assert (B : (inject_Z (n - 1) < inject_Z (Qceiling x))%Q)
    by (eapply Qlt_le_trans; eassumption).
  rewrite <- Zlt_Qlt in B. lia.
Qed.

Lemma hours_le (a b : Z) : a <= b -> (a # 3600000 <= b # 3600000)%Q.
Proof. intros H. unfold Qle. simpl. lia. Qed.

(** The hours counted from the stored second exceed the hours of the stay
    by less than a second: the number of hours billed is that of the stay,
    or one more. *)
Lemma billed_hours_of_stay (t0 t1 : Z) :
  Qceiling ((t1 - t0) # 3600000) <= Qceiling ((t1 - 1000 * (t0 / 1000)) # 3600000)
  /\ Qceiling ((t1 - 1000 * (t0 / 1000)) # 3600000)
     <= Qceiling ((t1 - t0) # 3600000) + 1.
Proof.
  pose proof (second_floor t0) as F.
  set (f := 1000 * (t0 / 1000)) in *. clearbody f. split.
  - apply Qceiling_resp_le, hours_le. lia.
  - apply Qceiling_at_most.
    pose proof (Qle_ceiling ((t1 - t0) # 3600000)) as A.
    rewrite inject_Z_plus.
    assert (B : ((t1 - f) # 3600000
                 <= ((t1 - t0) # 3600000) + inject_Z 1)%Q).
    { unfold Qle, Qplus, inject_Z. simpl. lia. }
    lra.
Qed.

(** *** A ticket and its slot along a run *)

Lemma find_through_extension {A B : Type} (f : A -> B) (q : B -> bool)
    (l l' : list A) (x : A) :
  extends (map f l) (map f l') ->
  find (fun y => q (f y)) l = Some x ->
  exists x', find (fun y => q (f y)) l' = Some x' /\ f x' = f x.
Proof.
  revert l'. induction l as [|a l IH]; intros l' [added E]; [discriminate|].
  destruct l' as [|a' l']; [discriminate|]. simpl in E.
  injection E as Ea E. simpl. rewrite Ea.
  destruct (q (f a)) eqn:Eq.
  - intros H. inversion H; subst. exists a'. split; [reflexivity | exact Ea].
  - apply IH. exists added. exact E.
Qed.

Lemma grows_select_ticket s s' id t :
  grows s s' -> select_ticket s id = Some t ->
  exists t', select_ticket s' id = Some t' /\ ticket_identity t' = ticket_identity t.
Proof.
  intros (_ & G & _) H. unfold select_ticket in *.
  apply (find_through_extension ticket_identity
           (fun i => fst (fst (fst (fst (fst (fst i))))) =? id) _ _ _ G H).
Qed.

Lemma grows_select_slot s s' id sl :
  grows s s' -> select_slot s id = Some sl ->
  exists sl', select_slot s' id = Some sl' /\ slot_identity sl' = slot_identity sl.
Proof.
  intros (_ & _ & G & _) H. unfold select_slot in *.
  apply (find_through_extension slot_identity (fun i => fst (fst i) =? id)
           (parking_slots s) (parking_slots s') sl); [|exact H].
  exists []. rewrite G. symmetry. apply app_nil_r.
Qed.

Lemma run_grows qs s rs s' : exec qs s = (rs, s') -> grows s s'.
Proof.
  revert s rs s'. induction qs as [|q qs IH]; intros s rs s'; simpl.
  - intros H. inversion H. apply Ledger.grows_refl.
  - pose proof (Ledger.step_grows q s) as G.
    destruct (step q s) as [r s1]. simpl in G.
    destruct (exec qs s1) as [rs1 s2] eqn:E.
    intros H. inversion H; subst.
    exact (Ledger.grows_trans _ _ _ G (IH _ _ _ E)).
Qed.

(** A ticket written by a check-in is found, with its slot, after any run
    of requests: it keeps the slot, the stored check-in time and the rate. *)
Lemma checked_in_ticket_found e1 b s0 id s1 qs rs s2 :
  post_check_in e1 b s0 = (checked_in id, s1) ->
  exec qs s1 = (rs, s2) ->
  exists slotId sl t2 sl2,
    slot_id_field b = Some slotId /\ select_slot s0 slotId = Some sl
    /\ select_ticket_join_slot s2 id = Some (t2, sl2)
    /\ check_in_time t2 = current_timestamp e1
    /\ hourly_rate sl2 = hourly_rate sl.
Proof.
  intros Hin Hrun.
  destruct (CheckInPaths.post_check_in_success_tables _ _ _ _ _ Hin)
    as (slotId & sl & vid & did & Hid & Hsl & _ & _ & _ & Htid & _ & _ & HT & _).
  assert (S1 : select_ticket s1 id = Some (ticket_row e1 id slotId vid did)).
  { unfold select_ticket. rewrite HT. apply CheckIn.find_fresh_last.
    - intros y Hy. apply Z.eqb_neq.
      pose proof (CheckIn.lastID_fresh ticket_id (parking_tickets_seq s0) _ _ Hy).
      lia.
    - apply Z.eqb_refl. }
  pose proof (Ledger.post_check_in_grows e1 b s0) as G01.
  rewrite Hin in G01. simpl in G01.
  pose proof (run_grows _ _ _ _ Hrun) as G12.
  destruct (grows_select_ticket _ _ _ _ G12 S1) as (t2 & S2 & I2).
  destruct (grows_select_slot _ _ _ _ (Ledger.grows_trans _ _ _ G01 G12) Hsl)
    as (sl2 & L2 & J2).
  unfold ticket_identity in I2. simpl in I2. injection I2 as A1 A2 A3 A4 A5 A6 A7.
  unfold slot_identity in J2. injection J2 as B1 B2 B3.
  exists slotId, sl, t2, sl2.
  split; [exact Hid|]. split; [exact Hsl|]. split; [|split; [exact A7 | exact B3]].
  unfold select_ticket_join_slot. rewrite S2, A3, L2. reflexivity.
Qed.

(** The check-out of a ticket written by a check-in, after any run of
    requests in between. *)
Lemma check_out_of_checked_in e1 b s0 id s1 qs rs s2 e2 body :
  post_check_in e1 b s0 = (checked_in id, s1) ->
  exec qs s1 = (rs, s2) ->
  (forall n, io_err e2 n = false) ->
  payment_method_check (payment_method_field body) = true ->
  existsb (fun p => receipt_number p =? date_now e2) (payments s2) = false ->
  fk_ok s2 (has_user s2 (session_user e2)) = true ->
  exists slotId sl t2 s3 pid,
    slot_id_field b = Some slotId /\ select_slot s0 slotId = Some sl
    /\ post_check_out e2 id body s2 = (checked_out id, s3)
    /\ select_ticket s3 id
       = Some (paid_row t2 (current_timestamp e2)
                 (diff_hours (moment_now e2) (current_timestamp e1))
                 (totalCost (diff_hours (moment_now e2) (current_timestamp e1))
                            (hourly_rate sl)))
    /\ payments s3
       = payments s2 ++
         [payment_row e2 pid id
            (totalCost (diff_hours (moment_now e2) (current_timestamp e1))
                       (hourly_rate sl)) body].
Proof.
  intros Hin Hrun Hio Hpm Hrn Hfk.
  destruct (checked_in_ticket_found _ _ _ _ _ _ _ _ Hin Hrun)
    as (slotId & sl & t2 & sl2 & Hid & Hsl & Hjoin & Hci & Hrate).
  destruct (Settlement.post_check_out_goes_through _ _ _ _ _ _ Hio Hjoin Hpm Hrn Hfk)
    as [s3 Hout].
  destruct (Settlement.post_check_out_written _ _ _ _ _ _ _ Hjoin Hout)
    as [Ht [pid Hp]].
  rewrite Hci, Hrate in Ht, Hp.
  exists slotId, sl, t2, s3, pid. repeat split; assumption.
Qed.

(** *** Billing

    C2 (counterexample). On a server in UTC a vehicle checks in half a
    second past a whole second and checks out exactly one hour later, at
    5.00 per hour: the elapsed duration is 1 hour, yet the ticket and the
    Payment row carry 10, the price of two hours, and not
    [ceil(1) * 5 = 5].  The check-in time is stored cut to the second, so
    the hours counted are one hour and half a second. *)
Lemma whole_hour_stay_bills_two_hours :
  let '(r1, s1) := post_check_in (at_time 1500) (arrival "ABC123") fresh_db in
  let '(r2, s2) := post_check_out (at_time 3601500) 1 (pay "cash") s1 in
  r1 = checked_in 1
  /\ r2 = checked_out 1
  /\ (3601500 - 1500) # 3600000 == 1
  /\ option_map hourly_rate (select_slot s1 1) = Some (Some 5%Q)
  /\ option_map total_amount (select_ticket s2 1) = Some (Some 10%Q)
  /\ map amount (payments s2) = [10%Q]
  /\ ~ (10 == inject_Z (Qceiling 1) * 5)%Q.
Proof.
  vm_compute. repeat split; discriminate.
Qed.

(** On a server west of UTC the stored check-in time, a UTC text, is read
    back as local time and lies ahead of the clock by the offset: a stay of
    1 h 12 min at 5.00 is billed -15. *)
Example stay_on_a_server_west_of_utc :
  let '(r1, s1) := post_check_in (server new_york 2 (fun _ => false) 1000)
                     (arrival "ABC123") fresh_db in
  let '(r2, s2) := post_check_out (server new_york 2 (fun _ => false) 4321000) 1
                     (pay "cash") s1 in
  r1 = checked_in 1
  /\ r2 = checked_out 1
  /\ option_map check_in_time (select_ticket s1 1) = Some 18001000
  /\ map amount (payments s2) = [(-15)%Q].
Proof.
  vm_compute. repeat split.
Qed.

(** C2 (amended). On a server in UTC, a vehicle checked in at the instant
    [t0] is checked out at the instant [t1], after any requests in between,
    with a payment method the payments table accepts, a receipt number not
    in use and a known cashier.  The check-out goes through, and the amount
    stored on the ticket and the amount of the Payment row it creates are
    both [ceil(d') * hourly_rate], [d'] being the hours from the stored
    check-in time, [t0] cut to the second, to [t1].  With [d] the elapsed
    hours [(t1 - t0) / 3600000], the hours billed are [ceil(d)] or
    [ceil(d) + 1], and [ceil(d)] when the check-in fell on a whole second.
    For a rate of 5.00 and a stay of 1 h 12 min (d = 1.2) the amount is
    10.00.  A rate left empty counts as 0. *)
Theorem check_out_bills_hours_since_stored_second
    (u1 u2 t0 t1 : Z) (err1 : nat -> bool) b body s0 id s1 qs rs s2 :
  post_check_in (server 0 u1 err1 t0) b s0 = (checked_in id, s1) ->
  exec qs s1 = (rs, s2) ->
  payment_method_check (payment_method_field body) = true ->
  existsb (fun p => receipt_number p =? t1) (payments s2) = false ->
  fk_ok s2 (has_user s2 u2) = true ->
  exists slotId sl s3 t3 p,
    slot_id_field b = Some slotId /\ select_slot s0 slotId = Some sl
    /\ post_check_out (server 0 u2 (fun _ => false) t1) id body s2
       = (checked_out id, s3)
    /\ select_ticket s3 id = Some t3
    /\ payments s3 = payments s2 ++ [p] /\ p_ticket_id p = id
    /\ total_amount t3 = Some (amount p)
    /\ duration_hours t3 = Some ((t1 - 1000 * (t0 / 1000)) # 3600000)
    /\ amount p
       == inject_Z (Qceiling ((t1 - 1000 * (t0 / 1000)) # 3600000))
          * to_number (hourly_rate sl)
    /\ Qceiling ((t1 - t0) # 3600000)
       <= Qceiling ((t1 - 1000 * (t0 / 1000)) # 3600000)
       <= Qceiling ((t1 - t0) # 3600000) + 1
    /\ (t0 mod 1000 = 0 ->
        amount p
        == inject_Z (Qceiling ((t1 - t0) # 3600000)) * to_number (hourly_rate sl))
    /\ (t1 - t0 = 4320000 -> to_number (hourly_rate sl) == 5 -> amount p == 10).
Proof.
  intros Hin Hrun Hpm Hrn Hfk.
  destruct (check_out_of_checked_in _ _ _ _ _ _ _ _
              (server 0 u2 (fun _ => false) t1) body Hin Hrun
              (fun _ => eq_refl) Hpm Hrn Hfk)
    as (slotId & sl & t2 & s3 & pid & Hid & Hsl & Hout & Ht & Hp).
  simpl in Ht, Hp.
  assert (Ha : totalCost (diff_hours t1 (read_back 0 t0)) (hourly_rate sl)
               == inject_Z (Qceiling ((t1 - 1000 * (t0 / 1000)) # 3600000))
                  * to_number (hourly_rate sl)).
  { unfold totalCost, Math_ceil, diff_hours, read_back.
    rewrite Z.sub_0_r. reflexivity. }
  eexists slotId, sl, s3, _, _.
  split; [exact Hid|]. split; [exact Hsl|]. split; [exact Hout|].
  split; [exact Ht|]. split; [exact Hp|]. split; [reflexivity|].
  split; [reflexivity|].
  split; [simpl; unfold diff_hours, read_back; rewrite Z.sub_0_r; reflexivity|].
  simpl amount. split; [exact Ha|].
  split; [apply billed_hours_of_stay|]. split.
  - intros Hw. rewrite Ha, (second_floor_whole _ Hw). reflexivity.
  - intros Hstay Hrate. rewrite Ha, Hrate.
    assert (E : Qceiling ((t1 - 1000 * (t0 / 1000)) # 3600000) = 2).
    { pose proof (second_floor t0) as F.
      set (f := 1000 * (t0 / 1000)) in *. clearbody f.
      apply Qceiling_between; unfold Qlt, Qle; simpl; lia. }
    rewrite E. reflexivity.
Qed.

Lemma check_out_bills_hours_since_stored_second_witness :
  let s1 := snd (post_check_in (at_time 1500) (arrival "ABC123") fresh_db) in
  let s2 := snd (exec [ShiftOpen (at_time 2000) opening; Receipt (at_time 3000) 1] s1) in
  exists s3 p,
    post_check_out (at_time 4321500) 1 (pay "cash") s2 = (checked_out 1, s3)
    /\ payments s3 = [p]
    /\ option_map total_amount (select_ticket s3 1) = Some (Some (amount p))
    /\ option_map duration_hours (select_ticket s3 1)
       = Some (Some (4320500 # 3600000))
    /\ amount p == 10.
Proof.
  intros s1 s2.
  destruct (check_out_bills_hours_since_stored_second 2 2 1500 4321500
              (fun _ => false) (arrival "ABC123") (pay "cash") fresh_db 1 s1
              [ShiftOpen (at_time 2000) opening; Receipt (at_time 3000) 1]
              (fst (exec [ShiftOpen (at_time 2000) opening; Receipt (at_time 3000) 1]
                      s1))
              s2)
    as (slotId & sl & s3 & t3 & p & Hid & Hsl & Hout & Ht & Hp & _ & Htot & Hdur
        & _ & _ & _ & H10).
  - vm_compute. reflexivity.
  - apply surjective_pairing.
  - reflexivity.
  - vm_compute. reflexivity.
  - vm_compute. reflexivity.
  - exists s3, p. split; [exact Hout|]. split; [exact Hp|].
    split; [rewrite Ht; simpl; rewrite Htot; reflexivity|].
    split; [rewrite Ht; simpl; rewrite Hdur; reflexivity|].
    apply H10; [reflexivity|].
    vm_compute in Hid. injection Hid as <-. vm_compute in Hsl. injection Hsl as <-.
    reflexivity.
Defined.

(** C3 (amended). On a server in UTC, a check-out at the very instant [t0]
    of the check-in (elapsed duration exactly 0) goes through and stores, on
    the ticket and on the Payment row, [ceil(0) * hourly_rate = 0] when [t0]
    falls on a whole second, and [1 * hourly_rate] otherwise, the stored
    check-in time being [t0] cut to the second.  No minimum charge is
    applied. *)
Theorem immediate_check_out_bills_stored_second
    (u1 u2 t0 : Z) (err1 : nat -> bool) b body s0 id s1 qs rs s2 :
  post_check_in (server 0 u1 err1 t0) b s0 = (checked_in id, s1) ->
  exec qs s1 = (rs, s2) ->
  payment_method_check (payment_method_field body) = true ->
  existsb (fun p => receipt_number p =? t0) (payments s2) = false ->
  fk_ok s2 (has_user s2 u2) = true ->
  exists slotId sl s3 t3 p,
    slot_id_field b = Some slotId /\ select_slot s0 slotId = Some sl
    /\ post_check_out (server 0 u2 (fun _ => false) t0) id body s2
       = (checked_out id, s3)
    /\ select_ticket s3 id = Some t3
    /\ payments s3 = payments s2 ++ [p] /\ p_ticket_id p = id
    /\ total_amount t3 = Some (amount p)
    /\ (t0 mod 1000 = 0 -> amount p == 0)
    /\ (t0 mod 1000 <> 0 -> amount p == 1 * to_number (hourly_rate sl)).
Proof.
  intros Hin Hrun Hpm Hrn Hfk.
  destruct (check_out_of_checked_in _ _ _ _ _ _ _ _
              (server 0 u2 (fun _ => false) t0) body Hin Hrun
              (fun _ => eq_refl) Hpm Hrn Hfk)
    as (slotId & sl & t2 & s3 & pid & Hid & Hsl & Hout & Ht & Hp).
  simpl in Ht, Hp.
  eexists slotId, sl, s3, _, _.
  split; [exact Hid|]. split; [exact Hsl|]. split; [exact Hout|].
  split; [exact Ht|]. split; [exact Hp|]. split; [reflexivity|].
  split; [reflexivity|]. simpl amount.
  unfold totalCost, Math_ceil, diff_hours, read_back. rewrite Z.sub_0_r.
  pose proof (second_floor t0) as F.
  pose proof (Z.div_mod t0 1000 ltac:(lia)) as D.
  set (f := 1000 * (t0 / 1000)) in *. clearbody f. split.
  - intros Hw.
    assert (E : Qceiling ((t0 - f) # 3600000) = 0)
      by (apply Qceiling_between; unfold Qlt, Qle; simpl; lia).
    rewrite E. ring.
  - intros Hw.
    assert (E : Qceiling ((t0 - f) # 3600000) = 1)
      by (apply Qceiling_between; unfold Qlt, Qle; simpl; lia).
    rewrite E. reflexivity.
Qed.

Lemma immediate_check_out_bills_stored_second_witness :
  (exists s3 p,
     post_check_out (at_time 1000) 1 (pay "cash") parked_db = (checked_out 1, s3)
     /\ payments s3 = [p] /\ amount p == 0)
  /\ (exists s3 p,
        post_check_out (at_time 1500) 1 (pay "cash")
          (snd (post_check_in (at_time 1500) (arrival "ABC123") fresh_db))
        = (checked_out 1, s3)
        /\ payments s3 = [p] /\ amount p == 5).
Proof.
  split.
  - destruct (immediate_check_out_bills_stored_second 2 2 1000
                (fun _ => false) (arrival "ABC123") (pay "cash") fresh_db 1
                parked_db [] [] parked_db)
      as (slotId & sl & s3 & t3 & p & Hid & Hsl & Hout & _ & Hp & _ & _ & H0 & _).
    + vm_compute. reflexivity.
    + reflexivity.
    + reflexivity.
    + reflexivity.
    + reflexivity.
    + exists s3, p. split; [exact Hout|]. split; [exact Hp|]. apply H0. reflexivity.
  - destruct (immediate_check_out_bills_stored_second 2 2 1500
                (fun _ => false) (arrival "ABC123") (pay "cash") fresh_db 1
                (snd (post_check_in (at_time 1500) (arrival "ABC123") fresh_db))
                [] []
                (snd (post_check_in (at_time 1500) (arrival "ABC123") fresh_db)))
      as (slotId & sl & s3 & t3 & p & Hid & Hsl & Hout & _ & Hp & _ & _ & _ & H1).
    + vm_compute. reflexivity.
    + reflexivity.
    + reflexivity.
    + vm_compute. reflexivity.
    + vm_compute. reflexivity.
    + exists s3, p. split; [exact Hout|]. split; [exact Hp|].
      rewrite H1; [|vm_compute; discriminate].
      vm_compute in Hid. injection Hid as <-. vm_compute in Hsl. injection Hsl as <-.
      reflexivity.
Defined.

End Stay.

Module AuditTrail.
Import Schema Sql Billing Http Cashier Lifecycle Frames Coverage.

Lemma audit_then_logs e n a rid r0 s r s' :
  audit_then e n a rid r0 s = (r, s') ->
  (r = r0 /\ audit_logs s' = audit_logs s ++ [audit_record e a "parking_tickets" rid])
  \/ (r = no_response /\ s' = s).
Proof.
  unfold audit_then, run, insert_audit_log. destruct (io_err e n).
  - intros H; inversion H; auto.
  - destruct (fk_ok s _); intros H; inversion H; subst; simpl; auto.
Qed.

Lemma post_check_in_audit e b s r s' :
  post_check_in e b s = (r, s') ->
  (exists tid, r = checked_in tid
     /\ audit_logs s' = audit_logs s ++ [audit_record e "CHECK_IN" "parking_tickets" tid])
  \/ ((forall tid, r <> checked_in tid) /\ audit_logs s' = audit_logs s).
Proof.
  unfold post_check_in, get, run.
  destruct (slot_id_field b) as [slotId|];
    [|intros H; inversion H; right; split; [discriminate | reflexivity]].
  destruct (falsy _ || falsy _);
    [intros H; inversion H; right; split; [discriminate | reflexivity]|].
  destruct (io_err e 0);
    [intros H; inversion H; right; split; [discriminate | reflexivity]|].
  destruct (select_slot s slotId) as [sl|];
    [|intros H; inversion H; right; split; [discriminate | reflexivity]].
  destruct (negb _);
    [intros H; inversion H; right; split; [discriminate | reflexivity]|].
  destruct (io_err e 1);
    [intros H; inversion H; right; split; [discriminate | reflexivity]|].
  unfold insert_or_replace_vehicle. destruct (fk_ok s _);
    [|intros H; inversion H; right; split; [discriminate | reflexivity]].
  destruct (io_err e 2);
    [intros H; inversion H; right; split; [discriminate | reflexivity]|].
  unfold insert_or_replace_driver.
  destruct (io_err e 3);
    [intros H; inversion H; right; split; [discriminate | reflexivity]|].
  unfold insert_ticket. simpl.
  destruct (existsb _ (parking_tickets s));
    [intros H; inversion H; right; split; [discriminate | reflexivity]|].
  destruct (fk_ok _ _);
    [|intros H; inversion H; right; split; [discriminate | reflexivity]].
  intros H. apply audit_then_logs in H as [[-> H]|[-> ->]].
  - left. eexists. split; [reflexivity|]. rewrite H.
    destruct (io_err e 4); reflexivity.
  - right. split; [discriminate|]. destruct (io_err e 4); reflexivity.
Qed.

Lemma post_check_out_audit e id b s r s' :
  post_check_out e id b s = (r, s') ->
  (r = checked_out id
   /\ audit_logs s' = audit_logs s ++ [audit_record e "CHECK_OUT" "parking_tickets" id])
  \/ (r <> checked_out id /\ audit_logs s' = audit_logs s).
Proof.
  unfold post_check_out, get, run.
  destruct (falsy _);
    [intros H; inversion H; right; split; [discriminate | reflexivity]|].
  destruct (io_err e 0);
    [intros H; inversion H; right; split; [discriminate | reflexivity]|].
  destruct (select_ticket_join_slot s id) as [[t ps]|];
    [|intros H; inversion H; right; split; [discriminate | reflexivity]].
  destruct (io_err e 1);
    [intros H; inversion H; right; split; [discriminate | reflexivity]|].
  unfold update_ticket_paid.
  destruct (io_err e 2);
    [intros H; inversion H; right; split; [discriminate | reflexivity]|].
  unfold insert_payment. simpl.
  destruct (negb _);
    [intros H; inversion H; right; split; [discriminate | reflexivity]|].
  destruct (existsb _ (payments s));
    [intros H; inversion H; right; split; [discriminate | reflexivity]|].
  destruct (fk_ok _ _);
    [|intros H; inversion H; right; split; [discriminate | reflexivity]].
  intros H. apply audit_then_logs in H as [[-> H]|[-> ->]].
  - left. split; [reflexivity|]. rewrite H. destruct (io_err e 3); reflexivity.
  - right. split; [discriminate|]. destruct (io_err e 3); reflexivity.
Qed.

Lemma post_shift_open_audit e b s r s' :
  post_shift_open e b s = (r, s') ->
  (r = shift_opened
   /\ audit_logs s'
      = audit_logs s ++
        [audit_record e "OPEN_SHIFT" "shifts"
           (lastID shift_id (shifts_seq s) (shifts s))])
  \/ (r <> shift_opened /\ audit_logs s' = audit_logs s).
Proof.
  unfold post_shift_open, run, insert_shift.
  destruct (io_err e 0);
    [intros H; inversion H; right; split; [discriminate | reflexivity]|].
  destruct (fk_ok s _);
    [|intros H; inversion H; right; split; [discriminate | reflexivity]].
  destruct (io_err e 1);
    [intros H; inversion H; right; split; [discriminate | reflexivity]|].
  unfold insert_audit_log. destruct (fk_ok _ _); intros H; inversion H; subst.
  - left. split; reflexivity.
  - right. split; [discriminate | reflexivity].
Qed.

(** X14. A check-in, a check-out and a shift opening append exactly one audit
    record, with their action and the id of the ticket or shift, when they
    answer with their success redirect, and none otherwise; the receipt
    route never writes to the audit log. *)
Theorem audit_record_iff_success :
  (forall e b s,
     let r := fst (post_check_in e b s) in
     let s' := snd (post_check_in e b s) in
     (exists tid, r = checked_in tid
        /\ audit_logs s'
           = audit_logs s ++ [audit_record e "CHECK_IN" "parking_tickets" tid])
     \/ ((forall tid, r <> checked_in tid) /\ audit_logs s' = audit_logs s))
  /\ (forall e id b s,
        let r := fst (post_check_out e id b s) in
        let s' := snd (post_check_out e id b s) in
        (r = checked_out id
         /\ audit_logs s'
            = audit_logs s ++ [audit_record e "CHECK_OUT" "parking_tickets" id])
        \/ (r <> checked_out id /\ audit_logs s' = audit_logs s))
  /\ (forall e b s,
        let r := fst (post_shift_open e b s) in
        let s' := snd (post_shift_open e b s) in
        (r = shift_opened
         /\ audit_logs s'
            = audit_logs s ++
              [audit_record e "OPEN_SHIFT" "shifts"
                 (lastID shift_id (shifts_seq s) (shifts s))])
        \/ (r <> shift_opened /\ audit_logs s' = audit_logs s))
  /\ (forall e id s, audit_logs (snd (get_receipt e id s)) = audit_logs s).
Proof.
  split; [|split; [|split]].
  - intros e b s. simpl. apply (post_check_in_audit e b s). apply surjective_pairing.
  - intros e id b s. simpl. apply (post_check_out_audit e id b s). apply surjective_pairing.
  - intros e b s. simpl. apply (post_shift_open_audit e b s). apply surjective_pairing.
  - intros e id s. destruct (get_receipt e id s) as [r s'] eqn:E. simpl.
    destruct (ReceiptPaths.get_receipt_state _ _ _ _ _ E)
      as [->|(t & pid & amt & _ & _ & _ & ->)]; reflexivity.
Qed.

End AuditTrail.

Module Integrity.
Import Schema Sql Billing Http Cashier Lifecycle Frames Coverage.

(** The statements a check-in has run, whatever its answer. *)
Lemma post_check_in_stages e b s r s' :
  post_check_in e b s = (r, s') ->
  s' = s
  \/ exists s1 vid,
       insert_or_replace_vehicle s (license_plate_field b) (make_field b)
         (model_field b) (color_field b) (year_field b) (owner_name_field b)
         (owner_phone_field b) (owner_email_field b) = Ok (s1, vid)
       /\ (s' = s1
           \/ exists s2 did,
                insert_or_replace_driver s1 (driver_name_field b)
                  (driver_phone_field b) (driver_email_field b)
                  (id_number_field b) (license_number_field b)
                  (address_field b) = Ok (s2, did)
                /\ (s' = s2
                    \/ exists slotId s3 tid s4,
                         insert_ticket s2 (date_now e) slotId vid did
                           (session_user e) (current_timestamp e) = Ok (s3, tid)
                         /\ (s4 = s3
                             \/ update_slot_status s3 slotId occupied = Ok s4)
                         /\ (s' = s4
                             \/ insert_audit_log s4 (session_user e) "CHECK_IN"
                                  "parking_tickets" tid = Ok s'))).
Proof.
  unfold post_check_in, get, run.
  destruct (slot_id_field b) as [slotId|]; [|answered].
  destruct (falsy _ || falsy _); [answered|].
  destruct (io_err e 0); [answered|].
  destruct (select_slot s slotId) as [sl|]; [|answered].
  destruct (negb _); [answered|].
  destruct (io_err e 1); [answered|].
  destruct (insert_or_replace_vehicle _ _ _ _ _ _ _ _ _) as [[s1 vid]|x] eqn:E1;
    [|answered].
  intros H. right. exists s1, vid. split; [first [reflexivity | eassumption]|].
  destruct (io_err e 2); [inversion H; auto|].
  destruct (insert_or_replace_driver _ _ _ _ _ _ _) as [[s2 did]|x] eqn:E2;
    [|inversion H; auto].
  right. exists s2, did. split; [first [reflexivity | eassumption]|].
  destruct (io_err e 3); [inversion H; auto|].
  destruct (insert_ticket _ _ _ _ _ _ _) as [[s3 tid]|x] eqn:E3;
    [|inversion H; auto].
  right. unfold audit_then, run in H.
  destruct (io_err e 4).
  - exists slotId, s3, tid, s3. split; [first [reflexivity | eassumption]|]. split; [auto|].
    destruct (io_err e 5); [inversion H; auto|].
    destruct (insert_audit_log _ _ _ _ _) as [s5|x] eqn:E5; inversion H; subst; auto.
  - destruct (update_slot_status s3 slotId occupied) as [s4|x] eqn:E4.
    + exists slotId, s3, tid, s4. split; [first [reflexivity | eassumption]|]. split; [auto|].
      destruct (io_err e 5); [inversion H; auto|].
      destruct (insert_audit_log _ _ _ _ _) as [s5|x] eqn:E5; inversion H; subst; auto.
    + discriminate E4.
Qed.

(** The statements a check-out has run, whatever its answer. *)
Lemma post_check_out_stages e id b s r s' :
  post_check_out e id b s = (r, s') ->
  s' = s
  \/ exists t ps s1,
       select_ticket_join_slot s id = Some (t, ps)
       /\ update_ticket_paid s id (current_timestamp e)
            (diff_hours (moment_now e) (check_in_time t))
            (totalCost (diff_hours (moment_now e) (check_in_time t))
                       (hourly_rate ps)) = Ok s1
       /\ (s' = s1
           \/ exists s2 pid s3,
                insert_payment s1 id
                  (totalCost (diff_hours (moment_now e) (check_in_time t))
                             (hourly_rate ps))
                  (payment_method_field b) (reference_number_field b)
                  (session_user e) (date_now e) (notes_field b) = Ok (s2, pid)
                /\ (s3 = s2 \/ update_slot_status s2 (slot_id ps) vacant = Ok s3)
                /\ (s' = s3
                    \/ insert_audit_log s3 (session_user e) "CHECK_OUT"
                         "parking_tickets" id = Ok s')).
Proof.
  unfold post_check_out, get, run.
  destruct (falsy _); [answered|].
  destruct (io_err e 0); [answered|].
  destruct (select_ticket_join_slot s id) as [[t ps]|]; [|answered].
  destruct (io_err e 1); [answered|].
  destruct (update_ticket_paid _ _ _ _ _) as [s1|x] eqn:E1; [|answered].
  intros H. right. exists t, ps, s1. split; [first [reflexivity | eassumption]|]. split; [first [reflexivity | eassumption]|].
  destruct (io_err e 2); [inversion H; auto|].
  destruct (insert_payment _ _ _ _ _ _ _ _) as [[s2 pid]|x] eqn:E2;
    [|inversion H; auto].
  right. unfold audit_then, run in H.
  destruct (io_err e 3).
  - exists s2, pid, s2. split; [first [reflexivity | eassumption]|]. split; [auto|].
    destruct (io_err e 4); [inversion H; auto|].
    destruct (insert_audit_log _ _ _ _ _) as [s5|x] eqn:E5; inversion H; subst; auto.
  - destruct (update_slot_status s2 (slot_id ps) vacant) as [s3|x] eqn:E4.
    + exists s2, pid, s3. split; [first [reflexivity | eassumption]|]. split; [auto|].
      destruct (io_err e 4); [inversion H; auto|].
      destruct (insert_audit_log _ _ _ _ _) as [s5|x] eqn:E5; inversion H; subst; auto.
    + discriminate E4.
Qed.

Lemma existsb_app_l {A : Type} (p : A -> bool) (l k : list A) :
  existsb p l = true -> existsb p (l ++ k) = true.
Proof. intros H. rewrite existsb_app, H. reflexivity. Qed.

(** Rows added to the other tables leave every reference resolved. *)
Lemma references_ok_frame s s' :
  references_ok s ->
  parking_tickets s' = parking_tickets s -> payments s' = payments s ->
  (forall x, has_slot s x = true -> has_slot s' x = true) ->
  (forall x, has_vehicle s x = true -> has_vehicle s' x = true) ->
  (forall x, has_driver s x = true -> has_driver s' x = true) ->
  users s' = users s ->
  references_ok s'.
Proof.
  intros [HT HP] ET EP Hs Hv Hd Hu. split.
  - intros t Ht. rewrite ET in Ht. destruct (HT t Ht) as (A & B & C & D).
    repeat split; auto. unfold has_user in *. rewrite Hu. exact D.
  - intros p Hp. rewrite EP in Hp. destruct (HP p Hp) as (A & B).
    split; [unfold has_ticket in *; rewrite ET; exact A|].
    unfold has_user in *. rewrite Hu. exact B.
Qed.

Lemma insert_or_replace_vehicle_refs s plate mk mdl col yr owner ophone oemail s1 vid :
  foreign_keys s = true -> references_ok s ->
  insert_or_replace_vehicle s plate mk mdl col yr owner ophone oemail = Ok (s1, vid) ->
  references_ok s1.
Proof.
  intros Hfk [HT HP] E.
  pose proof (CheckIn.insert_or_replace_vehicle_rows _ _ _ _ _ _ _ _ _ _ _ E)
    as (_ & V1 & T1 & _ & Href).
  specialize (Href Hfk).
  unfold insert_or_replace_vehicle in E. destruct (fk_ok s _); [|discriminate].
  inversion E; subst s1; clear E. split.
  - intros t Ht. simpl in Ht. destruct (HT t Ht) as (A & B & C & D).
    repeat split; try assumption.
    unfold has_vehicle in *. simpl. apply existsb_app_l.
    apply existsb_exists in B as (v & Hv & Hid).
    apply existsb_exists. exists v. split; [|exact Hid].
    apply filter_In. split; [exact Hv|].
    apply negb_true_iff. apply String.eqb_neq. intros Hplate.
    apply Z.eqb_eq in Hid. exact (Href t v Ht Hv Hplate Hid).
  - intros p Hp. simpl in Hp. exact (HP p Hp).
Qed.

Lemma insert_or_replace_driver_refs s name ph em idn lic addr s2 did :
  references_ok s ->
  insert_or_replace_driver s name ph em idn lic addr = Ok (s2, did) ->
  references_ok s2.
Proof.
  intros H E. unfold insert_or_replace_driver in E. inversion E; subst; clear E.
  apply (references_ok_frame s); auto.
  intros x Hx. unfold has_driver in *. simpl. apply existsb_app_l. exact Hx.
Qed.

Lemma insert_ticket_refs s number slotId vid did cid ts s3 tid :
  foreign_keys s = true -> references_ok s ->
  insert_ticket s number slotId vid did cid ts = Ok (s3, tid) ->
  references_ok s3.
Proof.
  intros Hfk [HT HP] E. unfold insert_ticket in E.
  destruct (existsb _ _); [discriminate|].
  destruct (fk_ok s _) eqn:F; [|discriminate].
  unfold fk_ok in F. rewrite Hfk in F. simpl in F.
  apply andb_true_iff in F as [F Fu]. apply andb_true_iff in F as [F Fd].
  apply andb_true_iff in F as [Fs Fv].
  inversion E; subst; clear E. split.
  - intros t Ht. simpl in Ht. apply in_app_or in Ht as [Ht|[<-|[]]].
    + exact (HT t Ht).
    + simpl. repeat split; assumption.
  - intros p Hp. simpl in Hp. destruct (HP p Hp) as [A B]. split; [|exact B].
    unfold has_ticket in *. simpl. apply existsb_app_l. exact A.
Qed.

Lemma update_slot_status_refs s id st s1 :
  references_ok s -> update_slot_status s id st = Ok s1 -> references_ok s1.
Proof.
  intros H E. unfold update_slot_status in E. inversion E; subst; clear E.
  apply (references_ok_frame s); auto.
  intros x Hx. unfold has_slot in *. simpl.
  apply existsb_exists in Hx as (r & Hr & Hid).
  apply existsb_exists.
  exists (if slot_id r =? id then with_status r st else r). split.
  - apply in_map_iff. exists r. split; [|exact Hr].
    destruct (slot_id r =? id); reflexivity.
  - destruct (slot_id r =? id); exact Hid.
Qed.

Lemma update_ticket_paid_refs s id ts dur total s1 :
  references_ok s -> update_ticket_paid s id ts dur total = Ok s1 ->
  references_ok s1.
Proof.
  intros [HT HP] E. unfold update_ticket_paid in E. inversion E; subst; clear E.
  split.
  - intros t' Ht'. simpl in Ht'. apply in_map_iff in Ht' as (t & <- & Ht).
    destruct (HT t Ht) as (A & B & C & D).
    destruct (ticket_id t =? id); simpl; repeat split; assumption.
  - intros p Hp. simpl in Hp. destruct (HP p Hp) as [A B]. split; [|exact B].
    unfold has_ticket in *. simpl.
    apply existsb_exists in A as (t & Ht & Hid).
    apply existsb_exists.
    exists (if ticket_id t =? id then paid_row t ts dur total else t). split.
    + apply in_map_iff. exists t. split; [reflexivity | exact Ht].
    + destruct (ticket_id t =? id); exact Hid.
Qed.

Lemma insert_payment_refs s id amt m ref c rn notes s2 pid :
  foreign_keys s = true -> references_ok s ->
  insert_payment s id amt m ref c rn notes = Ok (s2, pid) ->
  references_ok s2.
Proof.
  intros Hfk [HT HP] E. unfold insert_payment in E.
  destruct (negb _); [discriminate|]. destruct (existsb _ _); [discriminate|].
  destruct (fk_ok s _) eqn:F; [|discriminate].
  unfold fk_ok in F. rewrite Hfk in F. simpl in F.
  apply andb_true_iff in F as [Ft Fu].
  inversion E; subst; clear E. split.
  - intros t Ht. simpl in Ht. exact (HT t Ht).
  - intros p Hp. simpl in Hp. apply in_app_or in Hp as [Hp|[<-|[]]].
    + exact (HP p Hp).
    + simpl. split; assumption.
Qed.

Lemma insert_audit_log_refs s u a tb rid s1 :
  references_ok s -> insert_audit_log s u a tb rid = Ok s1 -> references_ok s1.
Proof.
  intros H E. unfold insert_audit_log in E. destruct (fk_ok s _); [|discriminate].
  inversion E; subst; clear E. apply (references_ok_frame s); auto.
Qed.

Lemma insert_shift_refs s c today ts opening notes s1 id :
  references_ok s -> insert_shift s c today ts opening notes = Ok (s1, id) ->
  references_ok s1.
Proof.
  intros H E. unfold insert_shift in E. destruct (fk_ok s _); [|discriminate].
  inversion E; subst; clear E. apply (references_ok_frame s); auto.
Qed.

Lemma grows_foreign_keys s s' : grows s s' -> foreign_keys s' = foreign_keys s.
Proof. intros (_ & _ & _ & _ & _ & _ & _ & H). exact H. Qed.

Lemma step_keeps_references q s :
  foreign_keys s = true -> references_ok s -> references_ok (snd (step q s)).
Proof.
  intros Hfk Hok. destruct (step q s) as [r s'] eqn:Es. simpl.
  destruct q as [e b|e id b|e id|e b]; simpl in Es.
  - destruct (post_check_in_stages _ _ _ _ _ Es)
      as [->|(s1 & vid & E1 & [->|(s2 & did & E2 & [->|(slotId & s3 & tid & s4
            & E3 & E4 & E5)])])]; try assumption.
    + eapply insert_or_replace_vehicle_refs; eauto.
    + eapply insert_or_replace_driver_refs; [|eauto].
      eapply insert_or_replace_vehicle_refs; eauto.
    + pose proof (insert_or_replace_vehicle_refs _ _ _ _ _ _ _ _ _ _ _ Hfk Hok E1) as R1.
      pose proof (insert_or_replace_driver_refs _ _ _ _ _ _ _ _ _ R1 E2) as R2.
      assert (F2 : foreign_keys s2 = true).
      { apply Ledger.insert_or_replace_vehicle_grows in E1.
        apply Ledger.insert_or_replace_driver_grows in E2.
        rewrite (grows_foreign_keys _ _ E2), (grows_foreign_keys _ _ E1). exact Hfk. }
      pose proof (insert_ticket_refs _ _ _ _ _ _ _ _ _ F2 R2 E3) as R3.
      assert (R4 : references_ok s4).
      { destruct E4 as [->|E4]; [exact R3|].
        eapply update_slot_status_refs; eauto. }
      destruct E5 as [->|E5]; [exact R4|].
      eapply insert_audit_log_refs; eauto.
  - destruct (post_check_out_stages _ _ _ _ _ _ Es)
      as [->|(t & ps & s1 & _ & E1 & [->|(s2 & pid & s3 & E2 & E3 & E4)])];
      try assumption.
    + eapply update_ticket_paid_refs; eauto.
    + pose proof (update_ticket_paid_refs _ _ _ _ _ _ Hok E1) as R1.
      assert (F1 : foreign_keys s1 = true).
      { apply Ledger.update_ticket_paid_grows in E1.
        rewrite (grows_foreign_keys _ _ E1). exact Hfk. }
      pose proof (insert_payment_refs _ _ _ _ _ _ _ _ _ _ F1 R1 E2) as R2.
      assert (R3 : references_ok s3).
      { destruct E3 as [->|E3]; [exact R2|].
        eapply update_slot_status_refs; eauto. }
      destruct E4 as [->|E4]; [exact R3|].
      eapply insert_audit_log_refs; eauto.
  - revert Es. unfold get_receipt, get, run.
    destruct (io_err e 0); [answered|].
    destruct (select_ticket s id) as [t|]; [|answered].
    destruct (negb _); [answered|].
    destruct (io_err e 1); [answered|].
    destruct (select_payment s id) as [p|] eqn:Ep.
    + intros H. apply Recovery.render_receipt_db in H. subst. exact Hok.
    + destruct (recovery_amount e id t s) as [amt|x]; [|answered].
      destruct (io_err e 3); [answered|].
      destruct (insert_payment _ _ _ _ _ _ _ _) as [[s1 pid]|x] eqn:Ei; [|answered].
      intros H. apply Recovery.render_receipt_db in H. subst s'.
      eapply insert_payment_refs; eauto.
  - revert Es. unfold post_shift_open, run.
    destruct (io_err e 0); [answered|].
    destruct (insert_shift _ _ _ _ _ _) as [[s1 sid]|x] eqn:E1; [|answered].
    pose proof (insert_shift_refs _ _ _ _ _ _ _ _ Hok E1) as R1.
    destruct (io_err e 1); [answered|].
    destruct (insert_audit_log _ _ _ _ _) as [s2|x] eqn:E2; [|answered].
    intros H; inversion H; subst. eapply insert_audit_log_refs; eauto.
Qed.

(** X15. With foreign keys enforced, in a database where every ticket's
    slot, vehicle, driver and cashier and every payment's ticket and cashier
    exist, this stays so after any sequence of requests; in particular the
    ticket page finds every ticket. *)
Theorem references_stay_resolved (qs : list request) (s : db) :
  foreign_keys s = true -> references_ok s ->
  references_ok (snd (exec qs s))
  /\ (forall t, In t (parking_tickets (snd (exec qs s))) ->
        select_ticket_details (snd (exec qs s)) (ticket_id t) <> None).
Proof.
  intros Hfk Hok.
  assert (Hrefs : references_ok (snd (exec qs s))).
  { revert s Hfk Hok. induction qs as [|q qs IH]; intros s Hfk Hok; [exact Hok|].
    simpl. destruct (step q s) as [r s1] eqn:Es.
    pose proof (step_keeps_references q s Hfk Hok) as R1. rewrite Es in R1.
    simpl in R1.
    assert (F1 : foreign_keys s1 = true).
    { pose proof (Ledger.step_grows q s) as G. rewrite Es in G. simpl in G.
      rewrite (grows_foreign_keys _ _ G). exact Hfk. }
    specialize (IH s1 F1 R1). destruct (exec qs s1) as [rs s2]. exact IH. }
  split; [exact Hrefs|].
  intros t Ht. destruct Hrefs as [HT _].
  unfold select_ticket_details, select_ticket.
  destruct (find (fun r => ticket_id r =? ticket_id t)
                 (parking_tickets (snd (exec qs s)))) as [t0|] eqn:E.
  - apply find_some in E as [Hin _]. destruct (HT t0 Hin) as (A & B & C & _).
    unfold has_slot, has_vehicle, has_driver, select_slot, select_vehicle,
      select_driver in *.
    destruct (find _ (parking_slots _)) eqn:E1.
    + destruct (find _ (vehicles _)) eqn:E2.
      * destruct (find _ (drivers _)) eqn:E3; [discriminate|].
        apply existsb_exists in C as (x & Hx & Hid).
        pose proof (find_none _ _ E3 x Hx) as F. simpl in F. congruence.
      * apply existsb_exists in B as (x & Hx & Hid).
        pose proof (find_none _ _ E2 x Hx) as F. simpl in F. congruence.
    + apply existsb_exists in A as (x & Hx & Hid).
      pose proof (find_none _ _ E1 x Hx) as F. simpl in F. congruence.
  - pose proof (find_none _ _ E t Ht) as F. simpl in F.
    rewrite Z.eqb_refl in F. discriminate.
Qed.

Lemma references_stay_resolved_witness :
  references_ok (snd (exec resubmitted_check_out fresh_db))
  /\ (forall t, In t (parking_tickets (snd (exec resubmitted_check_out fresh_db))) ->
        select_ticket_details (snd (exec resubmitted_check_out fresh_db))
                              (ticket_id t) <> None).
Proof.
  apply (references_stay_resolved resubmitted_check_out fresh_db).
  - reflexivity.
  - split; intros x [].
Defined.

End Integrity.


Module CheckOutFrame.
Import Schema Sql Billing Http Cashier Lifecycle Frames Coverage.

Lemma select_ticket_after_update (l : list ticket) (id y ts : Z) (dur total : Q) :
  y <> id ->
  find (fun r => ticket_id r =? y)
       (map (fun t => if ticket_id t =? id then paid_row t ts dur total else t) l)
  = find (fun r => ticket_id r =? y) l.
Proof.
  intros Hy. induction l as [|a l IH]; simpl; [reflexivity|].
  destruct (ticket_id a =? id) eqn:Ea; simpl.
  - apply Z.eqb_eq in Ea. rewrite Ea.
    assert (E : (id =? y) = false) by (apply Z.eqb_neq; congruence).
    rewrite E. exact IH.
  - destruct (ticket_id a =? y); [reflexivity | exact IH].
Qed.

(** X16. A check-out, whatever its outcome, leaves every other ticket as it
    was, changes no slot but the ticket's own, and never touches vehicles,
    drivers or shifts; when the ticket lookup finds nothing it changes
    nothing. *)
Theorem check_out_touches_one_ticket e id b s r s' :
  post_check_out e id b s = (r, s') ->
  (forall y, y <> id -> select_ticket s' y = select_ticket s y)
  /\ (select_ticket_join_slot s id = None -> s' = s)
  /\ (forall t ps y, select_ticket_join_slot s id = Some (t, ps) ->
                     y <> slot_id ps -> select_slot s' y = select_slot s y)
  /\ vehicles s' = vehicles s /\ drivers s' = drivers s /\ shifts s' = shifts s.
Proof.
  intros Hrun.
  destruct (Integrity.post_check_out_stages _ _ _ _ _ _ Hrun)
    as [->|(t & ps & s1 & Hsel & E1 & Hrest)].
  { repeat split; reflexivity. }
  unfold update_ticket_paid in E1. inversion E1; subst s1; clear E1.
  assert (Hframe :
            (forall y, y <> id -> select_ticket s' y = select_ticket s y)
            /\ (forall y, y <> slot_id ps -> select_slot s' y = select_slot s y)
            /\ vehicles s' = vehicles s /\ drivers s' = drivers s
            /\ shifts s' = shifts s).
  { destruct Hrest as [->|(s2 & pid & s3 & E2 & E3 & E4)].
    - repeat split; try reflexivity.
      intros y Hy. unfold select_ticket. simpl.
      apply select_ticket_after_update. exact Hy.
    - unfold insert_payment in E2.
      destruct (negb _); [discriminate|].
      destruct (existsb _ _); [discriminate|].
      destruct (fk_ok _ _); [|discriminate].
      inversion E2; subst s2 pid; clear E2.
      assert (H3 : (forall y, y <> id -> select_ticket s3 y = select_ticket s y)
                   /\ (forall y, y <> slot_id ps ->
                                 select_slot s3 y = select_slot s y)
                   /\ vehicles s3 = vehicles s /\ drivers s3 = drivers s
                   /\ shifts s3 = shifts s).
      { destruct E3 as [->|E3].
        - repeat split; try reflexivity.
          intros y Hy. unfold select_ticket. simpl.
          apply select_ticket_after_update. exact Hy.
        - unfold update_slot_status in E3. inversion E3; subst s3; clear E3.
          repeat split; try reflexivity.
          + intros y Hy. unfold select_ticket. simpl.
            apply select_ticket_after_update. exact Hy.
          + intros y Hy. unfold select_slot. simpl.
            change (fun r0 : slot =>
                      if slot_id r0 =? slot_id ps
                      then {| slot_id := slot_id r0;
                              slot_number := slot_number r0;
                              status := vacant; hourly_rate := hourly_rate r0 |}
                      else r0)
              with (fun r0 => if slot_id r0 =? slot_id ps
                              then with_status r0 vacant else r0).
            rewrite CheckInPaths.select_slot_after_update.
            apply Z.eqb_neq in Hy. rewrite Hy. reflexivity. }
      destruct E4 as [->|E4]; [exact H3|].
      unfold insert_audit_log in E4. destruct (fk_ok s3 _); [|discriminate].
      inversion E4; subst s'; clear E4. exact H3. }
  destruct Hframe as (A & B & C & D & E).
  split; [exact A|]. split; [rewrite Hsel; discriminate|].
  split; [|repeat split; assumption].
  intros t0 ps0 y Hsel0 Hy. rewrite Hsel in Hsel0. inversion Hsel0; subst.
  apply B. exact Hy.
Qed.

Lemma check_out_touches_one_ticket_witness :
  (forall y, y <> 1 -> select_ticket settled_db y = select_ticket parked_db y)
  /\ vehicles settled_db = vehicles parked_db.
Proof.
  destruct (check_out_touches_one_ticket (at_time 4321000) 1 (pay "cash")
              parked_db (checked_out 1) settled_db)
    as (H & _ & _ & K & _).
  - vm_compute. reflexivity.
  - split; assumption.
Defined.

End CheckOutFrame.

Module Runs.
Import Schema Sql Billing Http Cashier Lifecycle Frames Coverage.

(** X17. From a database where every occupied slot has exactly one open
    ticket, every other slot has none and ticket ids are unique, this stays
    so along every run in which check-ins and check-outs go through with
    their slot update and check-outs target tickets that are still open. *)
Theorem orderly_runs_keep_slots_and_tickets_in_step (qs : list request) (s : db) :
  occupancy s -> unique_ticket_ids s -> orderly_run qs s ->
  occupancy (snd (exec qs s)) /\ unique_ticket_ids (snd (exec qs s)).
Proof.
  revert s. induction qs as [|q qs IH]; intros s Hocc Hu Hrun.
  - simpl. split; assumption.
  - simpl in Hrun. destruct Hrun as [Hq Hrun]. simpl.
    destruct (step q s) as [r s1] eqn:Es. simpl in Hrun.
    assert (Hs1 : occupancy s1 /\ unique_ticket_ids s1).
    { destruct q as [e b|e id b|e id|e b]; simpl in Es, Hq.
      - destruct Hq as [Hio [tid Hr]]. rewrite Es in Hr. simpl in Hr. subst r.
        split; [eapply Occupancy.check_in_keeps_occupancy
               | eapply Occupancy.check_in_keeps_unique_ids]; eauto.
      - destruct Hq as (Hio & Hr & t & Ht & Hopen). rewrite Es in Hr.
        simpl in Hr. subst r. eapply Occupancy.check_out_keeps_occupancy; eauto.
      - apply Occupancy.get_receipt_frame in Es as [A B].
        apply (Occupancy.frame_keeps_occupancy s s1 A B). split; assumption.
      - apply Occupancy.post_shift_open_frame in Es as [A B].
        apply (Occupancy.frame_keeps_occupancy s s1 A B). split; assumption. }
    destruct Hs1 as [Hocc1 Hu1].
    specialize (IH s1 Hocc1 Hu1 Hrun). destruct (exec qs s1) as [rs s2]. exact IH.
Qed.

Lemma orderly_runs_keep_slots_and_tickets_in_step_witness :
  occupancy (snd (exec (firstn 3 resubmitted_check_out) fresh_db))
  /\ unique_ticket_ids (snd (exec (firstn 3 resubmitted_check_out) fresh_db)).
Proof.
  apply (orderly_runs_keep_slots_and_tickets_in_step
           (firstn 3 resubmitted_check_out) fresh_db).
  - intros sl [<-|[]]. right. simpl. split; [discriminate | reflexivity].
  - constructor.
  - simpl. repeat split; try reflexivity; eexists; try reflexivity.
    vm_compute. split; reflexivity.
Defined.

End Runs.

Module ShiftOpening.
Import Schema Sql Billing Http Cashier Lifecycle Frames Coverage.

(** The shifts table after an opening that is answered with success. *)
Lemma shift_open_tables e b s s' :
  post_shift_open e b s = (shift_opened, s') ->
  shifts s'
  = shifts s ++ [shift_row e (lastID shift_id (shifts_seq s) (shifts s)) b]
  /\ parking_tickets s' = parking_tickets s.
Proof.
  unfold post_shift_open, run, insert_shift, insert_audit_log, shift_opened.
  destruct (io_err e 0); [discriminate|].
  destruct (fk_ok s _); [|discriminate].
  destruct (io_err e 1); [discriminate|].
  destruct (fk_ok _ _); [|discriminate].
  intros H; inversion H; subst. simpl. split; reflexivity.
Qed.

(** X18. A shift opening never touches tickets, payments or slots.  When it
    succeeds it appends one shift under a new id: open, for the session's
    cashier and today's date, with the given opening amount, or 0 when none
    is given.  When it answers with its error nothing is written, which is
    the case for a cashier unknown to the users table under foreign keys. *)
Theorem shift_open_effect e b s r s' :
  post_shift_open e b s = (r, s') ->
  parking_tickets s' = parking_tickets s
  /\ payments s' = payments s
  /\ parking_slots s' = parking_slots s
  /\ (r = shift_opened ->
      shifts s'
      = shifts s ++ [shift_row e (lastID shift_id (shifts_seq s) (shifts s)) b]
      /\ ~ In (lastID shift_id (shifts_seq s) (shifts s)) (map shift_id (shifts s)))
  /\ (r = redirect cashier_shift_open "error=Failed to open shift" -> s' = s)
  /\ (foreign_keys s = true -> has_user s (session_user e) = false ->
      r = redirect cashier_shift_open "error=Failed to open shift").
Proof.
  unfold post_shift_open, run, insert_shift, insert_audit_log, fk_ok, has_user.
  destruct (io_err e 0).
  { intros H; inversion H; subst. repeat split; auto; discriminate. }
  destruct (negb (foreign_keys s) || existsb (Z.eqb (session_user e)) (users s)) eqn:F; simpl.
  - assert (Hfresh : ~ In (lastID shift_id (shifts_seq s) (shifts s))
                          (map shift_id (shifts s))).
    { intros Hin. apply in_map_iff in Hin as (x & Hx & Hin).
      pose proof (CheckIn.lastID_fresh shift_id (shifts_seq s) _ _ Hin). lia. }
    assert (Hnot : foreign_keys s = true -> has_user s (session_user e) = false ->
                   False).
    { intros A B. unfold has_user in B. rewrite A, B in F. discriminate. }
    destruct (io_err e 1).
    + intros H; inversion H; subst. simpl.
      repeat split; try discriminate; intros; exfalso; auto.
    + rewrite F. intros H; inversion H; subst. simpl.
      repeat split; try discriminate; try assumption; intros; exfalso; auto.
  - intros H; inversion H; subst. repeat split; auto; discriminate.
Qed.

Lemma shift_open_effect_witness :
  shifts (snd (post_shift_open (at_time 1000) opening fresh_db))
  = shifts fresh_db ++
    [shift_row (at_time 1000)
       (lastID shift_id (shifts_seq fresh_db) (shifts fresh_db)) opening]
  /\ parking_tickets (snd (post_shift_open (at_time 1000) opening fresh_db))
     = parking_tickets fresh_db.
Proof.
  destruct (shift_open_effect (at_time 1000) opening fresh_db
              (fst (post_shift_open (at_time 1000) opening fresh_db))
              (snd (post_shift_open (at_time 1000) opening fresh_db)))
    as (T & _ & _ & H & _).
  - apply surjective_pairing.
  - split; [|exact T]. apply H. vm_compute. reflexivity.
Defined.

(** X19. After a successful shift opening the shift-open page of the same
    cashier on the same day shows an open shift of that cashier and day: the
    one just opened if none was open before, else the one that was already
    shown before. *)
Theorem shift_page_after_opening e b s s' e2 :
  post_shift_open e b s = (shift_opened, s') ->
  io_err e2 0 = false ->
  session_user e2 = session_user e -> date_today e2 = date_today e ->
  exists sh,
    ShiftPage.get_shift_open e2 s' = ShiftPage.shift_open_page (Some sh)
    /\ s_cashier_id sh = session_user e /\ shift_date sh = date_today e
    /\ s_status sh = open
    /\ (open_shifts s (session_user e) (date_today e) = [] ->
        sh = shift_row e (lastID shift_id (shifts_seq s) (shifts s)) b)
    /\ (forall old, hd_error (open_shifts s (session_user e) (date_today e))
                    = Some old -> sh = old).
Proof.
  intros Hrun H0 Hu Hd.
  destruct (shift_open_tables _ _ _ _ Hrun) as [Hs _].
  unfold ShiftPage.get_shift_open, get. rewrite H0, Hu, Hd.
  unfold open_shifts. rewrite Hs, filter_app. simpl.
  rewrite !Z.eqb_refl. simpl.
  fold (open_shifts s (session_user e) (date_today e)).
  destruct (open_shifts s (session_user e) (date_today e)) as [|old rest] eqn:E.
  - simpl. eexists. split; [reflexivity|]. simpl.
    repeat split; try reflexivity. intros old H. discriminate.
  - simpl. exists old. split; [reflexivity|].
    assert (Hin : In old (open_shifts s (session_user e) (date_today e))).
    { rewrite E. left. reflexivity. }
    unfold open_shifts in Hin. apply filter_In in Hin as [_ Hin].
    apply andb_true_iff in Hin as [Hin Hst].
    apply andb_true_iff in Hin as [Hc Hdt].
    apply Z.eqb_eq in Hc, Hdt.
    repeat split; try assumption.
    + destruct (s_status old); [reflexivity | discriminate].
    + intros H; discriminate.
    + intros o H. inversion H. reflexivity.
Qed.

Lemma shift_page_after_opening_witness :
  exists sh,
    ShiftPage.get_shift_open (at_time 2000)
      (snd (post_shift_open (at_time 1000) opening fresh_db))
    = ShiftPage.shift_open_page (Some sh)
    /\ s_cashier_id sh = session_user (at_time 1000)
    /\ shift_date sh = date_today (at_time 1000)
    /\ s_status sh = open
    /\ (open_shifts fresh_db (session_user (at_time 1000))
                    (date_today (at_time 1000)) = [] ->
        sh = shift_row (at_time 1000)
               (lastID shift_id (shifts_seq fresh_db) (shifts fresh_db)) opening)
    /\ (forall old,
          hd_error (open_shifts fresh_db (session_user (at_time 1000))
                                (date_today (at_time 1000))) = Some old ->
          sh = old).
Proof.
  apply (shift_page_after_opening (at_time 1000) opening fresh_db
           (snd (post_shift_open (at_time 1000) opening fresh_db)) (at_time 2000)).
  - vm_compute. reflexivity.
  - reflexivity.
  - reflexivity.
  - reflexivity.
Defined.

End ShiftOpening.

Module SlotOverride.
Import Schema Sql Billing Http Cashier Lifecycle Frames Coverage ApiSlots.

Lemma slot_status_of_string_name (x : string) (st : slot_status) :
  slot_status_of_string x = Some st <-> x = slot_status_name st.
Proof.
  unfold slot_status_of_string. split.
  - destruct (x =? "vacant")%string eqn:E1;
      [apply String.eqb_eq in E1; intros H; inversion H; subst; reflexivity|].
    destruct (x =? "occupied")%string eqn:E2;
      [apply String.eqb_eq in E2; intros H; inversion H; subst; reflexivity|].
    destruct (x =? "reserved")%string eqn:E3;
      [apply String.eqb_eq in E3; intros H; inversion H; subst; reflexivity|].
    destruct (x =? "out_of_service")%string eqn:E4;
      [apply String.eqb_eq in E4; intros H; inversion H; subst; reflexivity|].
    discriminate.
  - intros ->. destruct st; reflexivity.
Qed.

(** A status update that is answered with success: the slot row it found and
    what it wrote. *)
Lemma put_slot_status_success e slotId x s s' :
  put_slot_status e slotId x s
  = (api_success "Slot status updated successfully", s') ->
  exists st sl,
    x = slot_status_name st
    /\ select_slot s slotId = Some sl
    /\ select_slot s' slotId = Some (with_status sl st)
    /\ (forall y, y <> slotId -> select_slot s' y = select_slot s y)
    /\ parking_tickets s' = parking_tickets s
    /\ payments s' = payments s
    /\ audit_logs s'
       = audit_logs s ++
         [audit_record e "UPDATE_SLOT_STATUS" "parking_slots" slotId].
Proof.
  unfold put_slot_status, get, run.
  destruct (slot_status_of_string x) as [st|] eqn:Ex; [|discriminate].
  apply slot_status_of_string_name in Ex.
  destruct (io_err e 0); [discriminate|].
  destruct (select_slot s slotId) as [sl|] eqn:Es; [|discriminate].
  destruct (io_err e 1); [discriminate|].
  unfold update_slot_status, insert_audit_log.
  destruct (io_err e 2); [discriminate|].
  destruct (fk_ok _ _); [|discriminate].
  intros H; inversion H; subst; clear H.
  exists st, sl. split; [reflexivity|]. split; [reflexivity|].
  split; [|split; [|split; [|split]]]; try reflexivity.
  - unfold select_slot in *. simpl.
    change (fun r0 : slot =>
              if slot_id r0 =? slotId
              then {| slot_id := slot_id r0; slot_number := slot_number r0;
                      status := st; hourly_rate := hourly_rate r0 |}
              else r0)
      with (fun r0 => if slot_id r0 =? slotId then with_status r0 st else r0).
    rewrite CheckInPaths.select_slot_after_update, Z.eqb_refl, Es.
    reflexivity.
  - intros y Hy. unfold select_slot. simpl.
    change (fun r0 : slot =>
              if slot_id r0 =? slotId
              then {| slot_id := slot_id r0; slot_number := slot_number r0;
                      status := st; hourly_rate := hourly_rate r0 |}
              else r0)
      with (fun r0 => if slot_id r0 =? slotId then with_status r0 st else r0).
    rewrite CheckInPaths.select_slot_after_update.
    apply Z.eqb_neq in Hy. rewrite Hy. reflexivity.
Qed.



(** X21. After the JSON API has set a slot to any status but vacant, a
    check-in into this slot is refused as unavailable and writes nothing;
    after it has set the slot to vacant, a check-in is no longer refused as
    unavailable, whatever tickets are open on the slot. *)
Theorem override_decides_check_in e1 slotId x s s1 e2 b :
  put_slot_status e1 slotId x s
  = (api_success "Slot status updated successfully", s1) ->
  slot_id_field b = Some slotId ->
  required_fields_missing b = false ->
  io_err e2 0 = false ->
  (x <> "vacant" -> post_check_in e2 b s1 = (slot_unavailable, s1))
  /\ (x = "vacant" -> fst (post_check_in e2 b s1) <> slot_unavailable).
Proof.
  intros Hput Hid Hreq H0.
  destruct (put_slot_status_success _ _ _ _ _ Hput) as (st & sl & Hx & _ & Hs1 & _).
  unfold post_check_in, get, run.
  unfold required_fields_missing in Hreq. rewrite Hid in Hreq |- *.
  rewrite Hreq, H0, Hs1. simpl status. split.
  - intros Hne. destruct st; simpl; try reflexivity.
    exfalso. apply Hne. exact Hx.
  - intros Hv. rewrite Hv in Hx. destruct st; try discriminate Hx. simpl.
    unfold slot_unavailable.
    destruct (io_err e2 1); [simpl; discriminate|].
    destruct (insert_or_replace_vehicle _ _ _ _ _ _ _ _ _) as [[s2 vid]|err];
      [|simpl; discriminate].
    destruct (io_err e2 2); [simpl; discriminate|].
    destruct (insert_or_replace_driver _ _ _ _ _ _ _) as [[s3 did]|err];
      [|simpl; discriminate].
    destruct (io_err e2 3); [simpl; discriminate|].
    destruct (insert_ticket _ _ _ _ _ _ _) as [[s4 tid]|err];
      [|simpl; discriminate].
    unfold audit_then, run.
    destruct (io_err e2 5); [simpl; discriminate|].
    destruct (insert_audit_log _ _ _ _ _); simpl; discriminate.
Qed.

Lemma override_decides_check_in_witness :
  post_check_in (at_time 1000) (arrival "ABC123")
    (snd (put_slot_status (at_time 500) 1 "out_of_service" fresh_db))
  = (slot_unavailable, snd (put_slot_status (at_time 500) 1 "out_of_service" fresh_db)).
Proof.
  apply (override_decides_check_in (at_time 500) 1 "out_of_service" fresh_db
           (snd (put_slot_status (at_time 500) 1 "out_of_service" fresh_db))
           (at_time 1000) (arrival "ABC123")).
  - vm_compute. reflexivity.
  - reflexivity.
  - reflexivity.
  - reflexivity.
  - discriminate.
Defined.

End SlotOverride.
